(** * dead-or-alive: a shallow embedding of the resolution engine

    The development follows the layout of the package:
    - [lib/shared-declarative-refresh.js]  the [meta[http-equiv=refresh]] parser,
    - [lib/anchors.js]                     the anchor index,
    - [lib/propose.js]                     the suggestion engine,
    - [lib/index.js]                       the resolution engine.

    Collaborators that live outside the package (the platform [URL] class,
    the HTML parser, the selector engine, the content-type parser, the table
    of URL attributes, the edit distance) are the fields of a [Platform];
    [fetch] is a [Network].  Every theorem about the package holds for any
    platform and any network.

    The engine is asynchronous and mutates one state object.  It is modelled
    with explicit state passing: a function of the engine takes the state
    and the world (the requests made so far and a trace of effects) and
    gives back how it ended together with the new state and world. *)

From Stdlib Require Import String Ascii List Bool Arith ZArith Lia.
From Stdlib Require Import QArith Permutation Sorted DecimalString.
Import ListNotations.

Local Close Scope Q_scope.
Local Open Scope list_scope.
Local Open Scope string_scope.

Set Warnings "-register-all".

(* ------------------------------------------------------------------ *)
(** ** JavaScript strings

    A string is a sequence of code units; [charCodeAt] out of range is
    [NaN], rendered as [None]: every comparison with it is false. *)

Definition charCodeAt (input : string) (position : nat) : option nat :=
  option_map nat_of_ascii (String.get position input).

(** [code === n] *)
Definition code_is (code : option nat) (n : nat) : bool :=
  match code with
  | Some c => Nat.eqb c n
  | None => false
  end.

(** [input.slice(position)] *)
Fixpoint slice (input : string) (position : nat) {struct position}
    : string :=
  match position, input with
  | O, _ => input
  | S p, String _ rest => slice rest p
  | S _, EmptyString => EmptyString
  end.

(** [input.slice(0, index)] *)
Fixpoint slice_to (input : string) (index : nat) {struct index}
    : string :=
  match index, input with
  | O, _ => EmptyString
  | S i, String c rest => String c (slice_to rest i)
  | S _, EmptyString => EmptyString
  end.

(** [input.indexOf(String.fromCharCode(code))]; [None] is [-1]. *)
Fixpoint indexOf (input : string) (code : nat) : option nat :=
  match input with
  | EmptyString => None
  | String c rest =>
      if Nat.eqb (nat_of_ascii c) code then Some O
      else option_map S (indexOf rest code)
  end.

(** The double quote, code unit 34. *)
Definition dquote : string := String (ascii_of_nat 34) EmptyString.

(** Decimal rendering of a number, as string concatenation does it. *)
Definition string_of_nat (n : nat) : string :=
  NilZero.string_of_uint (Nat.to_uint n).

Definition string_of_Z (z : Z) : string :=
  match z with
  | Zneg p => "-" ++ string_of_nat (Pos.to_nat p)
  | _ => string_of_nat (Z.to_nat z)
  end.

(* ------------------------------------------------------------------ *)
(** ** URLs, messages, completions *)

(** The parts of a platform [URL] object that the package reads. *)
Record URL := mkURL {
  href : string;
  origin : string;
  pathname : string;
  hash : string
}.

Module VFileMessage.
Record t := mk {
  reason : string;
  ruleId : string;
  source : string;
  url : option string;
  fatal : option bool;
  cause : option string
}.
End VFileMessage.

(** What a [throw] can carry: a [VFileMessage] built by the package, or a
    native [TypeError] raised by [new URL(..)] or by the content-type
    parser. *)
Inductive Thrown :=
| Message (m : VFileMessage.t)
| TypeError (what : string).

(** Result of running a piece of code: a returned value or a thrown one. *)
Inductive Completion (A : Type) :=
| Normal (a : A)
| Abrupt (e : Thrown).
Arguments Normal {A} a.
Arguments Abrupt {A} e.

Definition documentation : string := "https://github.com/wooorm/dead-or-alive".

(** [new VFileMessage(reason, {ruleId, source: 'dead-or-alive'})] followed by
    [message.url = documentation + '#' + message.ruleId]. *)
Definition diagnostic (reason rule : string) (cause : option string)
    (fatal : option bool) : VFileMessage.t :=
  VFileMessage.mk reason rule "dead-or-alive"
    (Some (documentation ++ "#" ++ rule)) fatal cause.

(* ------------------------------------------------------------------ *)
(** ** The element tree (hast) *)

Inductive Scalar :=
| Str (s : string)
| Num (n : Z)
| Bool (b : bool).

(** A property value: a scalar or an array of scalars; [null] and
    [undefined] properties are simply not listed. *)
Inductive PropertyValue :=
| Single (v : Scalar)
| Many (items : list Scalar).

Definition Properties := list (string * PropertyValue).

Inductive Node :=
| Element (tagName : string) (properties : Properties) (children : list Node)
| Text (value : string)
| Comment (value : string)
| Doctype.

(** A [Root] is given by its children. *)
Definition Root := list Node.

Definition tagName (node : Node) : string :=
  match node with
  | Element name _ _ => name
  | _ => ""
  end.

Definition properties (node : Node) : Properties :=
  match node with
  | Element _ props _ => props
  | _ => []
  end.

(** [node.properties[key]] *)
Fixpoint property (props : Properties) (key : string) : option PropertyValue :=
  match props with
  | [] => None
  | (k, v) :: rest => if String.eqb k key then Some v else property rest key
  end.

Definition truthy_string (s : string) : bool := negb (String.eqb s "").

(** Truthiness of a property read; a missing property is [undefined]. *)
Definition truthy (value : option PropertyValue) : bool :=
  match value with
  | None => false
  | Some (Single (Str s)) => truthy_string s
  | Some (Single (Num n)) => negb (Z.eqb n 0)
  | Some (Single (Bool b)) => b
  | Some (Many _) => true
  end.

Definition String_scalar (v : Scalar) : string :=
  match v with
  | Str s => s
  | Num n => string_of_Z n
  | Bool true => "true"
  | Bool false => "false"
  end.

(** [String(value)] *)
Definition String_ (value : option PropertyValue) : string :=
  match value with
  | None => "undefined"
  | Some (Single v) => String_scalar v
  | Some (Many items) => String.concat "," (map String_scalar items)
  end.

(** [visit(tree, 'element', visitor)] calls the visitor on every element in
    document order (a node before its children). *)
Fixpoint elements (node : Node) : list Node :=
  match node with
  | Element _ _ children => node :: flat_map elements children
  | _ => []
  end.

Definition elementsOf (tree : Root) : list Node := flat_map elements tree.

(* ------------------------------------------------------------------ *)
(** ** The network, and what a run leaves behind *)

Module Response.
(** What the package reads of a fetch [Response].  [body] is what
    [response.text()] resolves to; the header fields are
    [headers.get('location')] and [headers.get('content-type')], [None] for
    [null]. *)
Record t := mk {
  status : Z;
  statusText : string;
  url : string;
  location : option string;
  contentType : option string;
  body : string
}.

(** [response.ok]: the status is in the range 200 to 299. *)
Definition ok (response : t) : bool :=
  (Z.leb 200 (status response) && Z.leb (status response) 299)%bool.
End Response.

(** [fetch]: the answer to the [n]-th request of a run, to a given URL;
    [inl] is a rejected promise (network error, aborted on timeout). *)
Definition Network := nat -> URL -> string + Response.t.

(** Effects of a run, newest first.  [Redirected] and [Refreshed] are
    bookkeeping: they record that a redirect was followed and are never
    read back. *)
Inductive Event :=
| Fetched (target : URL)
| Slept (milliseconds : Z)
| BodyRead (responseUrl : string)
| Redirected (status : Z)
| Refreshed.

Record World := mkWorld {
  requests : nat;
  events : list Event
}.

Definition emit (w : World) (e : Event) : World :=
  mkWorld (requests w) (e :: events w).

Definition request (w : World) (target : URL) : World :=
  mkWorld (S (requests w)) (Fetched target :: events w).

Definition AnchorAllow : Type := (string -> bool) * (string -> bool).

Record State := mkState {
  anchorAllowlist : list AnchorAllow;
  checkAnchor : bool;
  findUrls : bool;
  followMetaHttpEquiv : bool;
  maxRedirects : Z;
  maxRetries : Z;
  messages : list VFileMessage.t;
  permanent : option bool;
  resolveClobberPrefix : bool;
  redirects : Z;
  retries : Z;
  sleep : Z -> Z;
  timeout : Z;
  urls : option (list string);
  userAgent : string
}.

Definition with_messages (s : State) (v : list VFileMessage.t) : State :=
  mkState (anchorAllowlist s) (checkAnchor s) (findUrls s)
    (followMetaHttpEquiv s) (maxRedirects s) (maxRetries s) v (permanent s)
    (resolveClobberPrefix s) (redirects s) (retries s) (sleep s) (timeout s)
    (urls s) (userAgent s).

Definition with_permanent (s : State) (v : option bool) : State :=
  mkState (anchorAllowlist s) (checkAnchor s) (findUrls s)
    (followMetaHttpEquiv s) (maxRedirects s) (maxRetries s) (messages s) v
    (resolveClobberPrefix s) (redirects s) (retries s) (sleep s) (timeout s)
    (urls s) (userAgent s).

Definition with_redirects (s : State) (v : Z) : State :=
  mkState (anchorAllowlist s) (checkAnchor s) (findUrls s)
    (followMetaHttpEquiv s) (maxRedirects s) (maxRetries s) (messages s)
    (permanent s) (resolveClobberPrefix s) v (retries s) (sleep s) (timeout s)
    (urls s) (userAgent s).

Definition with_retries (s : State) (v : Z) : State :=
  mkState (anchorAllowlist s) (checkAnchor s) (findUrls s)
    (followMetaHttpEquiv s) (maxRedirects s) (maxRetries s) (messages s)
    (permanent s) (resolveClobberPrefix s) (redirects s) v (sleep s) (timeout s)
    (urls s) (userAgent s).

Definition with_urls (s : State) (v : option (list string)) : State :=
  mkState (anchorAllowlist s) (checkAnchor s) (findUrls s)
    (followMetaHttpEquiv s) (maxRedirects s) (maxRetries s) (messages s)
    (permanent s) (resolveClobberPrefix s) (redirects s) (retries s) (sleep s)
    (timeout s) v (userAgent s).

(** [state.messages.push(message)] *)
Definition push (s : State) (message : VFileMessage.t) : State :=
  with_messages s (messages s ++ [message])%list.

(** How one activation of an [async] function of the engine ends: it
    returns a URL, throws, or returns the promise of
    [deadOrAliveInternal(state, next)].  Every recursive call of the engine
    is such a tail call. *)
Inductive Step :=
| Return (result : URL)
| Throw (e : Thrown)
| Continue (next : URL).

(** The options.  The numbers among them ([maxRedirects], [maxRetries],
    [timeout]) are integers here: the source takes any number, so the
    configurations with a fractional, infinite or not-a-number ceiling are
    not covered by this model. *)
Record Options := mkOptions {
  o_anchorAllowlist : option (list AnchorAllow);
  o_checkAnchor : option bool;
  o_findUrls : option bool;
  o_followMetaHttpEquiv : option bool;
  o_maxRedirects : option Z;
  o_maxRetries : option Z;
  o_resolveClobberPrefix : option bool;
  o_sleep : option (Z -> Z);
  o_timeout : option Z;
  o_userAgent : option string
}.

Definition emptyOptions : Options :=
  mkOptions None None None None None None None None None None.

Inductive Status := alive | dead.

Module Result.
Record t := mk {
  messages : list Thrown;
  permanent : option bool;
  status : Status;
  url : option string;
  urls : option (list string)
}.
End Result.

(* ------------------------------------------------------------------ *)
(** ** Collaborators outside the package *)

Record Platform := {
  (** [new URL(input, base)]; [None] where the constructor throws. *)
  new_URL : string -> option URL -> option URL;
  (** [url.hash = value] on a copy of [url]. *)
  set_hash : URL -> string -> URL;
  (** [parse(header).type] of fast-content-type-parse; [None] where it
      throws. *)
  contentTypeOf : string -> option string;
  (** [fromHtmlIsomorphic(text)] *)
  fromHtmlIsomorphic : string -> Root;
  (** [select('meta[http-equiv=refresh]', tree)] *)
  selectMetaRefresh : Root -> option Node;
  (** [urlAttributes]: property name to the tag names it applies to
      ([None]: every element). *)
  urlAttributes : list (string * option (list string));
  (** [levenshteinEditDistance(value, other)] *)
  levenshteinEditDistance : string -> string -> nat
}.

(* ------------------------------------------------------------------ *)
(** ** lib/shared-declarative-refresh.js *)

Definition asciiDigit (code : option nat) : bool :=
  match code with
  | Some c => Nat.leb 48 c && Nat.leb c 57
  | None => false
  end.

Definition dot (code : option nat) : bool := code_is code 46.

Definition asciiDigitOrDot (code : option nat) : bool :=
  asciiDigit code || dot code.

Definition asciiWhitespace (code : option nat) : bool :=
  code_is code 9 || code_is code 10 || code_is code 12
  || code_is code 13 || code_is code 32.

Definition commaOrSemicolon (code : option nat) : bool :=
  code_is code 44 || code_is code 59.

(** [while (position < input.length && test(input.charCodeAt(position)))
    position++]: every round advances [position], so [length input] rounds
    are enough. *)
Fixpoint skip_rounds (test : option nat -> bool) (input : string)
    (rounds position : nat) : nat :=
  match rounds with
  | O => position
  | S rounds' =>
      if Nat.ltb position (String.length input)
         && test (charCodeAt input position)
      then skip_rounds test input rounds' (S position)
      else position
  end.

Definition skip_while (test : option nat -> bool) (input : string)
    (position : nat) : nat :=
  skip_rounds test input (String.length input) position.

Definition skipAsciiWhitespace (input : string) (position : nat) : nat :=
  skip_while asciiWhitespace input position.

(** Steps 2 to 10 and the two early exits: the position at which step 11
    starts, or [None] where the function returns [undefined]. *)
Definition targetPosition (input : string) : option nat :=
  (* 2. *)
  let position := O in
  (* 3. *)
  let position := skipAsciiWhitespace input position in
  (* 4. *)
  let before := position in
  (* 5. *)
  let position := skip_while asciiDigit input position in
  (* 6. and 6.1 *)
  if Nat.eqb position before && negb (dot (charCodeAt input position))
  then None
  else
    (* 8. *)
    let position := skip_while asciiDigitOrDot input position in
    (* 10. *)
    let before := position in
    let position :=
      if Nat.ltb position (String.length input) then
        (* 10.2. *)
        let position := skipAsciiWhitespace input position in
        (* 10.3. *)
        let position :=
          if commaOrSemicolon (charCodeAt input position)
          then S position else position in
        (* 10.4. *)
        skipAsciiWhitespace input position
      else position in
    (* 10.1 / 11.0 *)
    if Nat.eqb before position || Nat.eqb position (String.length input)
    then None
    else Some position.

(** [skipQuotes], steps 11.8 to 11.10, up to its closing [return parse()]:
    the [urlString] that [parse] is then run on. *)
Definition skipQuotes (input : string) (position quote : nat) : string :=
  let code := charCodeAt input position in
  let '(quote, position) :=
    if code_is code 34 || code_is code 39
    then (match code with Some c => c | None => quote end, S position)
    else (quote, position) in
  (* 11.9. *)
  let urlString := slice input position in
  (* 11.10. *)
  if Nat.eqb quote 0 then urlString
  else
    match indexOf urlString quote with
    | Some index => slice_to urlString index
    | None => urlString
    end.

(** The function leaves by [return] (no target) or by [return parse()]:
    [urlString input] is the text in [urlString] when [parse] is reached,
    [None] where the function returns [undefined]. *)
Definition urlString (input : string) : option string :=
  match targetPosition input with
  | None => None
  | Some position =>
      (* 11.1. *)
      let urlString := slice input position in
      let quote := O in
      (* 11.2. *)
      let code := charCodeAt input position in
      if negb (code_is code 85) && negb (code_is code 117)
      then Some (skipQuotes input position quote)
      else
        let position := S position in
        (* 11.3. *)
        let code := charCodeAt input position in
        if negb (code_is code 82) && negb (code_is code 114)
        then Some urlString
        else
          let position := S position in
          (* 11.4. *)
          let code := charCodeAt input position in
          if negb (code_is code 76) && negb (code_is code 108)
          then Some urlString
          else
            let position := S position in
            (* 11.5. *)
            let position := skipAsciiWhitespace input position in
            (* 11.6. *)
            if negb (code_is (charCodeAt input position) 61)
            then Some urlString
            else
              let position := S position in
              (* 11.7. *)
              let position := skipAsciiWhitespace input position in
              (* 11.8. *)
              Some (skipQuotes input position quote)
  end.

Section Package.

Variable P : Platform.

Definition parse (urlString : string) (from : URL) : Completion (option URL) :=
  match new_URL P urlString (Some from) with
  | Some u => Normal (Some u)
  | None =>
      Abrupt (Message (diagnostic
        ("Unexpected invalid URL `" ++ urlString
           ++ "` in `content` on `meta[http-equiv=refresh] relative to `"
           ++ href from ++ "`")
        "shared-declarative-refresh"
        (Some "Invalid URL") (Some true)))
  end.

Definition sharedDeclarativeRefresh (input : string) (from : URL)
    : Completion (option URL) :=
  match urlString input with
  | None => Normal None
  | Some urlString => parse urlString from
  end.

(* ------------------------------------------------------------------ *)
(** ** lib/anchors.js *)

Record Anchor := mkAnchor {
  systemId : option Node;
  systemName : option Node;
  userId : option Node;
  userName : option Node
}.

Definition noAnchor : Anchor := mkAnchor None None None None.

(** A [Map<string, Anchor>]: keys in insertion order, no key twice. *)
Definition AnchorMap := list (string * Anchor).

Fixpoint map_get (map : AnchorMap) (key : string) : option Anchor :=
  match map with
  | [] => None
  | (k, a) :: rest => if String.eqb k key then Some a else map_get rest key
  end.

(** Store [anchor] under [key]: in place when the key is there (the anchor
    object is shared with the map and mutated), at the end otherwise. *)
Fixpoint map_set (map : AnchorMap) (key : string) (anchor : Anchor)
    : AnchorMap :=
  match map with
  | [] => [(key, anchor)]
  | (k, a) :: rest =>
      if String.eqb k key then (k, anchor) :: rest
      else (k, a) :: map_set rest key anchor
  end.

Definition map_keys (map : AnchorMap) : list string := List.map fst map.

Inductive AnchorType := Id | Name.
Inductive AnchorKind := system | user.

Definition clobberPrefix : string := "user-content-".

(** [anchor[`${kind}${type}`] = node] *)
Definition assign (anchor : Anchor) (kind : AnchorKind) (type : AnchorType)
    (node : Node) : Anchor :=
  match kind, type with
  | system, Id =>
      mkAnchor (Some node) (systemName anchor) (userId anchor) (userName anchor)
  | system, Name =>
      mkAnchor (systemId anchor) (Some node) (userId anchor) (userName anchor)
  | user, Id =>
      mkAnchor (systemId anchor) (systemName anchor) (Some node) (userName anchor)
  | user, Name =>
      mkAnchor (systemId anchor) (systemName anchor) (userId anchor) (Some node)
  end.

(** The name and kind under which [set] records a raw value. *)
Definition recordedAs (resolveClobberPrefix : bool) (value : string)
    : string * AnchorKind :=
  if String.prefix clobberPrefix value && resolveClobberPrefix
  then (slice value (String.length clobberPrefix), user)
  else (value, system).

Definition set (resolveClobberPrefix : bool) (map : AnchorMap)
    (type : AnchorType) (value : string) (node : Node) : AnchorMap :=
  let '(value, kind) := recordedAs resolveClobberPrefix value in
  let anchor :=
    match map_get map value with
    | Some anchor => anchor
    | None => noAnchor
    end in
  map_set map value (assign anchor kind type node).

(** The visitor of [getAnchors], applied to one element. *)
Definition visitAnchor (resolveClobberPrefix : bool) (map : AnchorMap)
    (node : Node) : AnchorMap :=
  let map :=
    if truthy (property (properties node) "id")
    then set resolveClobberPrefix map Id
           (String_ (property (properties node) "id")) node
    else map in
  (* Continue walking: `id` is preferred. *)
  if String.eqb (tagName node) "a" && truthy (property (properties node) "name")
  then set resolveClobberPrefix map Name
         (String_ (property (properties node) "name")) node
  else map.

Definition getAnchors (tree : Root) (resolveClobberPrefix : bool) : AnchorMap :=
  fold_left (visitAnchor resolveClobberPrefix) (elementsOf tree) [].

(** [const match = anchors.get(fragment) || {}] and
    [match.systemId || match.systemName || match.userId || match.userName]
    of [handleTextHtml]. *)
Definition anchorNode (anchors : AnchorMap) (fragment : string) : option Node :=
  match map_get anchors fragment with
  | None => None
  | Some m =>
      match systemId m, systemName m, userId m, userName m with
      | Some node, _, _, _ => Some node
      | None, Some node, _, _ => Some node
      | None, None, Some node, _ => Some node
      | None, None, None, found => found
      end
  end.

(* ------------------------------------------------------------------ *)
(** ** lib/propose.js

    A score is the quotient of two naturals.  With a non-empty [value] it is
    a finite, non-negative rational; the quotients of equal denominators
    compare in floating point as they do exactly.  With an empty [value]
    it is [Infinity] or [NaN]. *)

Inductive Score :=
| Finite (q : Q)
| Infinity
| NaN.

Definition divide (n d : nat) : Score :=
  match d with
  | O => if Nat.eqb n 0 then NaN else Infinity
  | S _ => Finite (Z.of_nat n # Pos.of_nat d)%Q
  end.

Definition ValueScoreTuple : Type := string * Score.

Definition relativeThreshold : Q := (1 # 2)%Q.
Definition max : nat := 4.

Definition score (value d : string) : ValueScoreTuple :=
  (d, divide (levenshteinEditDistance P value d) (String.length value)).

(** [sort(a, b) < 0]: the comparator [a[1] - b[1]] is negative. *)
Definition sort_negative (a b : ValueScoreTuple) : bool :=
  match snd a, snd b with
  | Finite x, Finite y => if Qlt_le_dec x y then true else false
  | Finite _, Infinity => true
  | _, _ => false
  end.

(** [d[1] < relativeThreshold] *)
Definition filter_ (d : ValueScoreTuple) : bool :=
  match snd d with
  | Finite x => if Qlt_le_dec x relativeThreshold then true else false
  | _ => false
  end.

Definition pick (d : ValueScoreTuple) : string := fst d.

(** [Array.prototype.sort] is stable; with a consistent comparator its
    result is the one of a stable insertion sort. *)
Fixpoint insert (x : ValueScoreTuple) (sorted : list ValueScoreTuple)
    : list ValueScoreTuple :=
  match sorted with
  | [] => [x]
  | y :: rest =>
      if sort_negative y x then y :: insert x rest else x :: y :: rest
  end.

Definition sort (items : list ValueScoreTuple) : list ValueScoreTuple :=
  fold_right insert [] items.

Definition propose (value : string) (ideas : list string) : list string :=
  firstn max
    (List.map pick
       (List.filter filter_ (sort (List.map (score value) ideas)))).

(* ------------------------------------------------------------------ *)
(** ** lib/index.js *)

Definition defaultUserAgent : string :=
  "Mozilla/5.0 (Macintosh; Intel Mac OS X 10_15_7) AppleWebKit/537.36 (KHTML, like Gecko) Chrome/117.0.0.0 Safari/537.36".

(** [new Intl.ListFormat('en', {style: 'long', type: 'disjunction'}).format] *)
Fixpoint listFormat_tail (items : list string) : string :=
  match items with
  | [] => ""
  | [last] => ", or " ++ last
  | item :: rest => ", " ++ item ++ listFormat_tail rest
  end.

Definition listFormat (items : list string) : string :=
  match items with
  | [] => ""
  | [a] => a
  | [a; b] => a ++ " or " ++ b
  | a :: rest => a ++ listFormat_tail rest
  end.

(** [/./.test(value)]: some code unit is not a line terminator. *)
Fixpoint anyCharacter (value : string) : bool :=
  match value with
  | EmptyString => false
  | String c rest =>
      negb (Nat.eqb (nat_of_ascii c) 10 || Nat.eqb (nat_of_ascii c) 13)
      || anyCharacter rest
  end.

(** [[[/./, /^:~:/]]] *)
Definition defaultAnchorAllowlist : list AnchorAllow :=
  [(anyCharacter, String.prefix ":~:")].

Definition defaultSleep (retries : Z) : Z := (retries ^ 3 * 1000)%Z.

(** [new URL(input)] and [new URL(input, base)] as completions. *)
Definition construct (input : string) (base : option URL) : Completion URL :=
  match new_URL P input base with
  | Some u => Normal u
  | None => Abrupt (TypeError "Invalid URL")
  end.

(** The [add] closure of [findUrls]: a [Set<string>] keeps insertion order
    and ignores a value it already holds. *)
Definition add (url : URL) (urls : list string) (value : Scalar) : list string :=
  match value with
  | Str value =>
      match new_URL P value (Some url) with
      | None => urls (* Note: we currently silently bail *)
      | Some found =>
          if existsb (String.eqb (href found)) urls then urls
          else (urls ++ [href found])%list
      end
  | _ => urls
  end.

(** [isElement(node, test)] for a list of tag names, or no test. *)
Definition isElement (node : Node) (test : option (list string)) : bool :=
  match node, test with
  | Element _ _ _, None => true
  | Element name _ _, Some names => existsb (String.eqb name) names
  | _, _ => false
  end.

(** [Object.hasOwn(urlAttributes, key)] with [urlAttributes[key]]. *)
Fixpoint urlAttribute (table : list (string * option (list string)))
    (key : string) : option (option (list string)) :=
  match table with
  | [] => None
  | (k, v) :: rest => if String.eqb k key then Some v else urlAttribute rest key
  end.

Definition findUrlsIn (url : URL) (urls : list string) (node : Node)
    : list string :=
  fold_left
    (fun urls '(key, value) =>
       match urlAttribute (urlAttributes P) key with
       | Some test =>
           if isElement node test then
             match value with
             | Many items => fold_left (add url) items urls
             | Single (Str item) => add url urls (Str item)
             | Single _ => urls
             end
           else urls
       | None => urls
       end)
    (properties node) urls.

Definition findUrls_ (url : URL) (tree : Root) : list string :=
  fold_left (findUrlsIn url) (elementsOf tree) [].

(** [retry]: the sleep is an effect on the world; the call that follows is
    the tail call. *)
Definition retry (state : State) (w : World) (url : URL)
    : Step * State * World :=
  let state := with_retries state (retries state + 1)%Z in
  let w := emit w (Slept (sleep state (retries state))) in
  (Continue url, state, w).

Definition handleUnknown (state : State) (w : World) (url : URL)
    (response : Response.t) (contentType : option string)
    : Step * State * World :=
  let state :=
    if checkAnchor state && truthy_string (hash url) then
      push state (diagnostic
        ("Unexpected hash in URL `" ++ href url ++ "` to non-html (`"
           ++ match contentType with Some c => c | None => "undefined" end
           ++ "`) losing the hash, remove the hash from the original URL")
        "lost-hash-with-non-html" None None)
    else state in
  match construct (Response.url response) None with
  | Normal u => (Return u, state, w)
  | Abrupt e => (Throw e, state, w)
  end.

(** The anchor check at the end of [handleTextHtml]. *)
Definition checkFragment (state : State) (w : World) (url : URL)
    (response : Response.t) (tree : Root) : Step * State * World :=
  match construct (Response.url response) None with
  | Abrupt e => (Throw e, state, w)
  | Normal responseUrl =>
      let baseUrl := origin responseUrl ++ pathname responseUrl in
      let fragment := slice (hash url) 1 in
      let result := set_hash P responseUrl (hash url) in
      if existsb
           (fun '(urlRe, fragmentRe) => urlRe baseUrl && fragmentRe fragment)
           (anchorAllowlist state)
      then (Return result, state, w)
      else
        let anchors := getAnchors tree (resolveClobberPrefix state) in
        match anchorNode anchors fragment with
        | Some _ => (Return result, state, w)
        | None =>
            let proposals :=
              listFormat
                (List.map (fun d => "`" ++ d ++ "`")
                   (propose fragment (map_keys anchors))) in
            (Throw (Message (diagnostic
               ("Unexpected missing anchor element on `"
                  ++ Response.url response ++ "` for fragment `" ++ fragment
                  ++ "`, remove if unneeded or refer to an existing element"
                  ++ (if truthy_string proposals
                      then " such as " ++ proposals else ""))
               "missing-anchor" None (Some true))),
             state, w)
        end
  end.

(** [handleTextHtml] after the body was read and parsed. *)
Definition inspectHtml (state : State) (w : World) (url : URL)
    (response : Response.t) (tree : Root) : Step * State * World :=
  let afterRefresh (state : State) : Step * State * World :=
    let state :=
      if findUrls state then with_urls state (Some (findUrls_ url tree))
      else state in
    if checkAnchor state && truthy_string (hash url)
    then checkFragment state w url response tree
    else
      (* Allow the hash to remain. *)
      match construct (Response.url response ++ hash url) None with
      | Normal u => (Return u, state, w)
      | Abrupt e => (Throw e, state, w)
      end in
  if followMetaHttpEquiv state then
    let meta := selectMetaRefresh P tree in
    let redirect : Completion (option URL) :=
      match meta with
      | Some meta =>
          if truthy (property (properties meta) "content") then
            match construct (Response.url response) None with
            | Abrupt e => Abrupt e
            | Normal from =>
                sharedDeclarativeRefresh
                  (String_ (property (properties meta) "content")) from
            end
          else Normal None
      | None => Normal None
      end in
    match redirect with
    | Abrupt e => (Throw e, state, w)
    | Normal (Some redirect) =>
        let state :=
          if checkAnchor state && truthy_string (hash url) then
            push state (diagnostic
              ("Unexpected hash in URL `" ++ href url
                 ++ "` that redirects with `meta[http-equiv=refresh] to `"
                 ++ href redirect
                 ++ "` losing the hash, remove the hash from the original URL")
              "lost-hash-with-meta-http-equiv" None None)
          else state in
        (* Treat all HTML redirects as non-permanent. *)
        let state := with_permanent state (Some false) in
        let state := with_redirects state (redirects state + 1)%Z in
        (Continue redirect, state, emit w Refreshed)
    | Normal None => afterRefresh state
    end
  else afterRefresh state.

Definition handleTextHtml (state : State) (w : World) (url : URL)
    (response : Response.t) : Step * State * World :=
  (* If we don't need to dig into the HTML, we're done. *)
  if negb ((checkAnchor state && truthy_string (hash url))
           || findUrls state || followMetaHttpEquiv state)
  then
    match construct (Response.url response) None with
    | Normal u => (Return u, state, w)
    | Abrupt e => (Throw e, state, w)
    end
  else
    let w := emit w (BodyRead (Response.url response)) in
    let text := Response.body response in
    let tree := fromHtmlIsomorphic P text in
    inspectHtml state w url response tree.

(** [deadOrAliveInternal] from [if (!response.ok)] on: the response was not
    followed as a redirect. *)
Definition respond (state : State) (w : World) (url : URL)
    (response : Response.t) : Step * State * World :=
  if negb (Response.ok response) then
    if (retries state <? maxRetries state)%Z
       (* When the server says the client is wrong, we don't try again. *)
       && ((Response.status response <? 400)%Z
           || (500 <=? Response.status response)%Z)
    then retry state w url
    else
      (Throw (Message (diagnostic
         ("Unexpected not ok response `"
            ++ string_of_Z (Response.status response) ++ "` (`"
            ++ Response.statusText response ++ "`) on `"
            ++ Response.url response ++ "`")
         "dead" None (Some true))),
       state, w)
  else
    (* Note: defaulting to HTML might not be great? *)
    let contentType :=
      match Response.contentType response with
      | Some c => if truthy_string c then Some c else None
      | None => None
      end in
    match contentType with
    | Some c =>
        match contentTypeOf P c with
        | None => (Throw (TypeError "invalid media type"), state, w)
        | Some type =>
            if String.eqb type "text/html"
            then handleTextHtml state w url response
            else handleUnknown state w url response contentType
        end
    | None => handleUnknown state w url response contentType
    end.

(** One activation of [deadOrAliveInternal]. *)
Definition hop (net : Network) (state : State) (w : World) (url : URL)
    : Step * State * World :=
  if (maxRedirects state <? redirects state)%Z then
    (Throw (Message (diagnostic
       ("Unexpected redirect to `" ++ href url ++ "`, too many redirects")
       "max-redirect" None (Some true))),
     state, w)
  else
    match net (requests w) url with
    | inl error =>
        let w := request w url in
        if (retries state <? maxRetries state)%Z then retry state w url
        else
          (Throw (Message (diagnostic
             ("Unexpected error fetching `" ++ href url ++ "`")
             "fetch" (Some error) (Some true))),
           state, w)
    | inr response =>
        let w := request w url in
        (* Reset retries if successful. *)
        let state := with_retries state 0 in
        let location :=
          if (300 <=? Response.status response)%Z
             && (Response.status response <? 400)%Z
          then
            match Response.location response with
            | Some location =>
                if truthy_string location then Some location else None
            | None => None
            end
          else None in
        match location with
        | Some location =>
            match construct location (Some url) with
            | Abrupt e => (Throw e, state, w)
            | Normal redirect =>
                let state :=
                  if (Response.status response =? 301)%Z
                     || (Response.status response =? 308)%Z
                  then
                    match permanent state with
                    | None => with_permanent state (Some true)
                    | Some _ => state
                    end
                  else with_permanent state (Some false) in
                let state :=
                  if truthy_string (hash url) then
                    push state (diagnostic
                      ("Unexpected hash in URL `" ++ href url
                         ++ "` that redirects to `" ++ href redirect
                         ++ "` losing the hash, remove the hash from the original URL")
                      "lost-hash-with-redirect" None None)
                  else state in
                let state := with_redirects state (redirects state + 1)%Z in
                (Continue redirect, state,
                 emit w (Redirected (Response.status response)))
            end
        | None => respond state w url response
        end
    end.

(** [deadOrAliveInternal], with a bound on the number of activations.  When
    the bound is reached the pending call is handed back as [Continue]. *)
Fixpoint deadOrAliveInternal (net : Network) (fuel : nat) (state : State)
    (w : World) (url : URL) : Step * State * World :=
  match fuel with
  | O => (Continue url, state, w)
  | S fuel' =>
      match hop net state w url with
      | (Continue next, state, w) => deadOrAliveInternal net fuel' state w next
      | finished => finished
      end
  end.

Definition initialState (options : option Options) : State :=
  let settings := match options with Some o => o | None => emptyOptions end in
  {| anchorAllowlist :=
       match o_anchorAllowlist settings with
       | Some l => l
       | None => defaultAnchorAllowlist
       end;
     checkAnchor :=
       match o_checkAnchor settings with Some false => false | _ => true end;
     findUrls :=
       match o_findUrls settings with Some false => false | _ => true end;
     followMetaHttpEquiv :=
       match o_followMetaHttpEquiv settings with
       | Some false => false
       | _ => true
       end;
     maxRedirects :=
       match o_maxRedirects settings with Some n => n | None => 5%Z end;
     maxRetries :=
       match o_maxRetries settings with Some n => n | None => 1%Z end;
     messages := [];
     permanent := None;
     resolveClobberPrefix :=
       match o_resolveClobberPrefix settings with
       | Some false => false
       | _ => true
       end;
     redirects := 0;
     retries := 0;
     sleep :=
       match o_sleep settings with Some f => f | None => defaultSleep end;
     timeout :=
       match o_timeout settings with Some n => n | None => 3000%Z end;
     urls := None;
     userAgent :=
       match o_userAgent settings with
       | Some u => if truthy_string u then u else defaultUserAgent
       | None => defaultUserAgent
       end |}.

Definition noWorld : World := mkWorld 0 [].

(** [deadOrAlive]: [None] while the promise is still pending after [fuel]
    activations of [deadOrAliveInternal]. *)
Definition deadOrAlive (net : Network) (fuel : nat) (href_ : string + URL)
    (options : option Options) : option Result.t * World :=
  let state := initialState options in
  match
    match href_ with
    | inl text => construct text None
    | inr parsed => Normal parsed
    end
  with
  | Abrupt cause =>
      (Some (Result.mk (cause :: List.map Message (messages state))
               (permanent state) dead None (urls state)),
       noWorld)
  | Normal url =>
      match deadOrAliveInternal net fuel state noWorld url with
      | (Return url, state, w) =>
          (Some (Result.mk (List.map Message (messages state))
                   (permanent state) alive (Some (href url)) (urls state)),
           w)
      | (Throw cause, state, w) =>
          (Some (Result.mk (cause :: List.map Message (messages state))
                   (permanent state) dead None (urls state)),
           w)
      | (Continue _, _, w) => (None, w)
      end
  end.

End Package.

(* ------------------------------------------------------------------ *)
(** ** A small platform, to run the model on examples

    A stand-in for the collaborators, precise enough for [https] URLs
    without a query: it is used to evaluate the model on concrete inputs
    and nowhere else. *)

Module Example.

(** Split [s] before its first code unit accepted by [stop]. *)
Fixpoint upto (stop : nat -> bool) (s : string) : string * string :=
  match s with
  | EmptyString => (EmptyString, EmptyString)
  | String c rest =>
      if stop (nat_of_ascii c) then (EmptyString, s)
      else let '(a, b) := upto stop rest in (String c a, b)
  end.

Definition absolute (scheme rest : string) : option URL :=
  let '(host, tail) := upto (fun c => Nat.eqb c 47 || Nat.eqb c 35) rest in
  if String.eqb host "" then None
  else
    let '(path, fragment) := upto (fun c => Nat.eqb c 35) tail in
    let path := if String.eqb path "" then "/" else path in
    let fragment := if String.eqb fragment "#" then "" else fragment in
    Some (mkURL (scheme ++ host ++ path ++ fragment) (scheme ++ host)
            path fragment).

(** The directory of a path: up to and including its last slash. *)
Fixpoint directory (path : string) : string :=
  match path with
  | EmptyString => EmptyString
  | String c rest =>
      match indexOf rest 47 with
      | Some _ => String c (directory rest)
      | None => if Nat.eqb (nat_of_ascii c) 47 then "/" else ""
      end
  end.

Definition wellFormed (input : string) : bool :=
  match indexOf input 91, indexOf input 32 with
  | None, None => true
  | _, _ => false
  end.

Definition newURL (input : string) (base : option URL) : option URL :=
  if negb (wellFormed input) then None
  else if String.prefix "https://" input then absolute "https://" (slice input 8)
  else if String.prefix "http://" input then absolute "http://" (slice input 7)
  else
    match base with
    | None => None
    | Some b =>
        let scheme :=
          if String.prefix "https://" (origin b) then "https://" else "http://" in
        let host := slice (origin b) (String.length scheme) in
        if String.prefix "/" input then absolute scheme (host ++ input)
        else if String.prefix "#" input
        then absolute scheme (host ++ pathname b ++ input)
        else absolute scheme (host ++ directory (pathname b) ++ input)
    end.

Definition setHash (u : URL) (value : string) : URL :=
  mkURL (origin u ++ pathname u ++ value) (origin u) (pathname u) value.

(** The media type is the text before the first semicolon; it needs a
    slash. *)
Definition mediaType (header : string) : option string :=
  let '(type, _) := upto (fun c => Nat.eqb c 59) header in
  match indexOf type 47 with
  | Some _ => Some type
  | None => None
  end.

Definition h1 (id : string) : Node :=
  Element "h1" [("id", Single (Str id))] [].

Definition a_name (name : string) : Node :=
  Element "a" [("name", Single (Str name))] [].

Definition metaRefresh (content : string) : Node :=
  Element "meta"
    [("httpEquiv", Many [Str "refresh"]); ("content", Single (Str content))] [].

(** The documents that the parser stand-in knows; any other text is a
    single text node. *)
Definition similarAnchors : string :=
  "<h1 id=aaab>hi</h1><h1 id=user-content-aaac>hi</h1><a name=aaad>hi</a><a name=user-content-aaae>hi</a>".

Definition documents : list (string * Root) :=
  [("<h1 id=hi>", [h1 "hi"]);
   ("<a name=hi>", [a_name "hi"]);
   ("<meta http-equiv=refresh content=0;/1>",
    [Element "head" [] [metaRefresh "0;/1"]]);
   (similarAnchors,
    [Element "h1" [("id", Single (Str "aaab"))] [Text "hi"];
     Element "h1" [("id", Single (Str "user-content-aaac"))] [Text "hi"];
     Element "a" [("name", Single (Str "aaad"))] [Text "hi"];
     Element "a" [("name", Single (Str "user-content-aaae"))] [Text "hi"]])].

Definition parseHtml (text : string) : Root :=
  match List.find (fun entry => String.eqb (fst entry) text) documents with
  | Some (_, tree) => tree
  | None => [Text text]
  end.

Definition isMetaRefresh (node : Node) : bool :=
  String.eqb (tagName node) "meta"
  && match property (properties node) "httpEquiv" with
     | Some (Many [Str v]) => String.eqb v "refresh"
     | Some (Single (Str v)) => String.eqb v "refresh"
     | _ => false
     end.

Definition selectMeta (tree : Root) : option Node :=
  List.find isMetaRefresh (elementsOf tree).

(** The edit distance, by its recurrence. *)
Fixpoint levenshtein (s : string) : string -> nat :=
  match s with
  | EmptyString => String.length
  | String a s' =>
      fix inner (t : string) : nat :=
        match t with
        | EmptyString => S (String.length s')
        | String b t' =>
            if Ascii.eqb a b then levenshtein s' t'
            else S (Nat.min (Nat.min (levenshtein s' t) (inner t'))
                      (levenshtein s' t'))
        end
  end.

Definition platform : Platform :=
  {| new_URL := newURL;
     set_hash := setHash;
     contentTypeOf := mediaType;
     fromHtmlIsomorphic := parseHtml;
     selectMetaRefresh := selectMeta;
     urlAttributes := [("href", Some ["a"; "area"; "base"; "link"]);
                       ("src", Some ["img"; "script"; "iframe"])];
     levenshteinEditDistance := levenshtein |}.

Definition from : URL :=
  mkURL "https://example.com/from" "https://example.com" "/from" "".

(** A plain response with the given status. *)
Definition reply (status : Z) (url : string) : Response.t :=
  Response.mk status
    (if Z.eqb status 404 then "Not Found" else "") url None None "".

(** A redirect to [location]. *)
Definition redirect (status : Z) (url location : string) : Response.t :=
  Response.mk status "" url (Some location) None "".

(** An HTML document. *)
Definition html (url body : string) : Response.t :=
  Response.mk 200 "OK" url None (Some "text/html") body.

(** A network that answers the [n]-th request with the [n]-th entry of a
    script, and fails when the script is over. *)
Definition script (answers : list (string + Response.t)) : Network :=
  fun n _ => nth n answers (inl "connection refused").

(** The URL [https://example.com/n]. *)
Definition page (n : nat) : URL :=
  mkURL ("https://example.com/" ++ string_of_nat n) "https://example.com"
    ("/" ++ string_of_nat n) "".

Definition withMaxRedirects (n : Z) : Options :=
  mkOptions None None None None (Some n) None None None None None.

(** Everything that needs the body is switched off. *)
Definition fastState : State :=
  initialState (Some (mkOptions None (Some false) (Some false) (Some false)
                        None None None None None None)).

Definition home : URL :=
  mkURL "https://example.com/" "https://example.com" "/" "".

Definition hiUrl : URL :=
  mkURL "https://example.com/#hi" "https://example.com" "/" "#hi".

Definition homePage : Response.t := html "https://example.com/" "<h1 id=hi>".

(** Candidates for the target [hello], more than four of them close. *)
Definition candidates : list string :=
  ["help"; "world"; "hallo"; "hell"; "hullo"; "hello"; "jello"].

End Example.

(* ------------------------------------------------------------------ *)
(** ** Vocabulary of the statements *)

(** The code unit at [position] is one of two letters (upper, lower). *)
Definition letter (input : string) (position upper lower : nat) : bool :=
  code_is (charCodeAt input position) upper
  || code_is (charCodeAt input position) lower.

(** The [URL] keyword of step 11 starts at [p] but is incomplete: the [U]
    is there and then an [R], an [L] or the [=] is missing.  [stop] is the
    position at which the keyword gave out. *)
Definition partialKeyword (input : string) (p stop : nat) : Prop :=
  letter input p 85 117 = true
  /\ ((letter input (p + 1) 82 114 = false /\ stop = p + 1)
      \/ (letter input (p + 1) 82 114 = true
          /\ letter input (p + 2) 76 108 = false /\ stop = p + 2)
      \/ (letter input (p + 1) 82 114 = true
          /\ letter input (p + 2) 76 108 = true
          /\ stop = skipAsciiWhitespace input (p + 3)
          /\ code_is (charCodeAt input stop) 61 = false)).

(** The fatal diagnostic of the refresh parser for a raw text and a base. *)
Definition refreshDiagnostic (text : string) (base : URL) : VFileMessage.t :=
  VFileMessage.mk
    ("Unexpected invalid URL `" ++ text
       ++ "` in `content` on `meta[http-equiv=refresh] relative to `"
       ++ href base ++ "`")
    "shared-declarative-refresh" "dead-or-alive"
    (Some "https://github.com/wooorm/dead-or-alive#shared-declarative-refresh")
    (Some true) (Some "Invalid URL").

(** A thrown value that is a diagnostic of the package marked fatal. *)
Definition fatalDiagnostic (e : Thrown) : Prop :=
  exists m, e = Message m /\ VFileMessage.fatal m = Some true.

(** The lookup of [handleTextHtml] finds an owner for [fragment]. *)
Definition found (anchors : AnchorMap) (fragment : string) : bool :=
  match anchorNode anchors fragment with
  | Some _ => true
  | None => false
  end.

(** [node] is recorded under the name [f]: through its [id], or, for an
    [a] element, through its [name]. *)
Definition owns (resolveClobberPrefix : bool) (node : Node) (f : string)
    : bool :=
  (truthy (property (properties node) "id")
   && String.eqb
        (fst (recordedAs resolveClobberPrefix
                (String_ (property (properties node) "id")))) f)
  || (String.eqb (tagName node) "a"
      && truthy (property (properties node) "name")
      && String.eqb
           (fst (recordedAs resolveClobberPrefix
                   (String_ (property (properties node) "name")))) f).

(** The normalized distance of a candidate: the edit distance to the
    target divided by the target's length. *)
Definition normalized (P : Platform) (value d : string) : Q :=
  (Z.of_nat (levenshteinEditDistance P value d)
   # Pos.of_nat (String.length value))%Q.

(** A stable insertion sort of candidates by a rational key: the reference
    against which the pipeline of [propose] is read. *)
Fixpoint insertByKey (key : string -> Q) (x : string) (sorted : list string)
    : list string :=
  match sorted with
  | [] => [x]
  | y :: rest =>
      if Qlt_le_dec (key y) (key x) then y :: insertByKey key x rest
      else x :: y :: rest
  end.

Definition sortByKey (key : string -> Q) (items : list string) : list string :=
  fold_right (insertByKey key) [] items.

(** The threshold test on a candidate. *)
Definition closeEnough (P : Platform) (value d : string) : bool :=
  if Qlt_le_dec (normalized P value d) relativeThreshold then true else false.

(** Ascending order of keys. *)
Definition ascending (key : string -> Q) (a b : string) : Prop :=
  (key a <= key b)%Q.

(** Candidates whose key equals [q]. *)
Definition tied (key : string -> Q) (q : Q) (d : string) : bool :=
  Qeq_bool (key d) q.

(** The redirect records of a world, newest first, and in the order in
    which the redirects were followed. *)
Definition isHop (e : Event) : bool :=
  match e with
  | Redirected _ | Refreshed => true
  | _ => false
  end.

Definition hopsIn (w : World) : list Event := List.filter isHop (events w).

Definition followed (w : World) : list Event := rev (hopsIn w).

(** An HTTP redirect with status 301 or 308. *)
Definition permanentHop (e : Event) : bool :=
  match e with
  | Redirected status => (status =? 301)%Z || (status =? 308)%Z
  | _ => false
  end.

(** What one activation of the engine does to [permanent] and to the
    redirect records: nothing, or it follows an HTTP redirect, or it follows
    a meta refresh. *)
Definition hopEffect (state : State) (w : World) (state' : State)
    (w' : World) : Prop :=
  (permanent state' = permanent state /\ hopsIn w' = hopsIn w)
  \/ (exists status,
        hopsIn w' = Redirected status :: hopsIn w
        /\ permanent state'
           = if permanentHop (Redirected status)
             then match permanent state with
                  | None => Some true
                  | Some earlier => Some earlier
                  end
             else Some false)
  \/ (hopsIn w' = Refreshed :: hopsIn w /\ permanent state' = Some false).

(** The value of [permanent] that goes with a list of redirect records:
    unset without redirects, true when all of them are permanent HTTP
    redirects, false otherwise. *)
Definition verdict (hops : list Event) : option bool :=
  match hops with
  | [] => None
  | _ => Some (forallb permanentHop hops)
  end.

(** The [n]-th request, made to [current], is answered by an HTTP redirect
    that the engine follows to [next]: a status in the 3xx range and a
    non-empty [location] that resolves against [current]. *)
Definition redirectsTo (P : Platform) (net : Network) (n : nat)
    (current next : URL) : Prop :=
  exists response location,
    net n current = inr response
    /\ (300 <= Response.status response < 400)%Z
    /\ Response.location response = Some location
    /\ location <> ""
    /\ new_URL P location (Some current) = Some next.

(** A chain of [n] HTTP redirects: request [i] goes to [urlAt i] and is
    redirected to [urlAt (S i)]. *)
Definition chain (P : Platform) (net : Network) (urlAt : nat -> URL)
    (n : nat) : Prop :=
  forall i, i < n -> redirectsTo P net i (urlAt i) (urlAt (S i)).

(** A response that ends the resolution with [final] whatever the state:
    it is ok (2xx) and its handling returns. *)
Definition settles (P : Platform) (url : URL) (response : Response.t)
    (final : URL) : Prop :=
  forall state w,
    exists state' w',
      respond P state w url response = (Return final, state', w')
      /\ requests w' = requests w.

(** The fatal diagnostic for a redirect past the ceiling. *)
Definition maxRedirectDiagnostic (target : URL) : VFileMessage.t :=
  VFileMessage.mk
    ("Unexpected redirect to `" ++ href target ++ "`, too many redirects")
    "max-redirect" "dead-or-alive"
    (Some "https://github.com/wooorm/dead-or-alive#max-redirect")
    (Some true) None.

(** Every message collected in the state is a warning. *)
Definition warningsOnly (state : State) : Prop :=
  Forall (fun m => VFileMessage.fatal m = None) (messages state).

(** A network that never sets off the retry on a status: every response is
    ok, or a client error, or a redirect with a location. *)
Definition calm (net : Network) : Prop :=
  forall n url response,
    net n url = inr response ->
    Response.ok response = true
    \/ (400 <= Response.status response < 500)%Z
    \/ ((300 <= Response.status response < 400)%Z
        /\ exists location,
             Response.location response = Some location /\ location <> "").

(** A number of activations that is enough from a state, on a calm
    network: every redirect still allowed may use up the whole retry
    budget. *)
Definition budget (state : State) : nat :=
  Z.to_nat (maxRedirects state + 1 - redirects state)
  * (Z.to_nat (maxRetries state) + 1)
  + Z.to_nat (maxRetries state - retries state) + 1.

(** [state'] is [state] after one more redirect. *)
Definition advances (state state' : State) : Prop :=
  redirects state' = (redirects state + 1)%Z
  /\ retries state' = retries state
  /\ maxRedirects state' = maxRedirects state
  /\ maxRetries state' = maxRetries state.

(** The immutable part of the state is the same in both states. *)
Definition sameConfiguration (state state' : State) : Prop :=
  anchorAllowlist state' = anchorAllowlist state
  /\ checkAnchor state' = checkAnchor state
  /\ findUrls state' = findUrls state
  /\ followMetaHttpEquiv state' = followMetaHttpEquiv state
  /\ maxRedirects state' = maxRedirects state
  /\ maxRetries state' = maxRetries state
  /\ resolveClobberPrefix state' = resolveClobberPrefix state
  /\ sleep state' = sleep state
  /\ timeout state' = timeout state
  /\ userAgent state' = userAgent state.



(** The redirect counter counts the redirects followed, and they are at
    most one more than the ceiling [m]. *)
Definition redirectsWithin (m : Z) (state : State) (w : World) : Prop :=
  maxRedirects state = m
  /\ redirects state = Z.of_nat (length (hopsIn w))
  /\ (Z.of_nat (length (hopsIn w)) <= Z.max 0 (m + 1))%Z.

(** No body was read. *)
Definition noBodyRead (w : World) : Prop :=
  forall r, ~ In (BodyRead r) (events w).

(** The three toggles that make [handleTextHtml] read the body are off. *)
Definition inspectionOff (state : State) : Prop :=
  checkAnchor state = false
  /\ findUrls state = false
  /\ followMetaHttpEquiv state = false.

(** [state.urls] is unset, or URL discovery is on and a body was read. *)
Definition urlsExplained (state : State) (w : World) : Prop :=
  urls state = None
  \/ (findUrls state = true /\ exists r, In (BodyRead r) (events w)).

(** Some request of the run was answered by an ok response declared as
    [text/html] whose URL is [r]. *)
Definition htmlAnswer (P : Platform) (net : Network) (r : string) : Prop :=
  exists n url response header,
    net n url = inr response
    /\ Response.ok response = true
    /\ Response.contentType response = Some header
    /\ contentTypeOf P header = Some "text/html"
    /\ Response.url response = r.

(** The world after [n] failed requests to [url] in a row, each followed by
    the back-off sleep, starting from retry counter [t]. *)
Fixpoint failed (f : Z -> Z) (url : URL) (t : Z) (n : nat) (w : World)
    : World :=
  match n with
  | O => w
  | S n' =>
      failed f url (t + 1) n' (emit (request w url) (Slept (f (t + 1)%Z)))
  end.



(** The fatal diagnostic for a response that is not ok. *)
Definition deadDiagnostic (response : Response.t) : VFileMessage.t :=
  VFileMessage.mk
    ("Unexpected not ok response `"
       ++ string_of_Z (Response.status response) ++ "` (`"
       ++ Response.statusText response ++ "`) on `"
       ++ Response.url response ++ "`")
    "dead" "dead-or-alive"
    (Some "https://github.com/wooorm/dead-or-alive#dead")
    (Some true) None.

(** A [Map] as the package builds it: no key twice, and every key holds an
    anchor with an owner, so the keys are exactly the fragments that the
    lookup finds. *)
Definition wellKeyed (map : AnchorMap) : Prop :=
  NoDup (map_keys map)
  /\ forall k, In k (map_keys map) <-> found map k = true.

(** [node] is recorded under [f] through its [id]. *)
Definition recordedById (rcp : bool) (node : Node) (f : string) : Prop :=
  truthy (property (properties node) "id") = true
  /\ fst (recordedAs rcp (String_ (property (properties node) "id"))) = f.

(** [node] is an [a] element recorded under [f] through its [name]. *)
Definition recordedByName (rcp : bool) (node : Node) (f : string) : Prop :=
  tagName node = "a"
  /\ truthy (property (properties node) "name") = true
  /\ fst (recordedAs rcp (String_ (property (properties node) "name"))) = f.

(** [new URL(s, url)] succeeds and its [href] is [h]. *)
Definition resolvesTo (P : Platform) (url : URL) (s h : string) : Prop :=
  exists found, new_URL P s (Some url) = Some found /\ href found = h.

(** The string [s] is the value of the property, or one of its items. *)
Definition carries (value : PropertyValue) (s : string) : Prop :=
  match value with
  | Single (Str x) => x = s
  | Single _ => False
  | Many items => In (Str s) items
  end.

(** Some property of [node] that is a URL attribute for this element
    carries a string that resolves to [h]. *)
Definition linksTo (P : Platform) (url : URL) (node : Node) (h : string)
    : Prop :=
  exists key value test s,
    In (key, value) (properties node)
    /\ urlAttribute (urlAttributes P) key = Some test
    /\ isElement node test = true
    /\ carries value s
    /\ resolvesTo P url s h.

(** What one property of an element adds to the set: the body of the loop
    over the properties in [findUrls]. *)
Definition findUrlsStep (P : Platform) (url : URL) (node : Node)
    (urls : list string) (entry : string * PropertyValue) : list string :=
  let '(key, value) := entry in
  match urlAttribute (urlAttributes P) key with
  | Some test =>
      if isElement node test then
        match value with
        | Many items => fold_left (add P url) items urls
        | Single (Str item) => add P url urls (Str item)
        | Single _ => urls
        end
      else urls
  | None => urls
  end.

(** Every code unit of the string passes the test. *)
Fixpoint everyCode (test : option nat -> bool) (s : string) : bool :=
  match s with
  | EmptyString => true
  | String c rest => test (Some (nat_of_ascii c)) && everyCode test rest
  end.

(** [code] is not the first code unit of a target: not whitespace. *)
Definition separator (sep : string) : Prop :=
  sep = "" \/ sep = "," \/ sep = ";".

(** What steps 3 to 10 of the refresh parser skip: whitespace, a delay of
    digits and dots, whitespace, at most one separator, whitespace; with no
    separator, there is whitespace after the delay. *)
Definition prelude (ws0 delay ws1 sep ws2 : string) : Prop :=
  everyCode asciiWhitespace ws0 = true
  /\ delay <> ""
  /\ everyCode asciiDigitOrDot delay = true
  /\ everyCode asciiWhitespace ws1 = true
  /\ separator sep
  /\ everyCode asciiWhitespace ws2 = true
  /\ (sep = "" -> ws1 <> "" /\ ws2 = "").

(** [target] starts where the skipping of the prelude stops. *)
Definition startsTarget (sep target : string) : Prop :=
  target <> ""
  /\ asciiWhitespace (charCodeAt target 0) = false
  /\ (sep = "" -> commaOrSemicolon (charCodeAt target 0) = false).

(** The three letters [URL], in either case. *)
Definition keywordUrl (k : string) : Prop :=
  String.length k = 3
  /\ letter k 0 85 117 = true
  /\ letter k 1 82 114 = true
  /\ letter k 2 76 108 = true.

(** A double quote or an apostrophe. *)
Definition quoteMark (q : ascii) : Prop :=
  nat_of_ascii q = 34 \/ nat_of_ascii q = 39.

(** The response has no content type, or one that is not [text/html]. *)
Definition otherType (P : Platform) (response : Response.t) : bool :=
  match Response.contentType response with
  | None => true
  | Some header =>
      if truthy_string header then
        match contentTypeOf P header with
        | Some type => negb (String.eqb type "text/html")
        | None => false
        end
      else true
  end.

(** The warning for a fragment on something that is not HTML. *)
Definition lostHashDiagnostic (url : URL) (header : option string)
    : VFileMessage.t :=
  VFileMessage.mk
    ("Unexpected hash in URL `" ++ href url ++ "` to non-html (`"
       ++ match header with
          | Some c => if truthy_string c then c else "undefined"
          | None => "undefined"
          end
       ++ "`) losing the hash, remove the hash from the original URL")
    "lost-hash-with-non-html" "dead-or-alive"
    (Some "https://github.com/wooorm/dead-or-alive#lost-hash-with-non-html")
    None None.

(** The handling of an ok response to a request for [url] returns [final]
    under the configuration of [config].  What the handling of an ok
    response returns depends on the state through its configuration
    only. *)
Definition returns (P : Platform) (config : State) (url : URL)
    (response : Response.t) (final : URL) : Prop :=
  Response.ok response = true
  /\ exists state' w',
       respond P config noWorld url response = (Return final, state', w').

(** The target of the HTTP redirect that [response] is for a request to
    [url]: a status in the 3xx range and a non-empty [location] that
    resolves against [url]. *)
Definition httpRedirect (P : Platform) (url : URL) (response : Response.t)
    : option URL :=
  if (300 <=? Response.status response)%Z
     && (Response.status response <? 400)%Z
  then
    match Response.location response with
    | Some location =>
        if truthy_string location then new_URL P location (Some url)
        else None
    | None => None
    end
  else None.

(** The target of the meta refresh that [response] carries, when refreshes
    are followed: the response is ok and declares itself as [text/html],
    the document has a [meta[http-equiv=refresh]] element with a non-empty
    [content], and the refresh parser finds a URL in it. *)
Definition metaRefreshOf (P : Platform) (config : State)
    (response : Response.t) : option URL :=
  if Response.ok response && followMetaHttpEquiv config then
    match Response.contentType response with
    | Some header =>
        if truthy_string header then
          match contentTypeOf P header with
          | Some type =>
              if String.eqb type "text/html" then
                match selectMetaRefresh P
                        (fromHtmlIsomorphic P (Response.body response)) with
                | Some meta =>
                    if truthy (property (properties meta) "content") then
                      match new_URL P (Response.url response) None with
                      | Some from =>
                          match sharedDeclarativeRefresh P
                                  (String_ (property (properties meta)
                                              "content")) from with
                          | Normal (Some next) => Some next
                          | _ => None
                          end
                      | None => None
                      end
                    else None
                | None => None
                end
              else None
          | None => None
          end
        else None
    | None => None
    end
  else None.

(** How the network's answer to a request for [url] sends the engine on:
    the record of the redirect and its target, or [None] when the answer is
    no redirect. *)
Definition redirectOf (P : Platform) (config : State) (url : URL)
    (answer : string + Response.t) : option (Event * URL) :=
  match answer with
  | inl _ => None
  | inr response =>
      match httpRedirect P url response with
      | Some next => Some (Redirected (Response.status response), next)
      | None =>
          match metaRefreshOf P config response with
          | Some next => Some (Refreshed, next)
          | None => None
          end
      end
  end.

(** The redirects among the answers to [count] requests in a row, the
    first of which has number [n] and goes to [url]: after an answer that
    is a redirect the next request goes to its target, after any other
    answer it goes to the same URL again. *)
Fixpoint trail (P : Platform) (config : State) (net : Network)
    (count n : nat) (url : URL) : list Event :=
  match count with
  | O => []
  | S count' =>
      match redirectOf P config url (net n url) with
      | Some (record, next) => record :: trail P config net count' (S n) next
      | None => trail P config net count' (S n) url
      end
  end.

(** The URL to which the request after these [count] requests goes. *)
Fixpoint destination (P : Platform) (config : State) (net : Network)
    (count n : nat) (url : URL) : URL :=
  match count with
  | O => url
  | S count' =>
      match redirectOf P config url (net n url) with
      | Some (_, next) => destination P config net count' (S n) next
      | None => destination P config net count' (S n) url
      end
  end.

(** The URL that [deadOrAlive] starts from. *)
Definition start (P : Platform) (href_ : string + URL) : option URL :=
  match href_ with
  | inl text => new_URL P text None
  | inr parsed => Some parsed
  end.

(** The redirects among the network's answers to the first [count]
    requests of a call of [deadOrAlive]. *)
Definition answered (P : Platform) (net : Network) (options : option Options)
    (href_ : string + URL) (count : nat) : list Event :=
  match start P href_ with
  | Some url => trail P (initialState options) net count 0 url
  | None => []
  end.

(* ================================================================== *)
(** * Theorems *)

(* ------------------------------------------------------------------ *)
(** ** The refresh parser *)

Lemma letter_split (input : string) (position upper lower : nat) :
  negb (code_is (charCodeAt input position) upper)
  && negb (code_is (charCodeAt input position) lower)
  = negb (letter input position upper lower).
Proof. unfold letter. now rewrite negb_orb. Qed.

(** The loop of [skip_while] stops where its condition fails. *)
Lemma skip_rounds_stops (test : option nat -> bool) (input : string) :
  forall rounds position,
    String.length input <= position + rounds ->
    let q := skip_rounds test input rounds position in
    (Nat.ltb q (String.length input) && test (charCodeAt input q)) = false.
Proof.
  induction rounds as [|rounds IH]; intros position Hlen; simpl.
  - replace (Nat.ltb position (String.length input)) with false; [reflexivity|].
    symmetry. apply Nat.ltb_ge. lia.
  - destruct (Nat.ltb position (String.length input)
              && test (charCodeAt input position)) eqn:E.
    + apply IH. lia.
    + exact E.
Qed.

Lemma skip_while_stops (test : option nat -> bool) (input : string)
    (position : nat) :
  let q := skip_while test input position in
  (Nat.ltb q (String.length input) && test (charCodeAt input q)) = false.
Proof. apply skip_rounds_stops. lia. Qed.

(** C2, as the code has it.  When the [URL] keyword is only partially
    present (a [U] without [R], [UR] without [L], or [URL] and optional
    whitespace without [=]) the parser goes straight to [parse] with the
    text that starts at the keyword's first letter: no quote is looked for
    and nothing is truncated. *)
Theorem partial_keyword_goes_to_parse (input : string) (p stop : nat) :
  targetPosition input = Some p ->
  partialKeyword input p stop ->
  urlString input = Some (slice input p)
  /\ forall (P : Platform) (from : URL),
       sharedDeclarativeRefresh P input from = parse P (slice input p) from.
Proof.
  intros Hp [HU Hrest].
  assert (Htext : urlString input = Some (slice input p)).
  { unfold urlString. rewrite Hp. cbv zeta.
    rewrite !letter_split, HU. cbn [negb].
    replace (S p) with (p + 1) by lia.
    replace (S (p + 1)) with (p + 2) by lia.
    replace (S (p + 2)) with (p + 3) by lia.
    destruct Hrest as [[HR _] | [[HR [HL _]] | [HR [HL [Hs He]]]]].
    - now rewrite HR.
    - now rewrite HR, HL.
    - subst stop. now rewrite HR, HL, He. }
  split; [exact Htext|].
  intros P from. unfold sharedDeclarativeRefresh. now rewrite Htext.
Qed.

Lemma partial_keyword_goes_to_parse_witness :
  urlString "0;urlang" = Some (slice "0;urlang" 2)
  /\ forall (P : Platform) (from : URL),
       sharedDeclarativeRefresh P "0;urlang" from
       = parse P (slice "0;urlang" 2) from.
Proof.
  apply (partial_keyword_goes_to_parse "0;urlang" 2 5).
  - reflexivity.
  - split; [reflexivity|]. right; right. repeat split; reflexivity.
Defined.

(** C2 as stated fails.  In [0;u'a'b] the keyword stops after its [u] and
    the text that follows starts with a quote; quote-stripping there would
    give [a], and with the consumed letter put back [ua].  The parser
    hands [u'a'b] to [parse]: the quote is not recognised and the text
    after the closing quote is kept. *)
Lemma partial_keyword_not_quote_stripped :
  targetPosition "0;u'a'b" = Some 2
  /\ partialKeyword "0;u'a'b" 2 3
  /\ skipQuotes "0;u'a'b" 3 0 = "a"
  /\ urlString "0;u'a'b" = Some "u'a'b"
  /\ urlString "0;u'a'b" <> Some (skipQuotes "0;u'a'b" 3 0)
  /\ urlString "0;u'a'b"
     <> Some (slice_to (slice "0;u'a'b" 2) 1 ++ skipQuotes "0;u'a'b" 3 0).
Proof.
  repeat split; try reflexivity; try discriminate.
  left. split; reflexivity.
Qed.

(** C9.  On a platform that resolves [/to] and [to] against the base
    [https://example.com/from] to [https://example.com/to], the parser maps
    [0;/to] to that URL, maps [;/to] to no target, and maps [0;url="to"c] to
    it as well (the text is cut at the closing quote).  Whenever the
    extracted text does not parse against the base, the parser throws the
    fatal [shared-declarative-refresh] diagnostic naming that text and the
    base. *)
Theorem refresh_examples (P : Platform) (from : URL) :
  href from = "https://example.com/from" ->
  (forall text, text = "/to" \/ text = "to" ->
     exists u, new_URL P text (Some from) = Some u
               /\ href u = "https://example.com/to") ->
  (exists u, sharedDeclarativeRefresh P "0;/to" from = Normal (Some u)
             /\ href u = "https://example.com/to")
  /\ sharedDeclarativeRefresh P ";/to" from = Normal None
  /\ urlString ("0;url=" ++ dquote ++ "to" ++ dquote ++ "c") = Some "to"
  /\ (exists u,
        sharedDeclarativeRefresh P
          ("0;url=" ++ dquote ++ "to" ++ dquote ++ "c") from
        = Normal (Some u)
        /\ href u = "https://example.com/to")
  /\ forall input text base,
       urlString input = Some text ->
       new_URL P text (Some base) = None ->
       sharedDeclarativeRefresh P input base
       = Abrupt (Message (refreshDiagnostic text base)).
Proof.
  intros _ Hres.
  destruct (Hres "/to" (or_introl eq_refl)) as [u1 [H1 E1]].
  destruct (Hres "to" (or_intror eq_refl)) as [u2 [H2 E2]].
  repeat split.
  - exists u1. split; [|exact E1].
    unfold sharedDeclarativeRefresh.
    change (urlString "0;/to") with (Some "/to").
    cbv beta iota. unfold parse. now rewrite H1.
  - exists u2. split; [|exact E2].
    unfold sharedDeclarativeRefresh.
    change (urlString ("0;url=" ++ dquote ++ "to" ++ dquote ++ "c"))
      with (Some "to").
    cbv beta iota. unfold parse. now rewrite H2.
  - intros input text base Ht Hn.
    unfold sharedDeclarativeRefresh, parse. now rewrite Ht, Hn.
Qed.

Lemma refresh_examples_witness :
  (exists u, sharedDeclarativeRefresh Example.platform "0;/to" Example.from
             = Normal (Some u)
             /\ href u = "https://example.com/to")
  /\ sharedDeclarativeRefresh Example.platform ";/to" Example.from = Normal None
  /\ urlString ("0;url=" ++ dquote ++ "to" ++ dquote ++ "c") = Some "to"
  /\ (exists u,
        sharedDeclarativeRefresh Example.platform
          ("0;url=" ++ dquote ++ "to" ++ dquote ++ "c") Example.from
        = Normal (Some u)
        /\ href u = "https://example.com/to")
  /\ forall input text base,
       urlString input = Some text ->
       new_URL Example.platform text (Some base) = None ->
       sharedDeclarativeRefresh Example.platform input base
       = Abrupt (Message (refreshDiagnostic text base)).
Proof.
  apply (refresh_examples Example.platform Example.from).
  - reflexivity.
  - intros text [E | E]; subst text; eexists; split; reflexivity.
Defined.

(* ------------------------------------------------------------------ *)
(** ** The top-level call on an input that is not a URL *)

(** C10.  When the input string does not parse as a URL, [deadOrAlive]
    returns (for any bound on the engine) without a single request: the
    result is dead, has no URL, and its only message is the error of the
    URL constructor, which is not a diagnostic of the package and so has no
    rule identifier. *)
Theorem unparsable_input_is_dead (P : Platform) (net : Network) (fuel : nat)
    (text : string) (options : option Options) :
  new_URL P text None = None ->
  exists result,
    deadOrAlive P net fuel (inl text) options = (Some result, noWorld)
    /\ Result.status result = dead
    /\ Result.url result = None
    /\ Result.messages result = [TypeError "Invalid URL"]
    /\ (forall m, ~ In (Message m) (Result.messages result))
    /\ requests noWorld = 0
    /\ events noWorld = [].
Proof.
  intros Hnone. eexists. split.
  - unfold deadOrAlive, construct. rewrite Hnone. reflexivity.
  - cbn. repeat split; try reflexivity.
    intros m [H | []]. discriminate H.
Qed.

Lemma unparsable_input_is_dead_witness :
  exists result,
    deadOrAlive Example.platform (fun _ _ => inl "unreachable") 7
      (inl "not a url") None = (Some result, noWorld)
    /\ Result.status result = dead
    /\ Result.url result = None
    /\ Result.messages result = [TypeError "Invalid URL"]
    /\ (forall m, ~ In (Message m) (Result.messages result))
    /\ requests noWorld = 0
    /\ events noWorld = [].
Proof.
  apply (unparsable_input_is_dead Example.platform
           (fun _ _ => inl "unreachable") 7 "not a url" None).
  reflexivity.
Defined.

(* ------------------------------------------------------------------ *)
(** ** The fast path of [handleTextHtml] *)

(** C6.  With URL discovery and meta-refresh-following off, and with
    anchor-checking off or no fragment on the current URL, [handleTextHtml]
    returns the response URL and leaves state and world as they were: the
    body is not read (no [BodyRead] is emitted) and nothing is parsed.  For
    an HTML response to a hop below the redirect ceiling, the hop as a whole
    adds the request to the world and nothing else. *)
Theorem fast_path_reads_no_body (P : Platform) (net : Network)
    (state : State) (w : World) (url : URL) (response : Response.t)
    (header : string) (u : URL) :
  findUrls state = false ->
  followMetaHttpEquiv state = false ->
  checkAnchor state = false \/ hash url = "" ->
  new_URL P (Response.url response) None = Some u ->
  (redirects state <= maxRedirects state)%Z ->
  net (requests w) url = inr response ->
  Response.ok response = true ->
  Response.contentType response = Some header ->
  header <> "" ->
  contentTypeOf P header = Some "text/html" ->
  handleTextHtml P state w url response = (Return u, state, w)
  /\ hop P net state w url
     = (Return u, with_retries state 0,
        mkWorld (S (requests w)) (Fetched url :: events w)).
Proof.
  intros Hfind Hmeta Hanchor Hurl Hceil Hnet Hok Hct Hne Hhtml.
  assert (Hfast : forall st, findUrls st = false ->
            followMetaHttpEquiv st = false ->
            (checkAnchor st = false \/ hash url = "") ->
            forall w', handleTextHtml P st w' url response = (Return u, st, w')).
  { intros st Hf Hm Ha w'. unfold handleTextHtml. rewrite Hf, Hm.
    replace (checkAnchor st && truthy_string (hash url)) with false.
    - cbn. unfold construct. now rewrite Hurl.
    - destruct Ha as [Ha | Ha]; rewrite Ha; [reflexivity|].
      now rewrite andb_false_r. }
  split; [now apply Hfast|].
  unfold hop.
  replace (maxRedirects state <? redirects state)%Z with false
    by (symmetry; apply Z.ltb_ge; exact Hceil).
  rewrite Hnet.
  pose proof Hok as Hrange.
  unfold Response.ok in Hrange. apply andb_true_iff in Hrange.
  destruct Hrange as [Hlo Hhi]. apply Z.leb_le in Hlo, Hhi.
  replace (300 <=? Response.status response)%Z with false
    by (symmetry; apply Z.leb_gt; lia).
  cbn [andb]. unfold respond. rewrite Hok. cbn [negb]. rewrite Hct.
  replace (truthy_string header) with true.
  - rewrite Hhtml.
    change ("text/html" =? "text/html")%string with true. cbv iota.
    now apply Hfast.
  - unfold truthy_string. destruct header; [contradiction|reflexivity].
Qed.

Lemma fast_path_reads_no_body_witness :
  handleTextHtml Example.platform Example.fastState noWorld Example.hiUrl
    Example.homePage
  = (Return Example.home, Example.fastState, noWorld)
  /\ hop Example.platform (fun _ _ => inr Example.homePage) Example.fastState
       noWorld Example.hiUrl
     = (Return Example.home, with_retries Example.fastState 0,
        mkWorld (S (requests noWorld))
          (Fetched Example.hiUrl :: events noWorld)).
Proof.
  apply (fast_path_reads_no_body Example.platform
           (fun _ _ => inr Example.homePage) Example.fastState noWorld
           Example.hiUrl Example.homePage "text/html" Example.home).
  - reflexivity.
  - reflexivity.
  - left. reflexivity.
  - reflexivity.
  - cbn. lia.
  - reflexivity.
  - reflexivity.
  - reflexivity.
  - discriminate.
  - reflexivity.
Defined.

(* ------------------------------------------------------------------ *)
(** ** The anchor index *)

Lemma map_get_set (map : AnchorMap) (key : string) (anchor : Anchor)
    (f : string) :
  map_get (map_set map key anchor) f
  = if String.eqb key f then Some anchor else map_get map f.
Proof.
  induction map as [|[k a] rest IH]; simpl.
  - reflexivity.
  - destruct (String.eqb k key) eqn:Ek; simpl.
    + apply String.eqb_eq in Ek. subst k.
      destruct (String.eqb key f); reflexivity.
    + rewrite IH. destruct (String.eqb k f) eqn:Ef; [|reflexivity].
      apply String.eqb_eq in Ef. subst f. now rewrite String.eqb_sym, Ek.
Qed.

Lemma assign_has_owner (anchor : Anchor) (kind : AnchorKind)
    (type : AnchorType) (node : Node) (key : string) (rest : AnchorMap) :
  found ((key, assign anchor kind type node) :: rest) key = true.
Proof.
  unfold found, anchorNode. simpl. rewrite String.eqb_refl.
  destruct anchor as [a b c d], kind, type, a, b, c, d; reflexivity.
Qed.

Lemma found_set (rcp : bool) (map : AnchorMap) (type : AnchorType)
    (value : string) (node : Node) (f : string) :
  found (set rcp map type value node) f
  = String.eqb (fst (recordedAs rcp value)) f || found map f.
Proof.
  unfold set. destruct (recordedAs rcp value) as [key kind]. simpl fst.
  unfold found, anchorNode. rewrite map_get_set.
  destruct (String.eqb key f) eqn:E; [|reflexivity].
  destruct (map_get map key) as [[a b c d]|], kind, type;
    try destruct a; try destruct b; try destruct c; try destruct d;
    reflexivity.
Qed.

Lemma found_visit (rcp : bool) (map : AnchorMap) (node : Node) (f : string) :
  found (visitAnchor rcp map node) f = owns rcp node f || found map f.
Proof.
  unfold visitAnchor, owns.
  destruct (truthy (property (properties node) "id"));
    destruct (String.eqb (tagName node) "a"
              && truthy (property (properties node) "name")) eqn:E;
    rewrite ?found_set; cbn [andb orb];
    try reflexivity.
  - destruct (String.eqb (fst (recordedAs rcp
               (String_ (property (properties node) "id")))) f);
      destruct (String.eqb (fst (recordedAs rcp
               (String_ (property (properties node) "name")))) f);
      reflexivity.
  - now rewrite orb_false_r.
Qed.

Lemma found_fold (rcp : bool) (nodes : list Node) (f : string) :
  forall map,
    found (fold_left (visitAnchor rcp) nodes map) f
    = existsb (fun node => owns rcp node f) nodes || found map f.
Proof.
  induction nodes as [|node rest IH]; intros map; simpl.
  - reflexivity.
  - rewrite IH, found_visit.
    destruct (owns rcp node f), (found map f),
      (existsb (fun node0 => owns rcp node0 f) rest); reflexivity.
Qed.

(** The lookup succeeds exactly when some element of the tree is recorded
    under the fragment. *)
Lemma found_getAnchors (tree : Root) (rcp : bool) (f : string) :
  found (getAnchors tree rcp) f
  = existsb (fun node => owns rcp node f) (elementsOf tree).
Proof.
  unfold getAnchors. rewrite found_fold. unfold found. simpl.
  now rewrite orb_false_r.
Qed.

Lemma recordedAs_plain (rcp : bool) (f : string) :
  rcp = false \/ String.prefix clobberPrefix f = false ->
  recordedAs rcp f = (f, system).
Proof.
  unfold recordedAs. intros [H | H]; rewrite H; [|reflexivity].
  now rewrite andb_false_r.
Qed.

Lemma recordedAs_clobbered (f : string) :
  recordedAs true (clobberPrefix ++ f) = (f, user).
Proof.
  unfold recordedAs.
  replace (String.prefix clobberPrefix (clobberPrefix ++ f)) with true.
  - unfold clobberPrefix. reflexivity.
  - symmetry. unfold clobberPrefix. cbn.
    repeat (match goal with
            | |- context [ascii_dec ?a ?a] =>
                destruct (ascii_dec a a); [|congruence]
            end).
    destruct f; reflexivity.
Qed.

Lemma truthy_nonempty (f : string) : f <> "" -> truthy_string f = true.
Proof. destruct f; [contradiction|reflexivity]. Qed.

(** C7, as the code has it.  Within any tree:
    - an element with [id] equal to a non-empty [f] makes the lookup for [f]
      succeed, unless the prefix is resolved and [f] itself starts with
      [user-content-];
    - an element with [id] equal to [user-content-] followed by [f] makes
      the lookup for [f] succeed when the prefix is resolved; when it is
      not, the element is recorded under the whole [id], and the lookup for
      [f] fails if no element is recorded under [f];
    - an [a] element with [name] equal to [f] behaves like the element with
      that [id], in both forms. *)
Theorem anchor_lookup (tree : Root) (rcp : bool) (f : string) (node : Node) :
  In node (elementsOf tree) ->
  (property (properties node) "id" = Some (Single (Str f)) ->
   f <> "" ->
   rcp = false \/ String.prefix clobberPrefix f = false ->
   found (getAnchors tree rcp) f = true)
  /\ (property (properties node) "id"
      = Some (Single (Str (clobberPrefix ++ f))) ->
      rcp = true ->
      found (getAnchors tree rcp) f = true)
  /\ (property (properties node) "id"
      = Some (Single (Str (clobberPrefix ++ f))) ->
      rcp = false ->
      found (getAnchors tree rcp) (clobberPrefix ++ f) = true
      /\ ((forall other, In other (elementsOf tree) ->
             owns false other f = false) ->
          found (getAnchors tree rcp) f = false))
  /\ (tagName node = "a" ->
      property (properties node) "name" = Some (Single (Str f)) ->
      f <> "" ->
      rcp = false \/ String.prefix clobberPrefix f = false ->
      found (getAnchors tree rcp) f = true)
  /\ (tagName node = "a" ->
      property (properties node) "name"
      = Some (Single (Str (clobberPrefix ++ f))) ->
      rcp = true ->
      found (getAnchors tree rcp) f = true).
Proof.
  intros Hin. rewrite !found_getAnchors.
  split; [|split; [|split; [|split]]].
  - intros Hid Hne Hplain. apply existsb_exists. exists node. split; [exact Hin|].
    unfold owns. rewrite Hid. cbn [truthy String_ String_scalar].
    rewrite (truthy_nonempty f Hne), (recordedAs_plain rcp f Hplain).
    cbn [fst andb]. now rewrite String.eqb_refl.
  - intros Hid Hrcp. subst rcp. apply existsb_exists. exists node.
    split; [exact Hin|].
    unfold owns. rewrite Hid. cbn [truthy String_ String_scalar].
    rewrite recordedAs_clobbered. cbn [fst].
    rewrite String.eqb_refl. reflexivity.
  - intros Hid Hrcp. subst rcp. split.
    + apply existsb_exists. exists node. split; [exact Hin|].
      unfold owns. rewrite Hid. cbn [truthy String_ String_scalar].
      rewrite (recordedAs_plain false _ (or_introl eq_refl)). cbn [fst].
      rewrite String.eqb_refl. reflexivity.
    + intros Hnone.
      destruct (existsb (fun n => owns false n f) (elementsOf tree)) eqn:E;
        [|reflexivity].
      apply existsb_exists in E. destruct E as [other [Ho Hown]].
      now rewrite (Hnone other Ho) in Hown.
  - intros Htag Hname Hne Hplain. apply existsb_exists. exists node.
    split; [exact Hin|].
    unfold owns. rewrite Htag, Hname. cbn [truthy String_ String_scalar].
    rewrite (truthy_nonempty f Hne), (recordedAs_plain rcp f Hplain).
    cbn [fst]. rewrite !String.eqb_refl. cbn [andb]. apply orb_true_r.
  - intros Htag Hname Hrcp. subst rcp. apply existsb_exists. exists node.
    split; [exact Hin|].
    unfold owns. rewrite Htag, Hname. cbn [truthy String_ String_scalar].
    rewrite recordedAs_clobbered. cbn [fst].
    rewrite !String.eqb_refl. cbn [andb]. apply orb_true_r.
Qed.

Lemma anchor_lookup_witness :
  found (getAnchors [Example.h1 "hi"] true) "hi" = true
  /\ found (getAnchors [Example.h1 "user-content-hi"] true) "hi" = true
  /\ (found (getAnchors [Example.h1 "user-content-hi"] false) "user-content-hi"
      = true
      /\ found (getAnchors [Example.h1 "user-content-hi"] false) "hi" = false)
  /\ found (getAnchors [Example.a_name "hi"] true) "hi" = true
  /\ found (getAnchors [Example.a_name "user-content-hi"] true) "hi" = true.
Proof.
  split; [|split; [|split; [|split]]].
  - apply (proj1 (anchor_lookup [Example.h1 "hi"] true "hi"
                    (Example.h1 "hi") (or_introl eq_refl)));
      [reflexivity | discriminate | right; reflexivity].
  - apply (proj1 (proj2 (anchor_lookup [Example.h1 "user-content-hi"] true "hi"
                    (Example.h1 "user-content-hi") (or_introl eq_refl))));
      reflexivity.
  - destruct (proj1 (proj2 (proj2 (anchor_lookup [Example.h1 "user-content-hi"]
                       false "hi" (Example.h1 "user-content-hi")
                       (or_introl eq_refl)))) eq_refl eq_refl) as [Hraw Hnone].
    split; [exact Hraw|]. apply Hnone.
    intros other [E | []]. subst other. reflexivity.
  - apply (proj1 (proj2 (proj2 (proj2 (anchor_lookup [Example.a_name "hi"]
                    true "hi" (Example.a_name "hi") (or_introl eq_refl))))));
      [reflexivity | reflexivity | discriminate | right; reflexivity].
  - apply (proj2 (proj2 (proj2 (proj2 (anchor_lookup
                    [Example.a_name "user-content-hi"] true "hi"
                    (Example.a_name "user-content-hi") (or_introl eq_refl))))));
      reflexivity.
Defined.

(** C7 as stated fails for a fragment that itself starts with
    [user-content-]: with the prefix resolved (the default), an element
    whose [id] is [user-content-x] is recorded under [x] only, and the
    lookup for [user-content-x] finds nothing. *)
Lemma prefixed_id_not_found_under_own_name :
  In (Example.h1 "user-content-x") (elementsOf [Example.h1 "user-content-x"])
  /\ property (properties (Example.h1 "user-content-x")) "id"
     = Some (Single (Str "user-content-x"))
  /\ getAnchors [Example.h1 "user-content-x"] true
     = [("x", mkAnchor None None (Some (Example.h1 "user-content-x")) None)]
  /\ found (getAnchors [Example.h1 "user-content-x"] true) "user-content-x"
     = false.
Proof.
  split; [left; reflexivity|]. split; [reflexivity|].
  split; reflexivity.
Qed.

(* ------------------------------------------------------------------ *)
(** ** The suggestion engine *)

Section Propose.

Variable P : Platform.
Variable value : string.
Hypothesis value_not_empty : value <> "".

Lemma score_finite (d : string) :
  score P value d = (d, Finite (normalized P value d)).
Proof.
  unfold score, normalized, divide.
  destruct value as [|c rest]; [contradiction|]. reflexivity.
Qed.

Lemma insert_score (x : string) (l : list string) :
  insert (score P value x) (List.map (score P value) l)
  = List.map (score P value) (insertByKey (normalized P value) x l).
Proof.
  induction l as [|y rest IH]; simpl.
  - reflexivity.
  - unfold sort_negative at 1. rewrite !score_finite. cbn [snd].
    rewrite <- !score_finite.
    destruct (Qlt_le_dec (normalized P value y) (normalized P value x)); simpl;
      [now rewrite IH|reflexivity].
Qed.

Lemma sort_score (l : list string) :
  sort (List.map (score P value) l)
  = List.map (score P value) (sortByKey (normalized P value) l).
Proof.
  unfold sort, sortByKey.
  induction l as [|x rest IH]; simpl; [reflexivity|].
  rewrite IH. apply insert_score.
Qed.

(** The pipeline of [propose], read on the candidates themselves. *)
Lemma propose_by_key (ideas : list string) :
  propose P value ideas
  = firstn max
      (List.filter (closeEnough P value)
         (sortByKey (normalized P value) ideas)).
Proof.
  unfold propose. f_equal. rewrite sort_score.
  induction (sortByKey (normalized P value) ideas) as [|d rest IH]; simpl;
    [reflexivity|].
  unfold filter_ at 1, closeEnough at 1. rewrite score_finite. cbn [snd].
  destruct (Qlt_le_dec (normalized P value d) relativeThreshold); simpl;
    now rewrite IH.
Qed.

End Propose.

Section SortByKey.

Variable key : string -> Q.

Lemma insertByKey_perm (x : string) (l : list string) :
  Permutation (insertByKey key x l) (x :: l).
Proof.
  induction l as [|y rest IH]; simpl.
  - apply Permutation_refl.
  - destruct (Qlt_le_dec (key y) (key x)).
    + eapply perm_trans; [apply perm_skip, IH | apply perm_swap].
    + apply Permutation_refl.
Qed.

Lemma sortByKey_perm (l : list string) : Permutation (sortByKey key l) l.
Proof.
  induction l as [|x rest IH]; simpl; [apply perm_nil|].
  eapply perm_trans; [apply insertByKey_perm | apply perm_skip, IH].
Qed.

Lemma insertByKey_sorted (x : string) (l : list string) :
  StronglySorted (ascending key) l -> StronglySorted (ascending key) (insertByKey key x l).
Proof.
  induction l as [|y rest IH]; intros Hs; simpl.
  - constructor; constructor.
  - inversion Hs as [|? ? Hrest Hall]; subst.
    destruct (Qlt_le_dec (key y) (key x)) as [Hlt | Hle].
    + constructor; [now apply IH|].
      apply (Permutation_Forall (Permutation_sym (insertByKey_perm x rest))).
      constructor; [now apply Qlt_le_weak | exact Hall].
    + constructor; [exact Hs|].
      constructor; [exact Hle|].
      eapply Forall_impl; [|exact Hall].
      intros z Hz. unfold ascending in *. eapply Qle_trans; eassumption.
Qed.

Lemma sortByKey_sorted (l : list string) :
  StronglySorted (ascending key) (sortByKey key l).
Proof.
  induction l as [|x rest IH]; simpl; [constructor|].
  now apply insertByKey_sorted.
Qed.

Lemma insertByKey_tied (q : Q) (x : string) (l : list string) :
  List.filter (tied key q) (insertByKey key x l)
  = if tied key q x then x :: List.filter (tied key q) l else List.filter (tied key q) l.
Proof.
  induction l as [|y rest IH]; simpl.
  - reflexivity.
  - destruct (Qlt_le_dec (key y) (key x)) as [Hlt | Hle]; simpl.
    + rewrite IH. destruct (tied key q x) eqn:Ex; [|reflexivity].
      replace (tied key q y) with false; [reflexivity|].
      symmetry. apply not_true_is_false. intros Ey.
      unfold tied in Ex, Ey. apply Qeq_bool_iff in Ex, Ey.
      apply (Qlt_not_eq _ _ Hlt). now rewrite Ex, Ey.
    + reflexivity.
Qed.

(** The sort is stable: candidates with equal keys keep their order. *)
Lemma sortByKey_stable (q : Q) (l : list string) :
  List.filter (tied key q) (sortByKey key l) = List.filter (tied key q) l.
Proof.
  induction l as [|x rest IH]; simpl; [reflexivity|].
  rewrite insertByKey_tied, IH. reflexivity.
Qed.

End SortByKey.

Section ListFacts.

Context {A : Type}.

Lemma StronglySorted_filter (R : A -> A -> Prop) (f : A -> bool) (l : list A) :
  StronglySorted R l -> StronglySorted R (List.filter f l).
Proof.
  induction 1 as [|x rest Hs IH Hall]; simpl; [constructor|].
  destruct (f x); [|exact IH].
  constructor; [exact IH|].
  apply Forall_forall. intros y Hy. apply filter_In in Hy.
  rewrite Forall_forall in Hall. now apply Hall.
Qed.

Lemma StronglySorted_firstn (R : A -> A -> Prop) (n : nat) (l : list A) :
  StronglySorted R l -> StronglySorted R (firstn n l).
Proof.
  intros Hs. revert n.
  induction Hs as [|x rest Hs IH Hall]; intros [|n]; simpl; try constructor.
  - apply IH.
  - apply Forall_forall. intros y Hy.
    rewrite Forall_forall in Hall. apply Hall.
    rewrite <- (firstn_skipn n rest). apply in_or_app. now left.
Qed.

Lemma In_firstn (n : nat) (l : list A) (x : A) : In x (firstn n l) -> In x l.
Proof.
  intros H. rewrite <- (firstn_skipn n l). apply in_or_app. now left.
Qed.

(** Filtering a prefix gives a prefix of the filtered list. *)
Lemma filter_firstn (f : A -> bool) (l : list A) :
  forall k, exists n,
    List.filter f (firstn k l) = firstn n (List.filter f l).
Proof.
  induction l as [|x rest IH]; intros [|k]; simpl;
    try (exists 0; reflexivity).
  destruct (IH k) as [n Hn]. destruct (f x).
  - exists (S n). simpl. now rewrite Hn.
  - exists n. exact Hn.
Qed.

Lemma filter_swap (f g : A -> bool) (l : list A) :
  List.filter f (List.filter g l) = List.filter g (List.filter f l).
Proof.
  induction l as [|x rest IH]; simpl; [reflexivity|].
  destruct (f x) eqn:Ef, (g x) eqn:Eg; simpl; rewrite ?Ef, ?Eg, IH; reflexivity.
Qed.

Lemma filter_constant (f : A -> bool) (b : bool) (l : list A) :
  (forall x, In x l -> f x = b) ->
  List.filter f l = if b then l else [].
Proof.
  induction l as [|x rest IH]; intros H; simpl.
  - now destruct b.
  - rewrite (H x (or_introl eq_refl)).
    rewrite IH by (intros y Hy; apply H; now right).
    now destruct b.
Qed.

End ListFacts.

Lemma closeEnough_tied (P : Platform) (value : string) (q : Q) (d : string) :
  tied (normalized P value) q d = true ->
  closeEnough P value d
  = if Qlt_le_dec q relativeThreshold then true else false.
Proof.
  unfold tied, closeEnough. intros E. apply Qeq_bool_iff in E.
  destruct (Qlt_le_dec (normalized P value d) relativeThreshold) as [H1 | H1],
           (Qlt_le_dec q relativeThreshold) as [H2 | H2];
    try reflexivity; exfalso.
  - rewrite E in H1. exact (Qle_not_lt _ _ H2 H1).
  - rewrite E in H1. exact (Qle_not_lt _ _ H1 H2).
Qed.

Lemma StronglySorted_app {A : Type} (R : A -> A -> Prop) (l1 l2 : list A) :
  StronglySorted R (l1 ++ l2)%list ->
  forall x y, In x l1 -> In y l2 -> R x y.
Proof.
  induction l1 as [|a l1 IH]; intros Hs x y Hx Hy; [destruct Hx|].
  cbn in Hs. inversion Hs as [|? ? Hrest Hall]; subst.
  destruct Hx as [-> | Hx].
  - rewrite Forall_forall in Hall. apply Hall, in_or_app. now right.
  - exact (IH Hrest x y Hx Hy).
Qed.

Lemma Permutation_filter_length {A : Type} (f : A -> bool) (l l' : list A) :
  Permutation l l' -> length (List.filter f l) = length (List.filter f l').
Proof.
  induction 1 as [|x l l' Hp IH|x y l|l l' l'' H1 IH1 H2 IH2]; simpl.
  - reflexivity.
  - destruct (f x); simpl; now rewrite IH.
  - destruct (f x), (f y); reflexivity.
  - now rewrite IH1.
Qed.

(** C8.  For a non-empty target, [propose] returns the first 4 (or all, when
    there are fewer) of the candidates at a normalized distance strictly
    below one half, in ascending order of that distance, candidates at
    equal distance in the order in which they were given: as many as pass
    the threshold, capped at 4; each below the threshold; sorted; those
    returned at a given distance are the first ones given at that distance;
    a candidate below the threshold that is left out is at least as far as
    every one returned.  It returns nothing exactly when no candidate is
    below the threshold, in particular when there is none. *)
Theorem propose_spec (P : Platform) (value : string) (ideas : list string) :
  value <> "" ->
  length (propose P value ideas) <= 4
  /\ length (propose P value ideas)
     = Nat.min 4 (length (List.filter (closeEnough P value) ideas))
  /\ incl (propose P value ideas) ideas
  /\ Forall (fun d => (normalized P value d < 1 # 2)%Q) (propose P value ideas)
  /\ StronglySorted (ascending (normalized P value)) (propose P value ideas)
  /\ (forall q, exists n,
        List.filter (tied (normalized P value) q) (propose P value ideas)
        = firstn n (List.filter (tied (normalized P value) q) ideas))
  /\ (forall d r,
        In d ideas -> (normalized P value d < 1 # 2)%Q ->
        ~ In d (propose P value ideas) ->
        In r (propose P value ideas) ->
        (normalized P value r <= normalized P value d)%Q)
  /\ (propose P value ideas = []
      <-> forall d, In d ideas -> ~ (normalized P value d < 1 # 2)%Q)
  /\ propose P value [] = []
  /\ propose P value ideas
     = firstn 4 (List.filter (closeEnough P value)
                   (sortByKey (normalized P value) ideas)).
Proof.
  intros Hne.
  assert (Hclose : forall d, closeEnough P value d = true
                             <-> (normalized P value d < 1 # 2)%Q).
  { intros d. unfold closeEnough.
    destruct (Qlt_le_dec (normalized P value d) relativeThreshold) as [H | H].
    - split; [intros _; exact H | reflexivity].
    - split; [discriminate|]. intros H'. exfalso.
      exact (Qle_not_lt _ _ H H'). }
  assert (Hnone : (forall d, In d ideas -> ~ (normalized P value d < 1 # 2)%Q)
                  -> List.filter (closeEnough P value) ideas = []).
  { intros Hno. induction ideas as [|x rest IH]; [reflexivity|]. cbn.
    destruct (closeEnough P value x) eqn:E.
    - apply Hclose in E. destruct (Hno x (or_introl eq_refl) E).
    - apply IH. intros d Hd. apply Hno. now right. }
  assert (Hcount : length (propose P value ideas)
                   = Nat.min 4 (length (List.filter (closeEnough P value)
                                          ideas))).
  { rewrite (propose_by_key P value Hne), length_firstn.
    now rewrite (Permutation_filter_length _ _ _ (sortByKey_perm _ ideas)). }
  split; [|split; [exact Hcount|]].
  { rewrite Hcount. apply Nat.le_min_l. }
  rewrite (propose_by_key P value Hne).
  split; [|split; [|split; [|split; [|split; [|split; [|split]]]]]].
  - intros d Hd. apply In_firstn in Hd. apply filter_In in Hd.
    destruct Hd as [Hd _].
    exact (Permutation_in d (sortByKey_perm _ ideas) Hd).
  - apply Forall_forall. intros d Hd. apply In_firstn in Hd.
    apply filter_In in Hd. destruct Hd as [_ Hd]. now apply Hclose.
  - apply StronglySorted_firstn, StronglySorted_filter, sortByKey_sorted.
  - intros q.
    destruct (filter_firstn (tied (normalized P value) q)
                (List.filter (closeEnough P value)
                   (sortByKey (normalized P value) ideas)) max) as [n Hn].
    rewrite Hn, filter_swap, sortByKey_stable.
    rewrite (filter_constant (closeEnough P value)
               (if Qlt_le_dec q relativeThreshold then true else false)).
    + destruct (Qlt_le_dec q relativeThreshold); [now exists n|].
      exists 0. now destruct n.
    + intros d Hd. apply filter_In in Hd. now apply closeEnough_tied.
  - intros d r Hd Hlt Hout Hr.
    set (L := List.filter (closeEnough P value)
                (sortByKey (normalized P value) ideas)) in *.
    assert (HdL : In d L).
    { apply filter_In. split; [|now apply Hclose].
      exact (Permutation_in d (Permutation_sym (sortByKey_perm _ ideas)) Hd). }
    rewrite <- (firstn_skipn 4 L) in HdL.
    apply in_app_or in HdL. destruct HdL as [HdL | HdL]; [contradiction|].
    apply (StronglySorted_app (ascending (normalized P value))
             (firstn 4 L) (skipn 4 L)); try assumption.
    rewrite firstn_skipn.
    apply StronglySorted_filter, sortByKey_sorted.
  - rewrite <- (propose_by_key P value Hne). split.
    + intros Hempty d Hd Hlt.
      rewrite Hempty in Hcount. cbn [length] in Hcount.
      assert (Hin : In d (List.filter (closeEnough P value) ideas))
        by (apply filter_In; split; [exact Hd | now apply Hclose]).
      destruct (List.filter (closeEnough P value) ideas);
        [destruct Hin | discriminate Hcount].
    + intros Hno. apply length_zero_iff_nil.
      now rewrite Hcount, (Hnone Hno).
  - reflexivity.
  - reflexivity.
Qed.

Lemma propose_spec_witness :
  length (propose Example.platform "hello" Example.candidates) <= 4
  /\ length (propose Example.platform "hello"
               Example.candidates)
     = Nat.min 4
         (length (List.filter (closeEnough Example.platform "hello")
                    Example.candidates))
  /\ incl (propose Example.platform "hello" Example.candidates)
       Example.candidates
  /\ Forall (fun d => (normalized Example.platform "hello" d < 1 # 2)%Q)
       (propose Example.platform "hello" Example.candidates)
  /\ StronglySorted (ascending (normalized Example.platform "hello"))
       (propose Example.platform "hello" Example.candidates)
  /\ (forall q, exists n,
        List.filter (tied (normalized Example.platform "hello") q)
          (propose Example.platform "hello" Example.candidates)
        = firstn n
            (List.filter (tied (normalized Example.platform "hello") q)
               Example.candidates))
  /\ (forall d r,
        In d Example.candidates ->
        (normalized Example.platform "hello" d < 1 # 2)%Q ->
        ~ In d (propose Example.platform "hello"
                  Example.candidates) ->
        In r (propose Example.platform "hello"
                Example.candidates) ->
        (normalized Example.platform "hello" r
         <= normalized Example.platform "hello" d)%Q)
  /\ (propose Example.platform "hello" Example.candidates = []
      <-> forall d, In d Example.candidates ->
            ~ (normalized Example.platform "hello" d < 1 # 2)%Q)
  /\ propose Example.platform "hello" [] = []
  /\ propose Example.platform "hello" Example.candidates
     = firstn 4
         (List.filter (closeEnough Example.platform "hello")
            (sortByKey (normalized Example.platform "hello")
               Example.candidates)).
Proof.
  apply (propose_spec Example.platform "hello"
           Example.candidates).
  discriminate.
Defined.

(** On the witness input: [hello] is at distance 0, [hallo], [hell],
    [hullo] and [jello] at distance 1, [help] at distance 2, [world] at
    distance 4.  The first four in this order are returned: [jello] and
    [help] pass the threshold and are left out, [world] does not pass. *)
Example propose_capped :
  propose Example.platform "hello" Example.candidates
  = ["hello"; "hallo"; "hell"; "hullo"].
Proof. reflexivity. Qed.

(** With fewer than four below the threshold: [hallo] and [hell] are at
    distance 1, [help] at distance 2, [world] at distance 4 and so
    dropped. *)
Example propose_hello :
  propose Example.platform "hello" ["help"; "world"; "hallo"; "hell"]
  = ["hallo"; "hell"; "help"].
Proof. reflexivity. Qed.

(* ------------------------------------------------------------------ *)
(** ** The engine: what a hop does to [permanent] *)

Ltac split_result H :=
  repeat match type of H with
         | context [match ?x with _ => _ end] => destruct x eqn:?
         end;
  inversion H; subst; clear H.

Lemma retry_effect (state : State) (w : World) (url : URL) s state' w' :
  retry state w url = (s, state', w') -> hopEffect state w state' w'.
Proof.
  unfold retry. intros H. inversion H; subst. left. split; reflexivity.
Qed.

Lemma handleUnknown_effect (P : Platform) (state : State) (w : World)
    (url : URL) response contentType s state' w' :
  handleUnknown P state w url response contentType = (s, state', w') ->
  hopEffect state w state' w'.
Proof.
  unfold handleUnknown. intros H. split_result H; left; split; reflexivity.
Qed.

Lemma checkFragment_effect (P : Platform) (state : State) (w : World)
    (url : URL) response tree s state' w' :
  checkFragment P state w url response tree = (s, state', w') ->
  hopEffect state w state' w'.
Proof.
  unfold checkFragment. intros H. split_result H; left; split; reflexivity.
Qed.

Lemma inspectHtml_effect (P : Platform) (state : State) (w : World)
    (url : URL) response tree s state' w' :
  inspectHtml P state w url response tree = (s, state', w') ->
  hopEffect state w state' w'.
Proof.
  assert (Hafter : forall st, permanent st = permanent state ->
            forall s0 st0 w0,
              (let state := if findUrls st
                            then with_urls st (Some (findUrls_ P url tree))
                            else st in
               if checkAnchor state && truthy_string (hash url)
               then checkFragment P state w url response tree
               else match construct P (Response.url response ++ hash url) None with
                    | Normal u => (Return u, state, w)
                    | Abrupt e => (Throw e, state, w)
                    end) = (s0, st0, w0) ->
              hopEffect state w st0 w0).
  { intros st Hst s0 st0 w0 H. cbv zeta in H.
    destruct (checkAnchor (if findUrls st
                           then with_urls st (Some (findUrls_ P url tree))
                           else st) && truthy_string (hash url)).
    - apply checkFragment_effect in H.
      destruct H as [[Hp Hh] | [[x [Hh Hp]] | [Hh Hp]]].
      + left. split; [|exact Hh]. rewrite Hp, <- Hst.
        now destruct (findUrls st).
      + right; left. exists x. split; [exact Hh|]. rewrite Hp.
        replace (permanent (if findUrls st
                            then with_urls st (Some (findUrls_ P url tree))
                            else st)) with (permanent state)
          by (rewrite <- Hst; now destruct (findUrls st)).
        reflexivity.
      + right; right. now split.
    - split_result H; left; (split; [|reflexivity]); cbn; congruence. }
  unfold inspectHtml. intros H.
  destruct (followMetaHttpEquiv state); [|now apply (Hafter state eq_refl) in H].
  match type of H with
  | context [match ?r with Normal _ => _ | Abrupt _ => _ end] =>
      destruct r as [[redirect|]|e] eqn:Er
  end.
  - inversion H; subst. right; right. split; reflexivity.
  - now apply (Hafter state eq_refl) in H.
  - inversion H; subst. left. split; reflexivity.
Qed.

Lemma handleTextHtml_effect (P : Platform) (state : State) (w : World)
    (url : URL) response s state' w' :
  handleTextHtml P state w url response = (s, state', w') ->
  hopEffect state w state' w'.
Proof.
  unfold handleTextHtml. intros H.
  destruct (negb (checkAnchor state && truthy_string (hash url)
                  || findUrls state || followMetaHttpEquiv state)).
  - split_result H; left; split; reflexivity.
  - apply inspectHtml_effect in H. exact H.
Qed.

Lemma respond_effect (P : Platform) (state : State) (w : World)
    (url : URL) response s state' w' :
  respond P state w url response = (s, state', w') ->
  hopEffect state w state' w'.
Proof.
  unfold respond. intros H.
  destruct (negb (Response.ok response)).
  - destruct ((retries state <? maxRetries state)%Z
              && ((Response.status response <? 400)%Z
                  || (500 <=? Response.status response)%Z)).
    + now apply retry_effect in H.
    + inversion H; subst. left. split; reflexivity.
  - destruct (match Response.contentType response with
              | Some c => if truthy_string c then Some c else None
              | None => None
              end) as [c|] eqn:Ec.
    + destruct (contentTypeOf P c) as [type|].
      * destruct (String.eqb type "text/html").
        -- now apply handleTextHtml_effect in H.
        -- now apply handleUnknown_effect in H.
      * inversion H; subst. left. split; reflexivity.
    + now apply handleUnknown_effect in H.
Qed.

Lemma hop_effect (P : Platform) (net : Network) (state : State) (w : World)
    (url : URL) s state' w' :
  hop P net state w url = (s, state', w') -> hopEffect state w state' w'.
Proof.
  unfold hop. intros H.
  destruct (maxRedirects state <? redirects state)%Z.
  { inversion H; subst. left. split; reflexivity. }
  destruct (net (requests w) url) as [error | response].
  { destruct (retries state <? maxRetries state)%Z.
    - apply retry_effect in H. exact H.
    - inversion H; subst. left. split; reflexivity. }
  cbv zeta in H.
  match type of H with
  | context [match ?l with Some _ => _ | None => _ end] =>
      destruct l as [location|] eqn:El
  end.
  - destruct (construct P location (Some url)) as [redirect|e].
    + change (permanent (with_retries state 0)) with (permanent state) in H.
      right; left. exists (Response.status response). cbn [permanentHop].
      destruct ((Response.status response =? 301)%Z
                || (Response.status response =? 308)%Z);
        destruct (permanent state) eqn:Ep;
        destruct (truthy_string (hash url));
        inversion H; subst;
        (split;
         [reflexivity
         | cbn [permanent with_redirects push with_messages with_permanent
                with_retries];
           rewrite ?Ep; reflexivity]).
    + inversion H; subst. left. split; reflexivity.
  - apply respond_effect in H. exact H.
Qed.

Lemma effect_verdict (state : State) (w : World) (state' : State) (w' : World) :
  hopEffect state w state' w' ->
  permanent state = verdict (hopsIn w) ->
  permanent state' = verdict (hopsIn w').
Proof.
  intros [[Hp Hh] | [[status [Hh Hp]] | [Hh Hp]]] Hinv.
  - now rewrite Hp, Hh.
  - rewrite Hp, Hh, Hinv. cbn [verdict forallb].
    destruct (permanentHop (Redirected status)); [|reflexivity].
    destruct (hopsIn w); reflexivity.
  - rewrite Hp, Hh. reflexivity.
Qed.

Lemma effect_stays_false (state : State) (w : World) (state' : State)
    (w' : World) :
  hopEffect state w state' w' ->
  permanent state = Some false ->
  permanent state' = Some false.
Proof.
  intros [[Hp Hh] | [[status [Hh Hp]] | [Hh Hp]]] Hfalse.
  - now rewrite Hp.
  - rewrite Hp, Hfalse. now destruct (permanentHop (Redirected status)).
  - exact Hp.
Qed.

(** An invariant of single activations is an invariant of the run. *)
Lemma run_invariant (P : Platform) (net : Network)
    (Inv : State -> World -> Prop) :
  (forall state w state' w', hopEffect state w state' w' ->
     Inv state w -> Inv state' w') ->
  forall fuel state w url s state' w',
    deadOrAliveInternal P net fuel state w url = (s, state', w') ->
    Inv state w -> Inv state' w'.
Proof.
  intros Hstep. induction fuel as [|fuel IH]; intros state w url s state' w' H Hinv.
  - simpl in H. inversion H; subst. exact Hinv.
  - simpl in H. destruct (hop P net state w url) as [[s1 st1] w1] eqn:Eh.
    pose proof (Hstep _ _ _ _ (hop_effect _ _ _ _ _ _ _ _ Eh) Hinv) as Hinv1.
    destruct s1.
    + inversion H; subst. exact Hinv1.
    + inversion H; subst. exact Hinv1.
    + exact (IH _ _ _ _ _ _ H Hinv1).
Qed.

Lemma permanentHop_true (e : Event) :
  permanentHop e = true
  <-> exists status, e = Redirected status /\ (status = 301 \/ status = 308)%Z.
Proof.
  split.
  - destruct e; cbn; try discriminate. intros H.
    exists status. split; [reflexivity|].
    apply orb_true_iff in H. destruct H as [H | H]; apply Z.eqb_eq in H; auto.
  - intros [status [-> H]]. cbn. apply orb_true_iff.
    destruct H as [H | H]; [left | right]; now apply Z.eqb_eq.
Qed.

Lemma hopsIn_are_hops (w : World) (e : Event) :
  In e (hopsIn w) -> isHop e = true.
Proof. unfold hopsIn. intros H. now apply filter_In in H. Qed.

(** [verdict], in the words of the claim, on the redirects in the order in
    which they were followed. *)
Lemma verdict_spec (hops : list Event) :
  (forall e, In e hops -> isHop e = true) ->
  (verdict hops = Some true
   <-> (exists status, In (Redirected status) (rev hops))
       /\ (exists status, hd_error (rev hops) = Some (Redirected status)
                          /\ (status = 301 \/ status = 308)%Z)
       /\ (forall status, In (Redirected status) (rev hops) ->
             (status = 301 \/ status = 308)%Z)
       /\ ~ In Refreshed (rev hops))
  /\ ((exists e, In e (rev hops) /\ permanentHop e = false) ->
      verdict hops = Some false)
  /\ (verdict hops = None <-> rev hops = []).
Proof.
  intros Hhops.
  assert (Hall : verdict hops = Some true
                 <-> hops <> [] /\ forall e, In e hops -> permanentHop e = true).
  { unfold verdict. destruct hops as [|e rest].
    - split; [discriminate | intros [H _]; contradiction].
    - rewrite <- forallb_forall. split.
      + intros H. split; [discriminate|]. congruence.
      + intros [_ H]. now rewrite H. }
  split; [|split].
  - rewrite Hall. split.
    + intros [Hne Hperm].
      assert (Hhead : exists status, hd_error (rev hops) = Some (Redirected status)
                                     /\ (status = 301 \/ status = 308)%Z).
      { destruct (rev hops) as [|e rest] eqn:Er.
        - destruct hops; [contradiction|].
          apply (f_equal (@length Event)) in Er.
          rewrite length_rev in Er. discriminate Er.
        - assert (He : In e hops)
            by (apply in_rev; rewrite Er; now left).
          apply Hperm, permanentHop_true in He.
          destruct He as [status [-> Hs]]. now exists status. }
      split; [|split; [exact Hhead|split]].
      * destruct Hhead as [status [Hh _]]. exists status.
        destruct (rev hops); [discriminate|]. inversion Hh. now left.
      * intros status Hin. apply in_rev in Hin.
        apply Hperm, permanentHop_true in Hin.
        destruct Hin as [s' [E Hs]]. now inversion E; subst.
      * intros Hin. apply in_rev in Hin. apply Hperm in Hin. discriminate Hin.
    + intros [[status Hin] [_ [Hstat Hno]]]. split.
      * apply in_rev in Hin. intros E. now rewrite E in Hin.
      * intros e He. pose proof (Hhops e He) as Hh.
        destruct e; try discriminate Hh.
        -- apply permanentHop_true. eexists. split; [reflexivity|].
           apply Hstat. now apply in_rev in He.
        -- destruct Hno. now apply in_rev in He.
  - intros [e [Hin Hf]]. apply in_rev in Hin.
    unfold verdict. destruct hops as [|e0 rest]; [contradiction|].
    f_equal. apply not_true_is_false. intros Hall'.
    rewrite forallb_forall in Hall'. rewrite (Hall' e Hin) in Hf. discriminate.
  - unfold verdict. destruct hops as [|e rest]; [now split|].
    split; [discriminate|]. intros E.
    apply (f_equal (@length Event)) in E. rewrite length_rev in E. discriminate E.
Qed.

(* ------------------------------------------------------------------ *)
(** ** The engine: the configuration, and the network's answers *)

Ltac hop_cases H :=
  unfold hop, respond, handleTextHtml, inspectHtml, checkFragment,
    handleUnknown, retry in H;
  split_result H.

(** An invariant of single activations is an invariant of the run. *)
Lemma run_keeps (P : Platform) (net : Network)
    (Inv : State -> World -> Prop) :
  (forall state w url s state' w',
     hop P net state w url = (s, state', w') -> Inv state w -> Inv state' w') ->
  forall fuel state w url s state' w',
    deadOrAliveInternal P net fuel state w url = (s, state', w') ->
    Inv state w -> Inv state' w'.
Proof.
  intros Hstep. induction fuel as [|fuel IH]; intros state w url s state' w' H Hinv.
  - simpl in H. inversion H; subst. exact Hinv.
  - simpl in H. destruct (hop P net state w url) as [[s1 st1] w1] eqn:Eh.
    pose proof (Hstep _ _ _ _ _ _ Eh Hinv) as Hinv1.
    destruct s1.
    + inversion H; subst. exact Hinv1.
    + inversion H; subst. exact Hinv1.
    + exact (IH _ _ _ _ _ _ H Hinv1).
Qed.

Lemma hop_configuration (P : Platform) (net : Network) (state : State)
    (w : World) (url : URL) s state' w' :
  hop P net state w url = (s, state', w') -> sameConfiguration state state'.
Proof.
  intros H. hop_cases H; repeat split.
Qed.

Ltac atomic_split_with tac :=
  repeat (first
    [ match goal with
      | |- context [match ?x with _ => _ end] =>
          lazymatch x with
          | context [match _ with _ => _ end] => fail
          | _ => destruct x eqn:?
          end
      end
    | match goal with
      | |- context [match ?x with _ => _ end] => destruct x eqn:?
      end ];
    cbn [andb orb negb fst snd
         anchorAllowlist checkAnchor findUrls followMetaHttpEquiv maxRedirects
         maxRetries messages permanent resolveClobberPrefix redirects retries
         sleep timeout urls userAgent
         with_messages with_permanent with_redirects with_retries with_urls
         push];
    tac).

Ltac atomic_split := atomic_split_with idtac.

Lemma respond_frame (P : Platform) (s1 s2 : State) (w1 w2 : World)
    (url : URL) (response : Response.t) (final : URL) s1' w1' :
  Response.ok response = true ->
  sameConfiguration s1 s2 ->
  respond P s1 w1 url response = (Return final, s1', w1') ->
  exists s2' w2',
    respond P s2 w2 url response = (Return final, s2', w2')
    /\ requests w2' = requests w2.
Proof.
  intros Hok (Ha & Hc & Hf & Hm & _ & _ & Hr & _) H. revert H.
  unfold respond, handleTextHtml, inspectHtml, checkFragment, handleUnknown,
    construct.
  rewrite Hok. cbn [negb].
  cbn [anchorAllowlist checkAnchor findUrls followMetaHttpEquiv
       resolveClobberPrefix with_urls push with_messages].
  rewrite ?Ha, ?Hc, ?Hf, ?Hm, ?Hr.
  atomic_split_with ltac:(rewrite ?Ha, ?Hc, ?Hf, ?Hm, ?Hr); intros H; inversion H; subst;
    eexists; eexists; split; reflexivity.
Qed.

Lemma with_retries_configuration (state : State) (value : Z) :
  sameConfiguration state (with_retries state value).
Proof. repeat split. Qed.

Lemma returns_at (P : Platform) (config state : State) (w : World)
    (url : URL) (response : Response.t) (final : URL) :
  returns P config url response final ->
  sameConfiguration config state ->
  exists state' w',
    respond P state w url response = (Return final, state', w')
    /\ requests w' = requests w.
Proof.
  intros [Hok [s1 [w1 H]]] Hconfig.
  exact (respond_frame P config state noWorld w url response final s1 w1
           Hok Hconfig H).
Qed.

Ltac status_clash :=
  exfalso;
  repeat match goal with
         | Hx : _ && _ = true |- _ =>
             apply andb_true_iff in Hx; destruct Hx
         | Hx : (_ <=? _)%Z = true |- _ => apply Z.leb_le in Hx
         | Hx : (_ <? _)%Z = true |- _ => apply Z.ltb_lt in Hx
         end;
  lia.

Ltac toggle_clash :=
  exfalso;
  match goal with
  | Hx : negb (_ || followMetaHttpEquiv ?s) = true,
    Hy : _ && followMetaHttpEquiv ?s = true |- _ =>
      destruct (followMetaHttpEquiv s);
      [rewrite orb_true_r in Hx | rewrite andb_false_r in Hy];
      discriminate
  end.

(** What one activation does with the network's answer: it throws before
    any request (the ceiling), or it makes one request; when the answer is
    a redirect it goes on to its target and records it, and otherwise it
    records no redirect and goes on, if at all, to the same URL. *)
Lemma hop_onward (P : Platform) (net : Network) (config state : State)
    (w : World) (url : URL) step state' w' :
  sameConfiguration config state ->
  hop P net state w url = (step, state', w') ->
  (requests w' = requests w /\ hopsIn w' = hopsIn w
   /\ forall next, step <> Continue next)
  \/ (requests w' = S (requests w)
      /\ match redirectOf P config url (net (requests w) url) with
         | Some (record, next) =>
             step = Continue next /\ hopsIn w' = record :: hopsIn w
         | None =>
             hopsIn w' = hopsIn w
             /\ forall next, step = Continue next -> next = url
         end).
Proof.
  intros (_ & _ & _ & Hm & _) H. revert H.
  unfold hop, respond, handleTextHtml, inspectHtml, checkFragment,
    handleUnknown, retry, construct, redirectOf, httpRedirect, metaRefreshOf,
    Response.ok.
  rewrite <- ?Hm.
  cbn [followMetaHttpEquiv with_retries].
  atomic_split_with ltac:(rewrite <- ?Hm);
    intros H; inversion H; subst;
    try discriminate;
    first
      [ left; cbn; split; [reflexivity|]; split; [reflexivity|];
        intros next; discriminate
      | right; cbn; split; [reflexivity|];
        first
          [ split; [reflexivity|]; intros next E;
            first [discriminate E | now inversion E]
          | split; reflexivity
          | congruence ]
      | toggle_clash
      | status_clash ].
Qed.

Lemma sameConfiguration_refl (state : State) : sameConfiguration state state.
Proof. repeat split. Qed.

Lemma sameConfiguration_trans (a b c : State) :
  sameConfiguration a b -> sameConfiguration b c -> sameConfiguration a c.
Proof.
  unfold sameConfiguration.
  intros (A1 & A2 & A3 & A4 & A5 & A6 & A7 & A8 & A9 & A10)
         (B1 & B2 & B3 & B4 & B5 & B6 & B7 & B8 & B9 & B10).
  repeat split; congruence.
Qed.

(** The redirect records of a run are the redirects among the network's
    answers to its requests, and a run that is handed back goes on to the
    URL to which those answers lead. *)
Lemma run_trail (P : Platform) (net : Network) (config : State) :
  forall fuel state w url step state' w',
    sameConfiguration config state ->
    deadOrAliveInternal P net fuel state w url = (step, state', w') ->
    exists count,
      requests w' = requests w + count
      /\ hopsIn w'
         = (rev (trail P config net count (requests w) url) ++ hopsIn w)%list
      /\ (forall next, step = Continue next ->
            next = destination P config net count (requests w) url).
Proof.
  induction fuel as [|fuel IH]; intros state w url step state' w' Hconfig H.
  - cbn in H. inversion H; subst. exists 0. cbn.
    split; [lia|]. split; [reflexivity|]. intros next E. now inversion E.
  - cbn [deadOrAliveInternal] in H.
    destruct (hop P net state w url) as [[s1 st1] w1] eqn:Eh.
    assert (Hconfig1 : sameConfiguration config st1)
      by exact (sameConfiguration_trans _ _ _ Hconfig
                  (hop_configuration _ _ _ _ _ _ _ _ Eh)).
    destruct (hop_onward P net config state w url s1 st1 w1 Hconfig Eh)
      as [(Hr & Hh & Hstop) | (Hr & Hanswer)].
    + destruct s1; [| |now destruct (Hstop next)];
        inversion H; subst; exists 0; cbn;
        (split; [lia|]); (split; [exact Hh|]); intros next E; discriminate E.
    + destruct (redirectOf P config url (net (requests w) url))
        as [[record next]|] eqn:Eanswer.
      * destruct Hanswer as [-> Hh].
        destruct (IH st1 w1 next step state' w' Hconfig1 H)
          as [count [Hc [Hhops Hnext]]].
        exists (S count). cbn [trail destination]. rewrite Eanswer.
        rewrite Hr in Hc, Hhops, Hnext.
        split; [lia|]. split; [|exact Hnext].
        rewrite Hhops, Hh. cbn [rev]. now rewrite <- app_assoc.
      * destruct Hanswer as [Hh Hsame].
        destruct s1.
        -- inversion H; subst. exists 1. cbn [trail destination].
           rewrite Eanswer. cbn. split; [lia|]. split; [exact Hh|].
           intros next E. discriminate E.
        -- inversion H; subst. exists 1. cbn [trail destination].
           rewrite Eanswer. cbn. split; [lia|]. split; [exact Hh|].
           intros next E. discriminate E.
        -- rewrite (Hsame next eq_refl) in H.
           destruct (IH st1 w1 url step state' w' Hconfig1 H)
             as [count [Hc [Hhops Hnext]]].
           exists (S count). cbn [trail destination]. rewrite Eanswer.
           rewrite Hr in Hc, Hhops, Hnext.
           split; [lia|]. split; [|exact Hnext].
           now rewrite Hhops, Hh.
Qed.

(** The redirect records of a call of [deadOrAlive] are the redirects among
    the network's answers to its requests. *)
Lemma deadOrAlive_trail (P : Platform) (net : Network) (fuel : nat)
    (href_ : string + URL) (options : option Options) :
  followed (snd (deadOrAlive P net fuel href_ options))
  = answered P net options href_
      (requests (snd (deadOrAlive P net fuel href_ options))).
Proof.
  assert (Hrun : forall url step st w,
            deadOrAliveInternal P net fuel (initialState options) noWorld url
            = (step, st, w) ->
            followed w
            = trail P (initialState options) net (requests w) 0 url).
  { intros url step st w Erun.
    destruct (run_trail P net (initialState options) fuel _ _ _ _ _ _
                (sameConfiguration_refl _) Erun) as [count [Hc [Hh _]]].
    cbn [requests noWorld Nat.add] in Hc, Hh.
    change (hopsIn noWorld) with (@nil Event) in Hh.
    rewrite app_nil_r in Hh.
    unfold followed. now rewrite Hh, rev_involutive, Hc. }
  unfold deadOrAlive, answered, start, construct.
  destruct href_ as [text | parsed].
  - destruct (new_URL P text None) as [url|]; [|reflexivity].
    destruct (deadOrAliveInternal P net fuel (initialState options) noWorld url)
      as [[step st] w] eqn:Erun.
    pose proof (Hrun _ _ _ _ Erun) as E.
    destruct step; exact E.
  - destruct (deadOrAliveInternal P net fuel (initialState options) noWorld
                parsed) as [[step st] w] eqn:Erun.
    pose proof (Hrun _ _ _ _ Erun) as E.
    destruct step; exact E.
Qed.

(* ------------------------------------------------------------------ *)
(** ** The engine: [permanent] in the result *)

(** C4.  In every result, the redirect records are the redirects among the
    network's answers to the requests made (HTTP redirects with a usable
    location, and meta refreshes that are followed), and [permanent] is
    true exactly when one of these is an HTTP redirect, the first of them
    had status 301 or 308, every HTTP redirect among them had status 301 or
    308 and none is a meta refresh; any other HTTP redirect and any meta
    refresh makes it false; it is unset exactly when there was no redirect.
    Once false it stays false through every later activation of the
    engine. *)
Theorem permanent_tracks_redirects (P : Platform) (net : Network)
    (fuel : nat) (href_ : string + URL) (options : option Options)
    (result : Result.t) (w : World) :
  deadOrAlive P net fuel href_ options = (Some result, w) ->
  followed w = answered P net options href_ (requests w)
  /\ (Result.permanent result = Some true
      <-> (exists status,
             In (Redirected status)
               (answered P net options href_ (requests w)))
          /\ (exists status,
                hd_error (answered P net options href_ (requests w))
                = Some (Redirected status)
                /\ (status = 301 \/ status = 308)%Z)
          /\ (forall status,
                In (Redirected status)
                  (answered P net options href_ (requests w)) ->
                (status = 301 \/ status = 308)%Z)
          /\ ~ In Refreshed (answered P net options href_ (requests w)))
  /\ ((exists e, In e (answered P net options href_ (requests w))
                 /\ permanentHop e = false) ->
      Result.permanent result = Some false)
  /\ (Result.permanent result = None
      <-> answered P net options href_ (requests w) = [])
  /\ (forall more state0 w0 url0,
        permanent state0 = Some false ->
        permanent (snd (fst (deadOrAliveInternal P net more state0 w0 url0)))
        = Some false).
Proof.
  intros Hrun.
  assert (Htrail : followed w = answered P net options href_ (requests w)).
  { pose proof (deadOrAlive_trail P net fuel href_ options) as E.
    now rewrite Hrun in E. }
  rewrite <- Htrail. split; [reflexivity|].
  assert (Hverdict : Result.permanent result = verdict (hopsIn w)).
  { unfold deadOrAlive in Hrun.
    destruct (match href_ with
              | inl text => construct P text None
              | inr parsed => Normal parsed
              end) as [url|cause].
    - destruct (deadOrAliveInternal P net fuel (initialState options) noWorld url)
        as [[s state'] w'] eqn:Erun.
      assert (Hinv : permanent state' = verdict (hopsIn w')).
      { apply (run_invariant P net
                 (fun st wd => permanent st = verdict (hopsIn wd))
                 effect_verdict _ _ _ _ _ _ _ Erun).
        reflexivity. }
      destruct s; inversion Hrun; subst; exact Hinv.
    - inversion Hrun; subst. reflexivity. }
  rewrite Hverdict. unfold followed.
  destruct (verdict_spec (hopsIn w) (hopsIn_are_hops w)) as [H1 [H2 H3]].
  split; [exact H1|]. split; [exact H2|]. split; [exact H3|].
  intros more state0 w0 url0 Hfalse.
  destruct (deadOrAliveInternal P net more state0 w0 url0)
    as [[s state'] w'] eqn:Erun.
  cbn [fst snd].
  exact (run_invariant P net (fun st _ => permanent st = Some false)
           effect_stays_false _ _ _ _ _ _ _ Erun Hfalse).
Qed.

Lemma permanent_tracks_redirects_witness :
  exists result w,
    deadOrAlive Example.platform
      (Example.script
         [inr (Example.html "https://example.com/0"
                 "<meta http-equiv=refresh content=0;/1>");
          inr (Example.redirect 301 "https://example.com/1" "/2");
          inr (Example.reply 200 "https://example.com/2")])
      4 (inr (Example.page 0)) None = (Some result, w)
    /\ Result.permanent result = Some false
    /\ answered Example.platform
         (Example.script
            [inr (Example.html "https://example.com/0"
                    "<meta http-equiv=refresh content=0;/1>");
             inr (Example.redirect 301 "https://example.com/1" "/2");
             inr (Example.reply 200 "https://example.com/2")])
         None (inr (Example.page 0)) (requests w)
       = [Refreshed; Redirected 301]
    /\ followed w
       = answered Example.platform
           (Example.script
              [inr (Example.html "https://example.com/0"
                      "<meta http-equiv=refresh content=0;/1>");
               inr (Example.redirect 301 "https://example.com/1" "/2");
               inr (Example.reply 200 "https://example.com/2")])
           None (inr (Example.page 0)) (requests w)
    /\ (Result.permanent result = Some true
        <-> (exists status,
               In (Redirected status)
                 (answered Example.platform
                    (Example.script
                       [inr (Example.html "https://example.com/0"
                               "<meta http-equiv=refresh content=0;/1>");
                        inr (Example.redirect 301 "https://example.com/1" "/2");
                        inr (Example.reply 200 "https://example.com/2")])
                    None (inr (Example.page 0)) (requests w)))
            /\ (exists status,
                  hd_error
                    (answered Example.platform
                       (Example.script
                          [inr (Example.html "https://example.com/0"
                                  "<meta http-equiv=refresh content=0;/1>");
                           inr (Example.redirect 301 "https://example.com/1"
                                  "/2");
                           inr (Example.reply 200 "https://example.com/2")])
                       None (inr (Example.page 0)) (requests w))
                  = Some (Redirected status)
                  /\ (status = 301 \/ status = 308)%Z)
            /\ (forall status,
                  In (Redirected status)
                    (answered Example.platform
                       (Example.script
                          [inr (Example.html "https://example.com/0"
                                  "<meta http-equiv=refresh content=0;/1>");
                           inr (Example.redirect 301 "https://example.com/1"
                                  "/2");
                           inr (Example.reply 200 "https://example.com/2")])
                       None (inr (Example.page 0)) (requests w)) ->
                  (status = 301 \/ status = 308)%Z)
            /\ ~ In Refreshed
                   (answered Example.platform
                      (Example.script
                         [inr (Example.html "https://example.com/0"
                                 "<meta http-equiv=refresh content=0;/1>");
                          inr (Example.redirect 301 "https://example.com/1"
                                 "/2");
                          inr (Example.reply 200 "https://example.com/2")])
                      None (inr (Example.page 0)) (requests w)))
    /\ ((exists e,
           In e (answered Example.platform
                   (Example.script
                      [inr (Example.html "https://example.com/0"
                              "<meta http-equiv=refresh content=0;/1>");
                       inr (Example.redirect 301 "https://example.com/1" "/2");
                       inr (Example.reply 200 "https://example.com/2")])
                   None (inr (Example.page 0)) (requests w))
           /\ permanentHop e = false) ->
        Result.permanent result = Some false)
    /\ (Result.permanent result = None
        <-> answered Example.platform
              (Example.script
                 [inr (Example.html "https://example.com/0"
                         "<meta http-equiv=refresh content=0;/1>");
                  inr (Example.redirect 301 "https://example.com/1" "/2");
                  inr (Example.reply 200 "https://example.com/2")])
              None (inr (Example.page 0)) (requests w) = [])
    /\ (forall more state0 w0 url0,
          permanent state0 = Some false ->
          permanent
            (snd (fst (deadOrAliveInternal Example.platform
                         (Example.script
                            [inr (Example.html "https://example.com/0"
                                    "<meta http-equiv=refresh content=0;/1>");
                             inr (Example.redirect 301 "https://example.com/1"
                                    "/2");
                             inr (Example.reply 200 "https://example.com/2")])
                         more state0 w0 url0)))
          = Some false).
Proof.
  eexists. eexists.
  split; [vm_compute; reflexivity|].
  split; [reflexivity|]. split; [vm_compute; reflexivity|].
  apply (permanent_tracks_redirects Example.platform
           (Example.script
              [inr (Example.html "https://example.com/0"
                      "<meta http-equiv=refresh content=0;/1>");
               inr (Example.redirect 301 "https://example.com/1" "/2");
               inr (Example.reply 200 "https://example.com/2")])
           4 (inr (Example.page 0)) None).
  vm_compute. reflexivity.
Defined.

(* ------------------------------------------------------------------ *)
(** ** The engine: the redirect ceiling *)

Lemma hop_redirect (P : Platform) (net : Network) (state : State) (w : World)
    (url next : URL) :
  redirectsTo P net (requests w) url next ->
  (redirects state <= maxRedirects state)%Z ->
  exists state' w',
    hop P net state w url = (Continue next, state', w')
    /\ requests w' = S (requests w)
    /\ redirects state' = (redirects state + 1)%Z
    /\ maxRedirects state' = maxRedirects state.
Proof.
  intros [response [location [Hnet [Hstatus [Hloc [Hne Hurl]]]]]] Hceil.
  unfold hop.
  replace (maxRedirects state <? redirects state)%Z with false
    by (symmetry; apply Z.ltb_ge; exact Hceil).
  rewrite Hnet.
  replace (300 <=? Response.status response)%Z with true
    by (symmetry; apply Z.leb_le; lia).
  replace (Response.status response <? 400)%Z with true
    by (symmetry; apply Z.ltb_lt; lia).
  cbn [andb]. rewrite Hloc, (truthy_nonempty location Hne).
  unfold construct. rewrite Hurl.
  eexists. eexists. split; [reflexivity|].
  split; [reflexivity|].
  destruct ((Response.status response =? 301)%Z
            || (Response.status response =? 308)%Z);
    destruct (permanent (with_retries state 0));
    destruct (truthy_string (hash url)); split; reflexivity.
Qed.

(** A chain of [n] redirects below the ceiling is followed hop by hop. *)
Lemma chain_run (P : Platform) (net : Network) (urlAt : nat -> URL) :
  forall n i state w,
    requests w = i ->
    redirects state = Z.of_nat i ->
    (Z.of_nat (i + n) <= maxRedirects state + 1)%Z ->
    (forall j, j < n ->
       redirectsTo P net (i + j) (urlAt (i + j)) (urlAt (S (i + j)))) ->
    forall fuel,
    exists state' w',
      deadOrAliveInternal P net (n + fuel) state w (urlAt i)
      = deadOrAliveInternal P net fuel state' w' (urlAt (i + n))
      /\ requests w' = i + n
      /\ redirects state' = Z.of_nat (i + n)
      /\ maxRedirects state' = maxRedirects state
      /\ sameConfiguration state state'.
Proof.
  induction n as [|n IH]; intros i state w Hreq Hred Hceil Hchain fuel.
  - exists state, w. rewrite Nat.add_0_r.
    repeat split; assumption.
  - assert (Hhere : redirectsTo P net (requests w) (urlAt i) (urlAt (S i))).
    { rewrite Hreq. specialize (Hchain 0 (Nat.lt_0_succ n)).
      now rewrite Nat.add_0_r in Hchain. }
    destruct (hop_redirect P net state w _ _ Hhere) as [st1 [w1 [Hhop [Hr1 [Hd1 Hm1]]]]].
    { lia. }
    destruct (IH (S i) st1 w1) with (fuel := fuel)
      as [st2 [w2 [Hrun [Hr2 [Hd2 [Hm2 Hc2]]]]]].
    + lia.
    + lia.
    + rewrite Hm1. lia.
    + intros j Hj. specialize (Hchain (S j)).
      replace (i + S j) with (S i + j) in Hchain by lia.
      apply Hchain. lia.
    + exists st2, w2. cbn [Nat.add deadOrAliveInternal]. rewrite Hhop.
      rewrite Hrun.
      replace (i + S n) with (S i + n) by lia.
      split; [reflexivity|]. split; [assumption|]. split; [assumption|].
      split; [congruence|].
      exact (sameConfiguration_trans _ _ _
               (hop_configuration _ _ _ _ _ _ _ _ Hhop) Hc2).
Qed.

Lemma settles_ok (P : Platform) (url : URL) (response : Response.t)
    (final : URL) :
  settles P url response final -> Response.ok response = true.
Proof.
  intros H. destruct (H (initialState None) noWorld) as [st [w [Hr _]]].
  unfold respond in Hr.
  destruct (Response.ok response); [reflexivity|]. cbn [negb] in Hr.
  destruct ((retries (initialState None) <? maxRetries (initialState None))%Z
            && ((Response.status response <? 400)%Z
                || (500 <=? Response.status response)%Z));
    [unfold retry in Hr|]; discriminate Hr.
Qed.

(** C1, as the code has it.  With [maxRedirects = N], set or by default: a
    chain of exactly [N] HTTP redirects followed by a 2xx response whose
    handling returns yields an alive result with the URL returned; a chain
    of [N + 1] redirects yields a dead result whose first message is the
    fatal [max-redirect] diagnostic naming the target of redirect [N + 1],
    after [N + 1] requests. *)
Theorem redirect_ceiling (P : Platform) (net : Network) (N : nat)
    (options : option Options) (urlAt : nat -> URL) :
  maxRedirects (initialState options) = Z.of_nat N ->
  (forall response final,
     chain P net urlAt N ->
     net N (urlAt N) = inr response ->
     returns P (initialState options) (urlAt N) response final ->
     forall fuel, N < fuel ->
       exists result w,
         deadOrAlive P net fuel (inr (urlAt 0)) options = (Some result, w)
         /\ Result.status result = alive
         /\ Result.url result = Some (href final)
         /\ requests w = S N)
  /\ (chain P net urlAt (S N) ->
      forall fuel, S N < fuel ->
        exists result w rest,
          deadOrAlive P net fuel (inr (urlAt 0)) options = (Some result, w)
          /\ Result.status result = dead
          /\ Result.url result = None
          /\ Result.messages result
             = Message (maxRedirectDiagnostic (urlAt (S N))) :: rest
          /\ requests w = S N).
Proof.
  intros Hinit.
  split.
  - intros response final Hchain Hnet Hreturns fuel Hfuel.
    destruct (chain_run P net urlAt N 0 (initialState options) noWorld)
      with (fuel := fuel - N) as [st [w [Hrun [Hreq [Hred [Hm Hc]]]]]].
    + reflexivity.
    + reflexivity.
    + rewrite Hinit. lia.
    + intros j Hj. apply Hchain. exact Hj.
    + replace (N + (fuel - N)) with fuel in Hrun by lia.
      cbn [Nat.add] in Hrun, Hreq, Hred.
      unfold deadOrAlive. rewrite Hrun.
      destruct (fuel - N) as [|k] eqn:Ek; [lia|].
      cbn [deadOrAliveInternal]. unfold hop.
      replace (maxRedirects st <? redirects st)%Z with false
        by (symmetry; apply Z.ltb_ge; lia).
      rewrite Hreq, Hnet.
      pose proof (proj1 Hreturns) as Hok.
      unfold Response.ok in Hok. apply andb_true_iff in Hok.
      destruct Hok as [Hlo Hhi]. apply Z.leb_le in Hlo, Hhi.
      replace (300 <=? Response.status response)%Z with false
        by (symmetry; apply Z.leb_gt; lia).
      cbn [andb].
      destruct (returns_at P (initialState options) (with_retries st 0)
                  (request w (urlAt N)) (urlAt N) response final Hreturns)
        as [st' [w' [Hr Hw]]].
      { exact (sameConfiguration_trans _ _ _ Hc
                 (with_retries_configuration st 0)). }
      rewrite Hr. eexists. eexists. split; [reflexivity|].
      cbn. repeat split. rewrite Hw. cbn. now rewrite Hreq.
  - intros Hchain fuel Hfuel.
    destruct (chain_run P net urlAt (S N) 0 (initialState options) noWorld)
      with (fuel := fuel - S N) as [st [w [Hrun [Hreq [Hred [Hm Hc]]]]]].
    + reflexivity.
    + reflexivity.
    + rewrite Hinit. lia.
    + intros j Hj. apply Hchain. exact Hj.
    + replace (S N + (fuel - S N)) with fuel in Hrun by lia.
      cbn [Nat.add] in Hrun, Hreq, Hred.
      unfold deadOrAlive. rewrite Hrun.
      destruct (fuel - S N) as [|k] eqn:Ek; [lia|].
      cbn [deadOrAliveInternal]. unfold hop.
      replace (maxRedirects st <? redirects st)%Z with true
        by (symmetry; apply Z.ltb_lt; lia).
      eexists. eexists. eexists. split; [reflexivity|].
      cbn [Result.status Result.url Result.messages].
      repeat split. exact Hreq.
Qed.

Lemma redirect_ceiling_witness :
  (exists result w,
     deadOrAlive Example.platform
       (Example.script
          [inr (Example.redirect 301 "https://example.com/0" "/1");
           inr (Example.html "https://example.com/1" "<h1 id=hi>")])
       2 (inr (Example.page 0)) (Some (Example.withMaxRedirects 1))
     = (Some result, w)
     /\ Result.status result = alive
     /\ Result.url result = Some (href (Example.page 1))
     /\ requests w = 2)
  /\ (exists result w rest,
        deadOrAlive Example.platform
          (Example.script
             [inr (Example.redirect 301 "https://example.com/0" "/1");
              inr (Example.redirect 301 "https://example.com/1" "/2");
              inr (Example.reply 200 "https://example.com/2")])
          3 (inr (Example.page 0)) (Some (Example.withMaxRedirects 1))
        = (Some result, w)
        /\ Result.status result = dead
        /\ Result.url result = None
        /\ Result.messages result
           = Message (maxRedirectDiagnostic (Example.page 2)) :: rest
        /\ requests w = 2).
Proof.
  split.
  - apply (proj1 (redirect_ceiling Example.platform
                    (Example.script
                       [inr (Example.redirect 301 "https://example.com/0" "/1");
                        inr (Example.html "https://example.com/1"
                               "<h1 id=hi>")])
                    1 (Some (Example.withMaxRedirects 1)) Example.page
                    eq_refl)
             (Example.html "https://example.com/1" "<h1 id=hi>")
             (Example.page 1)).
    + intros i Hi. destruct i as [|i]; [|lia].
      exists (Example.redirect 301 "https://example.com/0" "/1"), "/1".
      split; [reflexivity|]. split; [cbn; lia|]. split; [reflexivity|].
      split; [discriminate|reflexivity].
    + reflexivity.
    + split; [reflexivity|]. eexists. eexists. vm_compute. reflexivity.
    + lia.
  - apply (proj2 (redirect_ceiling Example.platform
                    (Example.script
                       [inr (Example.redirect 301 "https://example.com/0" "/1");
                        inr (Example.redirect 301 "https://example.com/1" "/2");
                        inr (Example.reply 200 "https://example.com/2")])
                    1 (Some (Example.withMaxRedirects 1)) Example.page
                    eq_refl)).
    + intros i Hi. destruct i as [|[|i]]; [| |lia].
      * exists (Example.redirect 301 "https://example.com/0" "/1"), "/1".
        split; [reflexivity|]. split; [cbn; lia|]. split; [reflexivity|].
        split; [discriminate|reflexivity].
      * exists (Example.redirect 301 "https://example.com/1" "/2"), "/2".
        split; [reflexivity|]. split; [cbn; lia|]. split; [reflexivity|].
        split; [discriminate|reflexivity].
    + lia.
Defined.

(** C1 as stated fails already for [maxRedirects = 0]: one redirect
    ([N + 1]) followed by a 200 is not alive.  The engine stops at the
    target of that redirect, with [max-redirect] naming it, and the 200 is
    never requested. *)
Lemma one_redirect_exceeds_ceiling_zero :
  chain Example.platform
    (Example.script
       [inr (Example.redirect 301 "https://example.com/0" "/1");
        inr (Example.reply 200 "https://example.com/1")])
    Example.page 1
  /\ settles Example.platform (Example.page 1)
       (Example.reply 200 "https://example.com/1") (Example.page 1)
  /\ exists w,
       deadOrAlive Example.platform
         (Example.script
            [inr (Example.redirect 301 "https://example.com/0" "/1");
             inr (Example.reply 200 "https://example.com/1")])
         5 (inr (Example.page 0)) (Some (Example.withMaxRedirects 0))
       = (Some (Result.mk [Message (maxRedirectDiagnostic (Example.page 1))]
                  (Some true) dead None None),
          w)
       /\ requests w = 1.
Proof.
  split; [|split].
  - intros i Hi. destruct i as [|i]; [|lia].
    exists (Example.redirect 301 "https://example.com/0" "/1"), "/1".
    split; [reflexivity|]. split; [cbn; lia|]. split; [reflexivity|].
    split; [discriminate|reflexivity].
  - intros state w. destruct (checkAnchor state) eqn:E;
      eexists; eexists; unfold respond, handleUnknown; rewrite E;
      split; reflexivity.
  - eexists. split; [vm_compute; reflexivity|reflexivity].
Qed.

(* ------------------------------------------------------------------ *)
(** ** The engine: retries *)

(** The decision taken on a response that is not ok and was not followed
    as a redirect: retry exactly when the counter is below the maximum and
    the status is below 400 or at least 500; otherwise throw the fatal
    [dead] diagnostic with status, status text and response URL. *)
Lemma respond_not_ok (P : Platform) (state : State) (w : World) (url : URL)
    (response : Response.t) :
  Response.ok response = false ->
  respond P state w url response
  = if (retries state <? maxRetries state)%Z
       && ((Response.status response <? 400)%Z
           || (500 <=? Response.status response)%Z)
    then retry state w url
    else (Throw (Message (VFileMessage.mk
            ("Unexpected not ok response `"
               ++ string_of_Z (Response.status response) ++ "` (`"
               ++ Response.statusText response ++ "`) on `"
               ++ Response.url response ++ "`")
            "dead" "dead-or-alive"
            (Some "https://github.com/wooorm/dead-or-alive#dead")
            (Some true) None)),
          state, w).
Proof. intros Hok. unfold respond. rewrite Hok. reflexivity. Qed.

(** A 4xx response is never retried. *)
Lemma client_error_not_retried (P : Platform) (state : State) (w : World)
    (url : URL) (response : Response.t) :
  (400 <= Response.status response < 500)%Z ->
  exists m,
    respond P state w url response = (Throw (Message m), state, w)
    /\ VFileMessage.ruleId m = "dead"
    /\ VFileMessage.fatal m = Some true.
Proof.
  intros Hs. rewrite respond_not_ok.
  - replace (Response.status response <? 400)%Z with false
      by (symmetry; apply Z.ltb_ge; lia).
    replace (500 <=? Response.status response)%Z with false
      by (symmetry; apply Z.leb_gt; lia).
    rewrite andb_false_r. eexists. split; [reflexivity|]. split; reflexivity.
  - unfold Response.ok.
    replace (Response.status response <=? 299)%Z with false
      by (symmetry; apply Z.leb_gt; lia).
    apply andb_false_r.
Qed.

(** The counter that the decision reads was set to 0 just before: when
    every request to [url] gets the same retriable response and one retry
    is allowed, every activation ends in a retry, whatever the fuel. *)
Lemma retriable_response_loops (P : Platform) (net : Network) (url : URL)
    (response : Response.t) :
  (forall n, net n url = inr response) ->
  Response.ok response = false ->
  (Response.status response < 300 \/ 500 <= Response.status response
   \/ Response.location response = None)%Z ->
  (Response.status response < 400 \/ 500 <= Response.status response)%Z ->
  forall fuel state w,
    (0 < maxRetries state)%Z ->
    (redirects state <= maxRedirects state)%Z ->
    exists state' w',
      deadOrAliveInternal P net fuel state w url = (Continue url, state', w')
      /\ requests w' = requests w + fuel.
Proof.
  intros Hnet Hok Hnoredirect Hretriable.
  induction fuel as [|fuel IH]; intros state w Hmax Hceil.
  - exists state, w. split; [reflexivity|lia].
  - cbn [deadOrAliveInternal]. unfold hop.
    replace (maxRedirects state <? redirects state)%Z with false
      by (symmetry; apply Z.ltb_ge; exact Hceil).
    rewrite Hnet.
    replace (if (300 <=? Response.status response)%Z
                && (Response.status response <? 400)%Z
             then match Response.location response with
                  | Some location =>
                      if truthy_string location then Some location else None
                  | None => None
                  end
             else None) with (@None string).
    + rewrite respond_not_ok by exact Hok.
      change (retries (with_retries state 0)) with 0%Z.
      change (maxRetries (with_retries state 0)) with (maxRetries state).
      replace (0 <? maxRetries state)%Z with true
        by (symmetry; apply Z.ltb_lt; exact Hmax).
      replace ((Response.status response <? 400)%Z
               || (500 <=? Response.status response)%Z) with true.
      * cbn [andb]. unfold retry.
        match goal with
        | |- context [deadOrAliveInternal P net fuel ?st ?wd url] =>
            destruct (IH st wd) as [st' [w' [Hrun Hreq]]];
            [exact Hmax | exact Hceil |]
        end.
        exists st', w'. split; [exact Hrun|].
        rewrite Hreq. cbn. lia.
      * symmetry. apply orb_true_iff.
        destruct Hretriable as [H | H]; [left; apply Z.ltb_lt | right; apply Z.leb_le];
          exact H.
    + destruct Hnoredirect as [H | [H | H]].
      * replace (300 <=? Response.status response)%Z with false
          by (symmetry; apply Z.leb_gt; lia).
        reflexivity.
      * replace (Response.status response <? 400)%Z with false
          by (symmetry; apply Z.ltb_ge; lia).
        now rewrite andb_false_r.
      * rewrite H. now destruct ((300 <=? Response.status response)%Z
                                 && (Response.status response <? 400)%Z).
Qed.

(** C3 at a failing input.  With the default [maxRetries = 1], a server
    that answers every request with status 500 is asked again after every
    answer: for every bound the run is still pending and has made as many
    requests as the bound allows.  The [dead] diagnostic is never
    produced. *)
Theorem server_error_retried_without_end :
  forall fuel,
    exists w,
      deadOrAlive Example.platform
        (fun _ _ => inr (Example.reply 500 "https://example.com/0"))
        fuel (inr (Example.page 0)) None
      = (None, w)
      /\ requests w = fuel.
Proof.
  intros fuel. unfold deadOrAlive.
  destruct (retriable_response_loops Example.platform
              (fun _ _ => inr (Example.reply 500 "https://example.com/0"))
              (Example.page 0) (Example.reply 500 "https://example.com/0"))
    with (fuel := fuel) (state := initialState None) (w := noWorld)
    as [st [w [Hrun Hreq]]].
  - reflexivity.
  - reflexivity.
  - right; left. cbn. lia.
  - right. cbn. lia.
  - cbn. lia.
  - cbn. lia.
  - rewrite Hrun. exists w. split; [reflexivity|exact Hreq].
Qed.

(* ------------------------------------------------------------------ *)
(** ** The shape of the result *)

(** A hop only ever adds warnings to the state. *)
Lemma hop_warnings (P : Platform) (net : Network) (state : State) (w : World)
    (url : URL) s state' w' :
  hop P net state w url = (s, state', w') ->
  warningsOnly state -> warningsOnly state'.
Proof.
  unfold hop, respond, handleTextHtml, inspectHtml, checkFragment,
    handleUnknown, retry.
  intros H Hw.
  split_result H; try exact Hw;
    unfold warningsOnly in *;
    cbn [messages with_retries with_redirects with_permanent with_urls push
         with_messages] in *;
    try assumption;
    try (apply Forall_app; split;
         [assumption | constructor; [reflexivity | constructor]]).
Qed.

(** What a hop throws is a fatal diagnostic of the package, or the native
    error of a URL or a content type that did not parse. *)
Lemma hop_throws (P : Platform) (net : Network) (state : State) (w : World)
    (url : URL) e state' w' :
  hop P net state w url = (Throw e, state', w') ->
  fatalDiagnostic e \/ exists what, e = TypeError what.
Proof.
  unfold hop, respond, handleTextHtml, inspectHtml, checkFragment,
    handleUnknown, retry, sharedDeclarativeRefresh, parse, construct.
  intros H.
  split_result H;
    repeat match goal with
           | Hx : _ = Abrupt _ |- _ => split_result Hx
           end;
    try (left; eexists; split; reflexivity);
    try (right; eexists; reflexivity).
Qed.

Lemma run_warnings (P : Platform) (net : Network) :
  forall fuel state w url s state' w',
    deadOrAliveInternal P net fuel state w url = (s, state', w') ->
    warningsOnly state -> warningsOnly state'.
Proof.
  induction fuel as [|fuel IH]; intros state w url s state' w' H Hw.
  - simpl in H. inversion H; subst. exact Hw.
  - simpl in H. destruct (hop P net state w url) as [[s1 st1] w1] eqn:Eh.
    pose proof (hop_warnings _ _ _ _ _ _ _ _ Eh Hw) as Hw1.
    destruct s1.
    + inversion H; subst. exact Hw1.
    + inversion H; subst. exact Hw1.
    + exact (IH _ _ _ _ _ _ H Hw1).
Qed.

Lemma run_throws (P : Platform) (net : Network) :
  forall fuel state w url e state' w',
    deadOrAliveInternal P net fuel state w url = (Throw e, state', w') ->
    fatalDiagnostic e \/ exists what, e = TypeError what.
Proof.
  induction fuel as [|fuel IH]; intros state w url e state' w' H.
  - simpl in H. discriminate H.
  - simpl in H. destruct (hop P net state w url) as [[s1 st1] w1] eqn:Eh.
    destruct s1.
    + discriminate H.
    + inversion H; subst. exact (hop_throws _ _ _ _ _ _ _ _ Eh).
    + exact (IH _ _ _ _ _ _ H).
Qed.

(** X1: whenever [deadOrAlive] returns, the result is alive with a URL and
    warnings only, or dead without a URL, with the thrown value first and
    the warnings after it; the thrown value is a fatal diagnostic or a
    native [TypeError]. *)
Lemma deadOrAlive_shape (P : Platform) (net : Network) (fuel : nat)
    (href_ : string + URL) (options : option Options) (result : Result.t)
    (w : World) :
  deadOrAlive P net fuel href_ options = (Some result, w) ->
  (Result.status result = alive
   /\ (exists u, Result.url result = Some u)
   /\ exists warnings,
        Result.messages result = List.map Message warnings
        /\ Forall (fun m => VFileMessage.fatal m = None) warnings)
  \/ (Result.status result = dead
      /\ Result.url result = None
      /\ exists cause warnings,
           Result.messages result = cause :: List.map Message warnings
           /\ Forall (fun m => VFileMessage.fatal m = None) warnings
           /\ (fatalDiagnostic cause \/ exists what, cause = TypeError what)).
Proof.
  unfold deadOrAlive. intros H.
  destruct (match href_ with
            | inl text => construct P text None
            | inr parsed => Normal parsed
            end) as [url|cause] eqn:Eurl.
  - destruct (deadOrAliveInternal P net fuel (initialState options) noWorld url)
      as [[s st] w1] eqn:Erun.
    assert (Hw : warningsOnly st)
      by (apply (run_warnings _ _ _ _ _ _ _ _ _ Erun); constructor).
    destruct s; inversion H; subst; cbn.
    + left. split; [reflexivity|]. split; [now eexists|].
      now exists (messages st).
    + right. split; [reflexivity|]. split; [reflexivity|].
      exists e, (messages st). split; [reflexivity|]. split; [exact Hw|].
      exact (run_throws _ _ _ _ _ _ _ _ _ Erun).
  - inversion H; subst; cbn.
    right. split; [reflexivity|]. split; [reflexivity|].
    exists cause, []. split; [reflexivity|]. split; [constructor|].
    right. destruct href_ as [text|parsed]; [|discriminate Eurl].
    unfold construct in Eurl. destruct (new_URL P text None); [discriminate|].
    inversion Eurl. now eexists.
Qed.

Lemma deadOrAlive_shape_witness :
  exists result,
    fst (deadOrAlive Example.platform
           (Example.script
              [inr (Example.redirect 301 "https://example.com/0" "/1");
               inr (Example.reply 404 "https://example.com/1")])
           4 (inr (Example.page 0)) None) = Some result
    /\ ((Result.status result = alive
         /\ (exists u, Result.url result = Some u)
         /\ exists warnings,
              Result.messages result = List.map Message warnings
              /\ Forall (fun m => VFileMessage.fatal m = None) warnings)
        \/ (Result.status result = dead
            /\ Result.url result = None
            /\ exists cause warnings,
                 Result.messages result = cause :: List.map Message warnings
                 /\ Forall (fun m => VFileMessage.fatal m = None) warnings
                 /\ (fatalDiagnostic cause
                     \/ exists what, cause = TypeError what))).
Proof.
  eexists. split; [vm_compute; reflexivity|].
  apply (deadOrAlive_shape Example.platform
           (Example.script
              [inr (Example.redirect 301 "https://example.com/0" "/1");
               inr (Example.reply 404 "https://example.com/1")])
           4 (inr (Example.page 0)) None _
           (mkWorld 2 [Fetched (Example.page 1); Redirected 301;
                       Fetched (Example.page 0)])).
  vm_compute. reflexivity.
Defined.

(* ------------------------------------------------------------------ *)
(** ** Termination on a calm network *)

Lemma handleTextHtml_continue (P : Platform) (state : State) (w : World)
    (url : URL) response next state' w' :
  handleTextHtml P state w url response = (Continue next, state', w') ->
  advances state state'.
Proof.
  unfold handleTextHtml, inspectHtml, checkFragment. intros H.
  split_result H; repeat split; reflexivity.
Qed.

Lemma respond_continue (P : Platform) (state : State) (w : World)
    (url : URL) response next state' w' :
  Response.ok response = true ->
  respond P state w url response = (Continue next, state', w') ->
  advances state state'.
Proof.
  unfold respond. intros Hok H. rewrite Hok in H. cbn [negb] in H.
  destruct (match Response.contentType response with
            | Some c => if truthy_string c then Some c else None
            | None => None
            end) as [c|].
  - destruct (contentTypeOf P c) as [type|]; [|discriminate H].
    destruct (String.eqb type "text/html").
    + exact (handleTextHtml_continue _ _ _ _ _ _ _ _ H).
    + unfold handleUnknown in H. split_result H.
  - unfold handleUnknown in H. split_result H.
Qed.

Lemma budget_after_redirect (state state' : State) :
  (redirects state <= maxRedirects state)%Z ->
  redirects state' = (redirects state + 1)%Z ->
  retries state' = 0%Z ->
  maxRedirects state' = maxRedirects state ->
  maxRetries state' = maxRetries state ->
  budget state' < budget state.
Proof.
  intros Hceil Hr Ht Hmr Hmt. unfold budget. rewrite Hr, Ht, Hmr, Hmt.
  replace (Z.to_nat (maxRedirects state + 1 - redirects state))
    with (S (Z.to_nat (maxRedirects state + 1 - (redirects state + 1))))
    by lia.
  rewrite Nat.mul_succ_l. rewrite Z.sub_0_r. lia.
Qed.

(** On a calm network every activation that goes on lowers the budget. *)
Lemma hop_decreases (P : Platform) (net : Network) (state : State)
    (w : World) (url : URL) next state' w' :
  calm net ->
  hop P net state w url = (Continue next, state', w') ->
  budget state' < budget state.
Proof.
  intros Hcalm. unfold hop. intros H.
  destruct (maxRedirects state <? redirects state)%Z eqn:Eceil;
    [discriminate H|].
  apply Z.ltb_ge in Eceil.
  destruct (net (requests w) url) as [error | response] eqn:Enet.
  { destruct (retries state <? maxRetries state)%Z eqn:Et; [|discriminate H].
    apply Z.ltb_lt in Et. unfold retry in H. inversion H; subst.
    unfold budget. cbn [maxRedirects maxRetries redirects retries with_retries].
    lia. }
  cbv zeta in H.
  match type of H with
  | context [match ?l with Some _ => _ | None => _ end] =>
      destruct l as [location|] eqn:El
  end.
  - destruct (construct P location (Some url)) as [redirect|e];
      [|discriminate H].
    change (permanent (with_retries state 0)) with (permanent state) in H.
    destruct ((Response.status response =? 301)%Z
              || (Response.status response =? 308)%Z);
      destruct (permanent state);
      destruct (truthy_string (hash url));
      inversion H; subst;
      (apply budget_after_redirect; [exact Eceil | reflexivity ..]).
  - destruct (Hcalm _ _ _ Enet) as [Hok | [Hclient | [H3 [location [Hloc Hne]]]]].
    + destruct (respond_continue _ _ _ _ _ _ _ _ Hok H) as [Hr [Ht [Hmr Hmt]]].
      apply budget_after_redirect; assumption.
    + rewrite respond_not_ok in H.
      * replace (Response.status response <? 400)%Z with false in H
          by (symmetry; apply Z.ltb_ge; lia).
        replace (500 <=? Response.status response)%Z with false in H
          by (symmetry; apply Z.leb_gt; lia).
        rewrite andb_false_r in H. discriminate H.
      * unfold Response.ok.
        replace (Response.status response <=? 299)%Z with false
          by (symmetry; apply Z.leb_gt; lia).
        apply andb_false_r.
    + replace (300 <=? Response.status response)%Z with true in El
        by (symmetry; apply Z.leb_le; lia).
      replace (Response.status response <? 400)%Z with true in El
        by (symmetry; apply Z.ltb_lt; lia).
      cbn [andb] in El. rewrite Hloc, (truthy_nonempty location Hne) in El.
      discriminate El.
Qed.

(** On a calm network the engine finishes within the budget of the state
    it starts from. *)
Lemma run_finishes (P : Platform) (net : Network) :
  calm net ->
  forall fuel state w url,
    budget state <= fuel ->
    exists s state' w',
      deadOrAliveInternal P net fuel state w url = (s, state', w')
      /\ forall next, s <> Continue next.
Proof.
  intros Hcalm. induction fuel as [|fuel IH]; intros state w url Hfuel.
  - exfalso. unfold budget in Hfuel. rewrite Nat.add_1_r in Hfuel.
    exact (Nat.nle_succ_0 _ Hfuel).
  - cbn [deadOrAliveInternal].
    destruct (hop P net state w url) as [[s1 st1] w1] eqn:Eh.
    destruct s1.
    + exists (Return result), st1, w1. split; [reflexivity|discriminate].
    + exists (Throw e), st1, w1. split; [reflexivity|discriminate].
    + apply IH. pose proof (hop_decreases _ _ _ _ _ _ _ _ Hcalm Eh). lia.
Qed.

(** X2: on a calm network [deadOrAlive] returns, for every input and every
    configuration whose ceilings are integers, once the bound reaches the
    budget of the initial state. *)
Lemma deadOrAlive_returns (P : Platform) (net : Network)
    (href_ : string + URL) (options : option Options) (fuel : nat) :
  calm net ->
  budget (initialState options) <= fuel ->
  exists result w, deadOrAlive P net fuel href_ options = (Some result, w).
Proof.
  intros Hcalm Hfuel. unfold deadOrAlive.
  destruct (match href_ with
            | inl text => construct P text None
            | inr parsed => Normal parsed
            end) as [url|cause].
  - destruct (run_finishes P net Hcalm fuel (initialState options) noWorld url
                Hfuel) as [s [st [w [Hrun Hdone]]]].
    rewrite Hrun. destruct s.
    + now eexists; eexists.
    + now eexists; eexists.
    + now destruct (Hdone next).
  - now eexists; eexists.
Qed.

Lemma deadOrAlive_returns_witness :
  exists result w,
    deadOrAlive Example.platform
      (fun _ _ => inr (Example.redirect 301 "https://example.com/0" "/0"))
      14 (inr (Example.page 0)) None = (Some result, w).
Proof.
  apply (deadOrAlive_returns Example.platform
           (fun _ _ => inr (Example.redirect 301 "https://example.com/0" "/0"))
           (inr (Example.page 0)) None 14).
  - intros n url response H. inversion H. right. right.
    split; [cbn; lia|]. exists "/0". split; [reflexivity|discriminate].
  - vm_compute. lia.
Defined.

(** C5 at two failing inputs.  A redirect whose [location] does not parse
    gives a dead result whose first (and only) message is the native error
    of the URL constructor, not a fatal diagnostic.  A server that answers
    every request with status 503 gives no result at all: for every bound
    the call is still pending. *)
Theorem dead_result_without_fatal_diagnostic :
  (exists w,
     deadOrAlive Example.platform
       (Example.script
          [inr (Example.redirect 302 "https://example.com/0" "https://[")])
       3 (inr (Example.page 0)) None
     = (Some (Result.mk [TypeError "Invalid URL"] None dead None None), w)
     /\ ~ fatalDiagnostic (TypeError "Invalid URL"))
  /\ forall fuel,
       fst (deadOrAlive Example.platform
              (fun _ _ => inr (Example.reply 503 "https://example.com/0"))
              fuel (inr (Example.page 0)) None)
       = None.
Proof.
  split.
  - eexists. split; [vm_compute; reflexivity|].
    intros [m [H _]]. discriminate H.
  - intros fuel. unfold deadOrAlive.
    destruct (retriable_response_loops Example.platform
                (fun _ _ => inr (Example.reply 503 "https://example.com/0"))
                (Example.page 0) (Example.reply 503 "https://example.com/0"))
      with (fuel := fuel) (state := initialState None) (w := noWorld)
      as [st [w [Hrun Hreq]]].
    + reflexivity.
    + reflexivity.
    + right; left. cbn. lia.
    + right. cbn. lia.
    + cbn. lia.
    + cbn. lia.
    + rewrite Hrun. reflexivity.
Qed.

(* ================================================================== *)
(** * Further properties of the engine *)

Ltac order_facts :=
  repeat match goal with
         | Hx : (_ <? _)%Z = true |- _ => apply Z.ltb_lt in Hx
         | Hx : (_ <? _)%Z = false |- _ => apply Z.ltb_ge in Hx
         end.

Lemma run_configuration (P : Platform) (net : Network) (fuel : nat)
    (state : State) (w : World) (url : URL) s state' w' :
  deadOrAliveInternal P net fuel state w url = (s, state', w') ->
  sameConfiguration state state'.
Proof.
  intros Erun.
  eapply (run_keeps P net (fun st _ => sameConfiguration state st));
    [|exact Erun|].
  - intros st1 w1 url1 s1 st2 w2 Hhop Hsame.
    pose proof (hop_configuration _ _ _ _ _ _ _ _ Hhop) as Hstep.
    unfold sameConfiguration in *.
    repeat match goal with Hx : _ /\ _ |- _ => destruct Hx end.
    repeat split; congruence.
  - repeat split.
Qed.

(** X3: The engine never touches the configuration: after any number of
    activations, finished or not, the allowlist, the toggles, the two
    ceilings, the back-off function, the timeout and the user agent of the
    state are the ones it started with. *)
Theorem configuration_is_never_modified (P : Platform) (net : Network)
    (fuel : nat) (state : State) (w : World) (url : URL) :
  sameConfiguration state
    (snd (fst (deadOrAliveInternal P net fuel state w url))).
Proof.
  destruct (deadOrAliveInternal P net fuel state w url) as [[s state'] w']
    eqn:Erun.
  cbn [fst snd]. exact (run_configuration _ _ _ _ _ _ _ _ _ Erun).
Qed.

(* ------------------------------------------------------------------ *)
(** ** The retry counter and the back-off *)

Ltac bool_facts :=
  repeat match goal with
         | Hx : (_ && _)%bool = true |- _ =>
             apply andb_true_iff in Hx; destruct Hx
         | Hx : (_ <? _)%Z = true |- _ => apply Z.ltb_lt in Hx
         | Hx : (_ <? _)%Z = false |- _ => apply Z.ltb_ge in Hx
         end.



(* ------------------------------------------------------------------ *)
(** ** The redirect counter *)

Lemma hop_redirects (P : Platform) (net : Network) (m : Z)
    (state : State) (w : World) (url : URL) s state' w' :
  hop P net state w url = (s, state', w') ->
  redirectsWithin m state w -> redirectsWithin m state' w'.
Proof.
  intros H Hinv. hop_cases H; destruct Hinv as [Hm [Hr Hb]];
    unfold redirectsWithin, hopsIn in *;
    cbn [maxRedirects redirects events with_retries with_redirects
         with_permanent with_urls with_messages push emit request
         List.filter isHop length] in *;
    bool_facts;
    (split; [exact Hm|]); split; lia.
Qed.

(** The number of redirect records is within the ceiling. *)
Lemma records_within_ceiling (P : Platform) (net : Network)
    (fuel : nat) (href_ : string + URL) (options : option Options) :
  (Z.of_nat (length (followed (snd (deadOrAlive P net fuel href_ options))))
   <= Z.max 0 (maxRedirects (initialState options) + 1))%Z.
Proof.
  unfold deadOrAlive, followed. rewrite length_rev.
  destruct (match href_ with
            | inl text => construct P text None
            | inr parsed => Normal parsed
            end) as [url|cause]; [|cbn; lia].
  destruct (deadOrAliveInternal P net fuel (initialState options) noWorld url)
    as [[s state'] w'] eqn:Erun.
  assert (Hinv : redirectsWithin (maxRedirects (initialState options)) state' w').
  { eapply (run_keeps P net
              (redirectsWithin (maxRedirects (initialState options))));
      [|exact Erun|].
    - intros st1 w1 url1 s1 st2 w2 Hhop. exact (hop_redirects _ _ _ _ _ _ _ _ _ Hhop).
    - split; [reflexivity|]. split; [reflexivity|]. cbn. lia. }
  destruct Hinv as [_ [_ Hb]].
  destruct s; exact Hb.
Qed.

(** X5: Whatever the network answers, and for an integer ceiling, among
    its answers to the requests of a run at most [maxRedirects + 1] are
    redirects (HTTP redirects with a usable location and followed meta
    refreshes together): after that many the engine makes no further
    request. *)
Theorem redirects_followed_within_ceiling (P : Platform) (net : Network)
    (fuel : nat) (href_ : string + URL) (options : option Options) :
  (Z.of_nat
     (length
        (answered P net options href_
           (requests (snd (deadOrAlive P net fuel href_ options)))))
   <= Z.max 0 (maxRedirects (initialState options) + 1))%Z.
Proof.
  rewrite <- deadOrAlive_trail. apply records_within_ceiling.
Qed.


(* ------------------------------------------------------------------ *)
(** ** Reading bodies and discovering URLs *)

Lemma hop_urls (P : Platform) (net : Network) (state : State) (w : World)
    (url : URL) s state' w' :
  hop P net state w url = (s, state', w') ->
  urlsExplained state w -> urlsExplained state' w'.
Proof.
  intros H Hinv. hop_cases H; unfold urlsExplained in *;
    cbn [urls findUrls events with_retries with_redirects with_permanent
         with_urls with_messages push emit request In] in *;
    first
      [ destruct Hinv as [Hn | [Hf [r Hr]]];
        [left; exact Hn | right; split; [exact Hf | exists r; tauto]]
      | right; split; [assumption | eexists; left; reflexivity]
      | right; split; [assumption | eexists; right; left; reflexivity] ].
Qed.

(** X6: The discovered URLs of a result are explained by the run: they are
    absent whenever URL discovery is off, and when they are present a
    response body was read. *)
Theorem urls_only_from_inspected_html (P : Platform) (net : Network)
    (fuel : nat) (href_ : string + URL) (options : option Options)
    (result : Result.t) (w : World) :
  deadOrAlive P net fuel href_ options = (Some result, w) ->
  (findUrls (initialState options) = false -> Result.urls result = None)
  /\ (Result.urls result <> None -> exists r, In (BodyRead r) (events w)).
Proof.
  unfold deadOrAlive. intros H.
  destruct (match href_ with
            | inl text => construct P text None
            | inr parsed => Normal parsed
            end) as [url|cause].
  - destruct (deadOrAliveInternal P net fuel (initialState options) noWorld url)
      as [[s state'] w'] eqn:Erun.
    assert (Hinv : urlsExplained state' w').
    { eapply (run_keeps P net urlsExplained); [|exact Erun|].
      - intros st1 w1 url1 s1 st2 w2 Hhop. exact (hop_urls _ _ _ _ _ _ _ _ Hhop).
      - left. reflexivity. }
    destruct (run_configuration _ _ _ _ _ _ _ _ _ Erun) as [_ [_ [Hfind _]]].
    assert (Hboth : (findUrls (initialState options) = false ->
                     urls state' = None)
                    /\ (urls state' <> None ->
                        exists r, In (BodyRead r) (events w'))).
    { destruct Hinv as [Hn | [Hf Hr]].
      - split; [intros _; exact Hn | intros Hne; contradiction].
      - split; [intros Hoff; congruence | intros _; exact Hr]. }
    destruct s; inversion H; subst; exact Hboth.
  - inversion H; subst. cbn. split; [reflexivity | intros Hne; contradiction].
Qed.

Lemma urls_only_from_inspected_html_witness :
  (findUrls (initialState None) = false -> Some (@nil string) = None)
  /\ (Some (@nil string) <> None ->
      exists r,
        In (BodyRead r)
          [BodyRead "https://example.com/";
           Fetched (mkURL "https://example.com/#hi" "https://example.com" "/"
                      "#hi")]).
Proof.
  apply (urls_only_from_inspected_html Example.platform
           (Example.script
              [inr (Example.html "https://example.com/" "<h1 id=hi>")])
           5 (inl "https://example.com#hi") None
           (Result.mk [] None alive (Some "https://example.com/#hi") (Some []))
           (mkWorld 1
              [BodyRead "https://example.com/";
               Fetched (mkURL "https://example.com/#hi" "https://example.com"
                          "/" "#hi")])).
  vm_compute. reflexivity.
Defined.

Lemma contentType_header (declared : option string) (header : string) :
  match declared with
  | Some c => if truthy_string c then Some c else None
  | None => None
  end = Some header ->
  declared = Some header.
Proof.
  destruct declared as [c|]; [|discriminate].
  destruct (truthy_string c); [|discriminate]. intros H. exact H.
Qed.

(** A hop reads a body only of an ok response declared as [text/html]. *)
Lemma hop_body (P : Platform) (net : Network) (state : State) (w : World)
    (url : URL) s state' w' :
  hop P net state w url = (s, state', w') ->
  forall r, In (BodyRead r) (events w') ->
    In (BodyRead r) (events w) \/ htmlAnswer P net r.
Proof.
  intros H r Hin.
  unfold hop, respond, handleTextHtml, inspectHtml, checkFragment,
    handleUnknown, retry in H.
  split_result H;
    cbn [events emit request In] in Hin;
    repeat match goal with
           | Hx : _ \/ _ |- _ => destruct Hx
           end;
    try discriminate; try (left; assumption);
    right;
    match goal with
    | Hx : BodyRead _ = BodyRead _ |- _ => inversion Hx; subst; clear Hx
    end;
    repeat match goal with
           | Hx : negb _ = false |- _ => apply negb_false_iff in Hx
           | Hx : String.eqb _ _ = true |- _ => apply String.eqb_eq in Hx
           | Hx : match Response.contentType _ with _ => _ end = Some _ |- _ =>
               apply contentType_header in Hx
           end;
    subst;
    eexists; eexists; eexists; eexists;
    (split; [eassumption|]); (split; [eassumption|]);
    (split; [eassumption|]); (split; [eassumption|]); reflexivity.
Qed.

(** X7: A body is read only of an ok response that declares itself as
    [text/html]: every body read in a run belongs to such an answer of the
    network.  Responses that are not ok, redirects, and responses of another
    or of no declared type are never read. *)
Theorem body_read_only_of_html (P : Platform) (net : Network) (fuel : nat)
    (href_ : string + URL) (options : option Options) (r : string) :
  In (BodyRead r) (events (snd (deadOrAlive P net fuel href_ options))) ->
  htmlAnswer P net r.
Proof.
  unfold deadOrAlive.
  destruct (match href_ with
            | inl text => construct P text None
            | inr parsed => Normal parsed
            end) as [url|cause]; [|intros []].
  destruct (deadOrAliveInternal P net fuel (initialState options) noWorld url)
    as [[s state'] w'] eqn:Erun.
  assert (Hinv : forall x, In (BodyRead x) (events w') -> htmlAnswer P net x).
  { eapply (run_keeps P net
              (fun _ wd => forall x, In (BodyRead x) (events wd) ->
                                     htmlAnswer P net x));
      [|exact Erun|].
    - intros st1 w1 url1 s1 st2 w2 Hhop Hold x Hx.
      destruct (hop_body _ _ _ _ _ _ _ _ Hhop x Hx) as [Hbefore | Hnew];
        [exact (Hold x Hbefore) | exact Hnew].
    - intros x []. }
  intros Hin. apply Hinv. destruct s; exact Hin.
Qed.

Lemma body_read_only_of_html_witness :
  htmlAnswer Example.platform
    (Example.script [inr (Example.html "https://example.com/" "<h1 id=hi>")])
    "https://example.com/".
Proof.
  apply (body_read_only_of_html Example.platform
           (Example.script
              [inr (Example.html "https://example.com/" "<h1 id=hi>")])
           5 (inl "https://example.com#hi") None "https://example.com/").
  vm_compute. auto 10.
Defined.

Lemma hop_no_body (P : Platform) (net : Network) (state : State) (w : World)
    (url : URL) s state' w' :
  hop P net state w url = (s, state', w') ->
  inspectionOff state /\ noBodyRead w ->
  inspectionOff state' /\ noBodyRead w'.
Proof.
  intros H [[Hc [Hf Hm]] Hno].
  unfold hop, respond, handleTextHtml in H.
  cbn [checkAnchor findUrls followMetaHttpEquiv with_retries] in H.
  rewrite Hc, Hf, Hm in H. cbn [andb orb negb] in H.
  unfold handleUnknown, retry in H.
  split_result H;
    (split;
     [repeat split; assumption
     | intros r Hin; cbn [events emit request In] in Hin;
       repeat match goal with
              | Hx : _ \/ _ |- _ => destruct Hx
              end;
       try discriminate; exact (Hno r ltac:(assumption))]).
Qed.

(** X8: With [checkAnchor], [findUrls] and [followMetaHttpEquiv] all off,
    no body is read in the whole run, whatever the network answers and
    whether or not URLs carry a fragment. *)
Theorem fast_path_never_reads (P : Platform) (net : Network) (fuel : nat)
    (href_ : string + URL) (options : option Options) (r : string) :
  inspectionOff (initialState options) ->
  ~ In (BodyRead r) (events (snd (deadOrAlive P net fuel href_ options))).
Proof.
  intros Hoff. unfold deadOrAlive.
  destruct (match href_ with
            | inl text => construct P text None
            | inr parsed => Normal parsed
            end) as [url|cause]; [|intros []].
  destruct (deadOrAliveInternal P net fuel (initialState options) noWorld url)
    as [[s state'] w'] eqn:Erun.
  assert (Hinv : inspectionOff state' /\ noBodyRead w').
  { eapply (run_keeps P net (fun st wd => inspectionOff st /\ noBodyRead wd));
      [|exact Erun|].
    - intros st1 w1 url1 s1 st2 w2 Hhop. exact (hop_no_body _ _ _ _ _ _ _ _ Hhop).
    - split; [exact Hoff | intros x []]. }
  destruct Hinv as [_ Hno]. destruct s; exact (Hno r).
Qed.

Lemma fast_path_never_reads_witness :
  ~ In (BodyRead "https://example.com/")
      (events (snd (deadOrAlive Example.platform
                      (Example.script [inr Example.homePage]) 5
                      (inl "https://example.com#hi")
                      (Some (mkOptions None (Some false) (Some false)
                               (Some false) None None None None None None))))).
Proof.
  apply (fast_path_never_reads Example.platform
           (Example.script [inr Example.homePage]) 5
           (inl "https://example.com#hi")
           (Some (mkOptions None (Some false) (Some false) (Some false)
                    None None None None None None))
           "https://example.com/").
  repeat split.
Defined.

(* ------------------------------------------------------------------ *)
(** ** Requests that fail *)

Lemma failed_requests (f : Z -> Z) (url : URL) :
  forall n t w, requests (failed f url t n w) = requests w + n.
Proof.
  induction n as [|n IH]; intros t w; simpl.
  - now rewrite Nat.add_0_r.
  - rewrite IH. cbn. lia.
Qed.


Lemma with_retries_same (state : State) :
  with_retries state (retries state) = state.
Proof. now destruct state. Qed.

(** [n] failed requests in a row, with the retries to spare, are [n]
    activations that end in a retry. *)
Lemma failures_run (P : Platform) (net : Network) (url : URL) :
  forall n state w fuel,
    (forall i, i < n -> exists e, net (requests w + i) url = inl e) ->
    (redirects state <= maxRedirects state)%Z ->
    (retries state + Z.of_nat n <= maxRetries state)%Z ->
    deadOrAliveInternal P net (n + fuel) state w url
    = deadOrAliveInternal P net fuel
        (with_retries state (retries state + Z.of_nat n))
        (failed (sleep state) url (retries state) n w) url.
Proof.
  induction n as [|n IH]; intros state w fuel Hfail Hceil Hbudget.
  - cbn [Nat.add failed Z.of_nat]. now rewrite Z.add_0_r, with_retries_same.
  - cbn [Nat.add deadOrAliveInternal]. unfold hop.
    replace (maxRedirects state <? redirects state)%Z with false
      by (symmetry; apply Z.ltb_ge; exact Hceil).
    destruct (Hfail 0 (Nat.lt_0_succ n)) as [e He].
    rewrite Nat.add_0_r in He. rewrite He.
    replace (retries state <? maxRetries state)%Z with true
      by (symmetry; apply Z.ltb_lt; lia).
    unfold retry. rewrite IH.
    + cbn [failed sleep retries with_retries]. f_equal.
      unfold with_retries. cbn. f_equal. lia.
    + intros i Hi. destruct (Hfail (S i)) as [e' He']; [lia|].
      exists e'. cbn [requests emit request].
      replace (S (requests w) + i) with (requests w + S i) by lia. exact He'.
    + exact Hceil.
    + cbn [retries with_retries maxRetries]. lia.
Qed.



(** X10: A request that fails at most [maxRetries] times and then gets a
    2xx response whose handling returns gives an alive result with the
    URL returned, after one request per failure and one more. *)
Theorem transient_failures_are_retried (P : Platform) (net : Network)
    (url : URL) (options : option Options) (j fuel : nat)
    (response : Response.t) (final : URL) :
  (forall i, i < j -> exists e, net i url = inl e) ->
  net j url = inr response ->
  returns P (initialState options) url response final ->
  (Z.of_nat j <= maxRetries (initialState options))%Z ->
  (0 <= maxRedirects (initialState options))%Z ->
  j < fuel ->
  exists result w,
    deadOrAlive P net fuel (inr url) options = (Some result, w)
    /\ Result.status result = alive
    /\ Result.url result = Some (href final)
    /\ requests w = S j.
Proof.
  intros Hfail Hnet Hreturns Hbudget Hceil Hfuel.
  unfold deadOrAlive.
  replace fuel with (j + S (fuel - S j)) by lia.
  rewrite (failures_run P net url j (initialState options) noWorld).
  - cbn [deadOrAliveInternal]. unfold hop.
    cbn [maxRedirects redirects with_retries].
    change (redirects (initialState options)) with 0%Z.
    change (retries (initialState options)) with 0%Z.
    replace (maxRedirects (initialState options) <? 0)%Z with false
      by (symmetry; apply Z.ltb_ge; exact Hceil).
    rewrite failed_requests. cbn [requests noWorld Nat.add]. rewrite Hnet.
    pose proof (proj1 Hreturns) as Hok.
    unfold Response.ok in Hok. apply andb_true_iff in Hok.
    destruct Hok as [Hlo Hhi]. apply Z.leb_le in Hlo, Hhi.
    replace (300 <=? Response.status response)%Z with false
      by (symmetry; apply Z.leb_gt; lia).
    cbn [andb].
    match goal with
    | |- context [respond P ?st ?wd url response] =>
        destruct (returns_at P (initialState options) st wd url response
                    final Hreturns) as [st' [w' [Hr Hw]]];
        [repeat split|]
    end.
    rewrite Hr. eexists. eexists. split; [reflexivity|].
    split; [reflexivity|]. split; [reflexivity|].
    rewrite Hw. cbn [requests request]. rewrite failed_requests. reflexivity.
  - intros i Hi. exact (Hfail i Hi).
  - change (redirects (initialState options)) with 0%Z. exact Hceil.
  - change (retries (initialState options)) with 0%Z. lia.
Qed.

Lemma transient_failures_are_retried_witness :
  exists result w,
    deadOrAlive Example.platform
      (Example.script
         [inl "refused"; inr (Example.html "https://example.com/" "<h1 id=hi>")])
      5 (inr Example.hiUrl) None
    = (Some result, w)
    /\ Result.status result = alive
    /\ Result.url result = Some "https://example.com/#hi"
    /\ requests w = 2.
Proof.
  apply (transient_failures_are_retried Example.platform
           (Example.script
              [inl "refused";
               inr (Example.html "https://example.com/" "<h1 id=hi>")])
           Example.hiUrl None 1 5
           (Example.html "https://example.com/" "<h1 id=hi>")
           Example.hiUrl).
  - intros i Hi. exists "refused". destruct i as [|i]; [reflexivity|lia].
  - reflexivity.
  - split; [reflexivity|]. eexists. eexists. vm_compute. reflexivity.
  - cbn. lia.
  - cbn. lia.
  - lia.
Defined.

(** X11: A first response with a 4xx status is never retried, whatever
    [maxRetries] is: the result is dead after exactly one request and no
    sleep, and its only message is the fatal [dead] diagnostic with the
    status, the status text and the response URL. *)
Theorem client_error_is_dead_at_once (P : Platform) (net : Network)
    (url : URL) (options : option Options) (fuel : nat)
    (response : Response.t) :
  net 0 url = inr response ->
  (400 <= Response.status response < 500)%Z ->
  (0 <= maxRedirects (initialState options))%Z ->
  0 < fuel ->
  deadOrAlive P net fuel (inr url) options
  = (Some (Result.mk [Message (deadDiagnostic response)] None dead None None),
     mkWorld 1 [Fetched url]).
Proof.
  intros Hnet Hstatus Hceil Hfuel.
  destruct fuel as [|fuel]; [lia|].
  unfold deadOrAlive. cbn [deadOrAliveInternal]. unfold hop.
  change (redirects (initialState options)) with 0%Z.
  replace (maxRedirects (initialState options) <? 0)%Z with false
    by (symmetry; apply Z.ltb_ge; exact Hceil).
  cbn [requests noWorld]. rewrite Hnet.
  replace (Response.status response <? 400)%Z with false
    by (symmetry; apply Z.ltb_ge; lia).
  rewrite andb_false_r.
  rewrite respond_not_ok.
  - replace (Response.status response <? 400)%Z with false
      by (symmetry; apply Z.ltb_ge; lia).
    replace (500 <=? Response.status response)%Z with false
      by (symmetry; apply Z.leb_gt; lia).
    rewrite andb_false_r. reflexivity.
  - unfold Response.ok.
    replace (Response.status response <=? 299)%Z with false
      by (symmetry; apply Z.leb_gt; lia).
    apply andb_false_r.
Qed.

Lemma client_error_is_dead_at_once_witness :
  deadOrAlive Example.platform
    (Example.script [inr (Example.reply 404 "https://example.com/")]) 5
    (inr Example.home) None
  = (Some (Result.mk
             [Message (deadDiagnostic (Example.reply 404 "https://example.com/"))]
             None dead None None),
     mkWorld 1 [Fetched Example.home]).
Proof.
  apply (client_error_is_dead_at_once Example.platform
           (Example.script [inr (Example.reply 404 "https://example.com/")])
           Example.home None 5 (Example.reply 404 "https://example.com/")).
  - reflexivity.
  - cbn. lia.
  - cbn. lia.
  - lia.
Defined.

(* ------------------------------------------------------------------ *)
(** ** Answers that are not HTML, and fragments that need no anchor *)

(** X12: an ok answer that is not HTML is alive after one request, at the
    URL of the response; a fragment on the checked URL is lost, which is
    reported as a warning when anchors are checked.  The body is not
    read. *)
Theorem non_html_answer_is_alive (P : Platform) (net : Network)
    (url : URL) (options : option Options) (fuel : nat)
    (response : Response.t) (found : URL) :
  net 0 url = inr response ->
  Response.ok response = true ->
  otherType P response = true ->
  new_URL P (Response.url response) None = Some found ->
  (0 <= maxRedirects (initialState options))%Z ->
  0 < fuel ->
  deadOrAlive P net fuel (inr url) options
  = (Some (Result.mk
             (if checkAnchor (initialState options) && truthy_string (hash url)
              then [Message (lostHashDiagnostic url
                               (Response.contentType response))]
              else [])
             None alive (Some (href found)) None),
     mkWorld 1 [Fetched url]).
Proof.
  intros Hnet Hok Hother Hurl Hceil Hfuel.
  destruct fuel as [|fuel]; [lia|].
  unfold deadOrAlive. cbn [deadOrAliveInternal]. unfold hop.
  change (redirects (initialState options)) with 0%Z.
  replace (maxRedirects (initialState options) <? 0)%Z with false
    by (symmetry; apply Z.ltb_ge; exact Hceil).
  cbn [requests noWorld]. rewrite Hnet.
  assert (Hstatus : (200 <= Response.status response <= 299)%Z).
  { unfold Response.ok in Hok. apply andb_true_iff in Hok.
    destruct Hok as [H1 H2]. apply Z.leb_le in H1, H2. lia. }
  replace (300 <=? Response.status response)%Z with false
    by (symmetry; apply Z.leb_gt; lia).
  cbn [andb]. unfold respond. rewrite Hok. cbn [negb].
  unfold otherType, lostHashDiagnostic in *.
  destruct (Response.contentType response) as [header|].
  - destruct (truthy_string header).
    + destruct (contentTypeOf P header) as [type|]; [|discriminate].
      destruct (String.eqb type "text/html"); [discriminate|].
      unfold handleUnknown, construct. rewrite Hurl.
      cbn [checkAnchor with_retries].
      destruct (checkAnchor (initialState options) && truthy_string (hash url));
        reflexivity.
    + unfold handleUnknown, construct. rewrite Hurl.
      cbn [checkAnchor with_retries].
      destruct (checkAnchor (initialState options) && truthy_string (hash url));
        reflexivity.
  - unfold handleUnknown, construct. rewrite Hurl.
    cbn [checkAnchor with_retries].
    destruct (checkAnchor (initialState options) && truthy_string (hash url));
      reflexivity.
Qed.

Lemma non_html_answer_is_alive_witness :
  deadOrAlive Example.platform
    (Example.script
       [inr (Response.mk 200 "OK" "https://example.com/" None
               (Some "image/png") "")]) 5
    (inr Example.hiUrl) None
  = (Some (Result.mk
             [Message (lostHashDiagnostic Example.hiUrl (Some "image/png"))]
             None alive (Some "https://example.com/") None),
     mkWorld 1 [Fetched Example.hiUrl]).
Proof.
  apply (non_html_answer_is_alive Example.platform
           (Example.script
              [inr (Response.mk 200 "OK" "https://example.com/" None
                      (Some "image/png") "")])
           Example.hiUrl None 5
           (Response.mk 200 "OK" "https://example.com/" None
              (Some "image/png") "")
           Example.home).
  - reflexivity.
  - reflexivity.
  - reflexivity.
  - reflexivity.
  - cbn. lia.
  - lia.
Defined.

(** X13: a fragment that a rule of the allowlist accepts for the page needs
    no anchor: whatever the document holds, nothing is reported and the
    result is the URL of the response with the fragment. *)
Theorem allowlisted_fragment_needs_no_anchor (P : Platform) (state : State)
    (w : World) (url : URL) (response : Response.t) (tree : Root)
    (responseUrl : URL) (urlRe fragmentRe : string -> bool) :
  new_URL P (Response.url response) None = Some responseUrl ->
  In (urlRe, fragmentRe) (anchorAllowlist state) ->
  urlRe (origin responseUrl ++ pathname responseUrl) = true ->
  fragmentRe (slice (hash url) 1) = true ->
  checkFragment P state w url response tree
  = (Return (set_hash P responseUrl (hash url)), state, w).
Proof.
  intros Hurl Hin Hu Hf. unfold checkFragment, construct. rewrite Hurl.
  replace (existsb _ (anchorAllowlist state)) with true; [reflexivity|].
  symmetry. apply existsb_exists. exists (urlRe, fragmentRe).
  split; [exact Hin|]. now rewrite Hu, Hf.
Qed.

Lemma allowlisted_fragment_needs_no_anchor_witness :
  checkFragment Example.platform (initialState None) noWorld
    (mkURL "https://example.com/#:~:text=hi" "https://example.com" "/"
       "#:~:text=hi")
    Example.homePage []
  = (Return (set_hash Example.platform Example.home "#:~:text=hi"),
     initialState None, noWorld).
Proof.
  apply (allowlisted_fragment_needs_no_anchor Example.platform
           (initialState None) noWorld
           (mkURL "https://example.com/#:~:text=hi" "https://example.com" "/"
              "#:~:text=hi")
           Example.homePage [] Example.home anyCharacter
           (String.prefix ":~:")).
  - reflexivity.
  - left. reflexivity.
  - reflexivity.
  - reflexivity.
Defined.

(* ------------------------------------------------------------------ *)
(** ** The anchor index as a map *)

Lemma keys_map_set (map : AnchorMap) (key : string) (anchor : Anchor)
    (k : string) :
  In k (map_keys (map_set map key anchor)) <-> k = key \/ In k (map_keys map).
Proof.
  unfold map_keys. induction map as [|[k0 a0] rest IH]; simpl.
  - split; [intros [H | []]; now left | intros [H | []]; now left].
  - destruct (String.eqb k0 key) eqn:E; simpl.
    + apply String.eqb_eq in E. subst k0. intuition.
    + rewrite IH. intuition.
Qed.

Lemma NoDup_map_set (map : AnchorMap) (key : string) (anchor : Anchor) :
  NoDup (map_keys map) -> NoDup (map_keys (map_set map key anchor)).
Proof.
  induction map as [|[k0 a0] rest IH]; intros Hnd.
  - simpl. constructor; [intros []|constructor].
  - simpl. destruct (String.eqb k0 key) eqn:E.
    + exact Hnd.
    + change (NoDup (k0 :: map_keys (map_set rest key anchor))).
      change (NoDup (k0 :: map_keys rest)) in Hnd.
      inversion Hnd as [|? ? Hnot Hrest]; subst.
      constructor; [|now apply IH].
      intros Hin. apply keys_map_set in Hin. destruct Hin as [Hk | Hin].
      * apply String.eqb_neq in E. contradiction.
      * contradiction.
Qed.

Lemma set_wellKeyed (rcp : bool) (map : AnchorMap) (type : AnchorType)
    (value : string) (node : Node) :
  wellKeyed map -> wellKeyed (set rcp map type value node).
Proof.
  intros [Hnd Hkeys]. split.
  - unfold set. destruct (recordedAs rcp value) as [key kind].
    now apply NoDup_map_set.
  - intros k. rewrite found_set.
    unfold set. destruct (recordedAs rcp value) as [key kind]. cbn [fst].
    rewrite keys_map_set, Hkeys, orb_true_iff, String.eqb_eq.
    intuition.
Qed.

Lemma visitAnchor_wellKeyed (rcp : bool) (map : AnchorMap) (node : Node) :
  wellKeyed map -> wellKeyed (visitAnchor rcp map node).
Proof.
  intros H. unfold visitAnchor.
  destruct (truthy (property (properties node) "id"));
    destruct (String.eqb (tagName node) "a"
              && truthy (property (properties node) "name"));
    repeat apply set_wellKeyed; exact H.
Qed.

Lemma getAnchors_wellKeyed (tree : Root) (rcp : bool) :
  wellKeyed (getAnchors tree rcp).
Proof.
  unfold getAnchors.
  assert (Hfold : forall nodes map, wellKeyed map ->
            wellKeyed (fold_left (visitAnchor rcp) nodes map)).
  { induction nodes as [|node rest IH]; intros map Hmap; simpl.
    - exact Hmap.
    - apply IH. now apply visitAnchor_wellKeyed. }
  apply Hfold. split; [constructor|].
  intros k. split; [intros []|discriminate].
Qed.

(** X14: The anchor index never holds a name twice, and its names are
    exactly the fragments that the lookup finds: no name is stored without
    an owning element, and no owner is stored out of reach of the
    lookup. *)
Theorem anchor_names_are_the_found_fragments (tree : Root) (rcp : bool) :
  NoDup (map_keys (getAnchors tree rcp))
  /\ forall f,
       In f (map_keys (getAnchors tree rcp))
       <-> found (getAnchors tree rcp) f = true.
Proof. exact (getAnchors_wellKeyed tree rcp). Qed.

(** X15: The lookup for a fragment succeeds exactly when some element of
    the tree is recorded under it: through a non-empty [id], or, for an [a]
    element, through a non-empty [name], with the [user-content-] prefix
    taken off when it is resolved.  Nothing else makes a fragment
    resolve. *)
Theorem fragment_found_iff_recorded (tree : Root) (rcp : bool) (f : string) :
  found (getAnchors tree rcp) f = true
  <-> exists node,
        In node (elementsOf tree)
        /\ (recordedById rcp node f \/ recordedByName rcp node f).
Proof.
  rewrite found_getAnchors, existsb_exists.
  unfold recordedById, recordedByName, owns.
  split.
  - intros [node [Hin Hown]]. exists node. split; [exact Hin|].
    apply orb_true_iff in Hown. destruct Hown as [Hid | Hname].
    + left. apply andb_true_iff in Hid. destruct Hid as [Ht He].
      now apply String.eqb_eq in He.
    + right. apply andb_true_iff in Hname. destruct Hname as [Hta He].
      apply andb_true_iff in Hta. destruct Hta as [Htag Ht].
      apply String.eqb_eq in Htag, He. now repeat split.
  - intros [node [Hin [[Ht He] | [Htag [Ht He]]]]]; exists node;
      (split; [exact Hin|]); apply orb_true_iff.
    + left. rewrite Ht, He. now rewrite String.eqb_refl.
    + right. rewrite Htag, Ht, He. now rewrite !String.eqb_refl.
Qed.

(* ------------------------------------------------------------------ *)
(** ** The suggestion engine, continued *)

Lemma insert_perm (x : ValueScoreTuple) (l : list ValueScoreTuple) :
  Permutation (insert x l) (x :: l).
Proof.
  induction l as [|y rest IH]; simpl.
  - apply Permutation_refl.
  - destruct (sort_negative y x).
    + eapply perm_trans; [apply perm_skip, IH | apply perm_swap].
    + apply Permutation_refl.
Qed.

Lemma sort_perm (l : list ValueScoreTuple) : Permutation (sort l) l.
Proof.
  unfold sort. induction l as [|x rest IH]; simpl; [apply perm_nil|].
  eapply perm_trans; [apply insert_perm | apply perm_skip, IH].
Qed.

(** Whatever the target, what [propose] returns are candidates. *)
Lemma propose_incl (P : Platform) (value : string) (ideas : list string)
    (d : string) :
  In d (propose P value ideas) -> In d ideas.
Proof.
  unfold propose. intros H. apply In_firstn in H.
  apply in_map_iff in H. destruct H as [t [Hpick Ht]].
  apply filter_In in Ht. destruct Ht as [Ht _].
  apply (Permutation_in t (sort_perm _)) in Ht.
  apply in_map_iff in Ht. destruct Ht as [d' [Hs Hd']].
  subst t. cbn in Hpick. now subst d'.
Qed.

(** X16: Every name that [propose] picks from the names of the anchor
    index is a fragment that resolves in the document: a proposal of the
    [missing-anchor] diagnostic never leads to another missing anchor. *)
Theorem proposals_resolve (P : Platform) (fragment : string) (tree : Root)
    (rcp : bool) (d : string) :
  In d (propose P fragment (map_keys (getAnchors tree rcp))) ->
  found (getAnchors tree rcp) d = true.
Proof.
  intros H. apply propose_incl in H.
  now apply (proj2 (getAnchors_wellKeyed tree rcp)).
Qed.

Lemma proposals_resolve_witness :
  found (getAnchors (Example.parseHtml Example.similarAnchors) true) "aaac"
  = true.
Proof.
  apply (proposals_resolve Example.platform "aaaa"
           (Example.parseHtml Example.similarAnchors) true "aaac").
  vm_compute. auto.
Defined.

(** X17: For the empty target every score is a division by zero
    ([Infinity] or [NaN]), no candidate passes the threshold, and [propose]
    returns nothing, whatever the candidates. *)
Theorem propose_of_empty_target (P : Platform) (ideas : list string) :
  propose P "" ideas = [].
Proof.
  unfold propose.
  rewrite (filter_constant filter_ false); [reflexivity|].
  intros t Ht. apply (Permutation_in t (sort_perm _)) in Ht.
  apply in_map_iff in Ht. destruct Ht as [d [Hs _]]. subst t.
  unfold filter_, score, divide. cbn [String.length snd].
  now destruct (Nat.eqb (levenshteinEditDistance P "" d) 0).
Qed.

(** X18: For a non-empty target the number of proposals is the number of
    candidates whose normalized distance is strictly below the threshold,
    capped at 4: a candidate that is close enough is only left out when
    four are returned. *)
Theorem propose_count (P : Platform) (value : string) (ideas : list string) :
  value <> "" ->
  length (propose P value ideas)
  = Nat.min 4 (length (List.filter (closeEnough P value) ideas)).
Proof.
  intros Hne. rewrite (propose_by_key P value Hne), length_firstn.
  now rewrite (Permutation_filter_length _ _ _ (sortByKey_perm _ ideas)).
Qed.

Lemma propose_count_witness :
  length (propose Example.platform "hello" ["help"; "world"; "hallo"; "hell"])
  = Nat.min 4
      (length (List.filter (closeEnough Example.platform "hello")
                 ["help"; "world"; "hallo"; "hell"])).
Proof.
  apply (propose_count Example.platform "hello"
           ["help"; "world"; "hallo"; "hell"]).
  discriminate.
Defined.

(* ------------------------------------------------------------------ *)
(** ** URL discovery *)

Lemma existsb_href (h : string) (urls : list string) :
  existsb (String.eqb h) urls = true <-> In h urls.
Proof.
  rewrite existsb_exists. split.
  - intros [x [Hin He]]. apply String.eqb_eq in He. now subst x.
  - intros Hin. exists h. split; [exact Hin | apply String.eqb_refl].
Qed.

Lemma NoDup_snoc {A : Type} (l : list A) (x : A) :
  NoDup l -> ~ In x l -> NoDup (l ++ [x]).
Proof.
  induction l as [|y rest IH]; intros Hnd Hnot; simpl.
  - constructor; [intros []|constructor].
  - inversion Hnd as [|? ? Hy Hrest]; subst.
    constructor.
    + intros Hin. apply in_app_or in Hin. destruct Hin as [Hin | [E | []]].
      * contradiction.
      * subst. apply Hnot. now left.
    + apply IH; [exact Hrest|]. intros Hin. apply Hnot. now right.
Qed.

Lemma add_In (P : Platform) (url : URL) (urls : list string) (s h : string) :
  In h (add P url urls (Str s)) <-> In h urls \/ resolvesTo P url s h.
Proof.
  unfold add, resolvesTo.
  destruct (new_URL P s (Some url)) as [found|].
  - destruct (existsb (String.eqb (href found)) urls) eqn:E.
    + apply existsb_href in E. split; [now left|].
      intros [Hin | [found' [Hf Hh]]]; [exact Hin|].
      inversion Hf; subst. exact E.
    + rewrite in_app_iff. split.
      * intros [Hin | [Hh | []]]; [now left|]. right. now exists found.
      * intros [Hin | [found' [Hf Hh]]]; [now left|].
        right. left. inversion Hf; subst. reflexivity.
  - split; [now left|]. intros [Hin | [found' [Hf _]]]; [exact Hin|discriminate].
Qed.

Lemma add_other (P : Platform) (url : URL) (urls : list string) (v : Scalar) :
  (forall s, v <> Str s) -> add P url urls v = urls.
Proof. destruct v; intros H; [now destruct (H s)|reflexivity|reflexivity]. Qed.

Lemma add_NoDup (P : Platform) (url : URL) (urls : list string) (v : Scalar) :
  NoDup urls -> NoDup (add P url urls v).
Proof.
  intros Hnd. destruct v as [s|n|b]; [|exact Hnd|exact Hnd].
  unfold add. destruct (new_URL P s (Some url)) as [found|]; [|exact Hnd].
  destruct (existsb (String.eqb (href found)) urls) eqn:E; [exact Hnd|].
  apply NoDup_snoc; [exact Hnd|].
  intros Hin. apply existsb_href in Hin. congruence.
Qed.

Lemma fold_add_In (P : Platform) (url : URL) (h : string) :
  forall items urls,
    In h (fold_left (add P url) items urls)
    <-> In h urls \/ exists s, In (Str s) items /\ resolvesTo P url s h.
Proof.
  induction items as [|v rest IH]; intros urls; simpl.
  - split; [now left | intros [H | [s [[] _]]]; exact H].
  - rewrite IH. destruct v as [s|n|b].
    + rewrite add_In. split.
      * intros [[Hin | Hr] | [s' [Hin Hr]]].
        -- now left.
        -- right. exists s. split; [now left | exact Hr].
        -- right. exists s'. split; [now right | exact Hr].
      * intros [Hin | [s' [[E | Hin] Hr]]].
        -- left. now left.
        -- inversion E; subst. left. now right.
        -- right. now exists s'.
    + cbn [add]. split.
      * intros [Hin | [s' [Hin Hr]]]; [now left|].
        right. exists s'. split; [now right | exact Hr].
      * intros [Hin | [s' [[E | Hin] Hr]]]; [now left|discriminate E|].
        right. now exists s'.
    + cbn [add]. split.
      * intros [Hin | [s' [Hin Hr]]]; [now left|].
        right. exists s'. split; [now right | exact Hr].
      * intros [Hin | [s' [[E | Hin] Hr]]]; [now left|discriminate E|].
        right. now exists s'.
Qed.

Lemma fold_add_NoDup (P : Platform) (url : URL) :
  forall items urls, NoDup urls -> NoDup (fold_left (add P url) items urls).
Proof.
  induction items as [|v rest IH]; intros urls Hnd; simpl;
    [exact Hnd | now apply IH, add_NoDup].
Qed.

Lemma findUrlsStep_In (P : Platform) (url : URL) (node : Node)
    (urls : list string) (key : string) (value : PropertyValue) (h : string) :
  In h (findUrlsStep P url node urls (key, value))
  <-> In h urls
      \/ exists test s,
           urlAttribute (urlAttributes P) key = Some test
           /\ isElement node test = true
           /\ carries value s
           /\ resolvesTo P url s h.
Proof.
  unfold findUrlsStep.
  destruct (urlAttribute (urlAttributes P) key) as [test|].
  - destruct (isElement node test) eqn:Eel.
    + destruct value as [[x|n|b]|items]; cbn [carries].
      * rewrite add_In. split.
        -- intros [Hin | Hr]; [now left|]. right. now exists test, x.
        -- intros [Hin | [test' [s [_ [_ [Hc Hr]]]]]]; [now left|].
           subst. now right.
      * split; [now left|]. intros [Hin | [_ [_ [_ [_ [[] _]]]]]]. exact Hin.
      * split; [now left|]. intros [Hin | [_ [_ [_ [_ [[] _]]]]]]. exact Hin.
      * rewrite fold_add_In. split.
        -- intros [Hin | [s [Hi Hr]]]; [now left|]. right. now exists test, s.
        -- intros [Hin | [test' [s [_ [_ [Hc Hr]]]]]]; [now left|].
           right. now exists s.
    + split; [now left|].
      intros [Hin | [test' [s [Ht [Hel _]]]]]; [exact Hin|].
      inversion Ht; subst. congruence.
  - split; [now left|].
    intros [Hin | [test' [s [Ht _]]]]; [exact Hin|discriminate].
Qed.

Lemma findUrlsStep_NoDup (P : Platform) (url : URL) (node : Node)
    (urls : list string) (entry : string * PropertyValue) :
  NoDup urls -> NoDup (findUrlsStep P url node urls entry).
Proof.
  intros Hnd. destruct entry as [key value]. unfold findUrlsStep.
  destruct (urlAttribute (urlAttributes P) key) as [test|]; [|exact Hnd].
  destruct (isElement node test); [|exact Hnd].
  destruct value as [[x|n|b]|items];
    [now apply add_NoDup | exact Hnd | exact Hnd | now apply fold_add_NoDup].
Qed.

Lemma findUrlsIn_step (P : Platform) (url : URL) (urls : list string)
    (node : Node) :
  findUrlsIn P url urls node
  = fold_left (findUrlsStep P url node) (properties node) urls.
Proof.
  reflexivity.
Qed.

Lemma findUrlsIn_In (P : Platform) (url : URL) (node : Node) (h : string)
    (urls : list string) :
  In h (findUrlsIn P url urls node) <-> In h urls \/ linksTo P url node h.
Proof.
  rewrite findUrlsIn_step. unfold linksTo.
  assert (Hfold : forall props acc,
            In h (fold_left (findUrlsStep P url node) props acc)
            <-> In h acc
                \/ exists key value test s,
                     In (key, value) props
                     /\ urlAttribute (urlAttributes P) key = Some test
                     /\ isElement node test = true
                     /\ carries value s
                     /\ resolvesTo P url s h).
  { induction props as [|[key value] rest IH]; intros acc; cbn [fold_left In].
    - split; [now left | intros [H | [? [? [? [? [[] _]]]]]]; exact H].
    - rewrite IH, findUrlsStep_In. split.
      + intros [[Hin | [test [s Hs]]] | [k [v [test [s [Hin Hs]]]]]].
        * now left.
        * right. exists key, value, test, s. split; [now left | exact Hs].
        * right. exists k, v, test, s. split; [now right | exact Hs].
      + intros [Hin | [k [v [test [s [[E | Hin] Hs]]]]]].
        * left. now left.
        * inversion E; subst. left. right. now exists test, s.
        * right. now exists k, v, test, s. }
  apply Hfold.
Qed.

Lemma findUrlsIn_NoDup (P : Platform) (url : URL) (node : Node)
    (urls : list string) :
  NoDup urls -> NoDup (findUrlsIn P url urls node).
Proof.
  rewrite findUrlsIn_step. revert urls.
  induction (properties node) as [|entry rest IH]; intros urls Hnd;
    cbn [fold_left]; [exact Hnd | now apply IH, findUrlsStep_NoDup].
Qed.

(** X19: The set that [findUrls] returns holds no URL twice, and it holds
    exactly the [href]s to which the strings of URL attributes resolve
    against the request URL: every string value (or string item of a list
    value) of a property that the table lists for the element's tag, and
    nothing else.  A value that does not parse is left out without an
    error. *)
Theorem findUrls_collects_resolved_attributes (P : Platform) (url : URL)
    (tree : Root) :
  NoDup (findUrls_ P url tree)
  /\ forall h,
       In h (findUrls_ P url tree)
       <-> exists node, In node (elementsOf tree) /\ linksTo P url node h.
Proof.
  unfold findUrls_.
  assert (Hfold : forall nodes acc,
            (NoDup acc -> NoDup (fold_left (findUrlsIn P url) nodes acc))
            /\ forall h,
                 In h (fold_left (findUrlsIn P url) nodes acc)
                 <-> In h acc
                     \/ exists node, In node nodes /\ linksTo P url node h).
  { induction nodes as [|node rest IH]; intros acc; cbn [fold_left In].
    - split; [auto|]. intros h.
      split; [now left | intros [H | [? [[] _]]]; exact H].
    - destruct (IH (findUrlsIn P url acc node)) as [IHnd IHin]. split.
      + intros Hnd. now apply IHnd, findUrlsIn_NoDup.
      + intros h. rewrite IHin, findUrlsIn_In. split.
        * intros [[Hin | Hl] | [n [Hin Hl]]].
          -- now left.
          -- right. exists node. split; [now left | exact Hl].
          -- right. exists n. split; [now right | exact Hl].
        * intros [Hin | [n [[E | Hin] Hl]]].
          -- left. now left.
          -- subst. left. now right.
          -- right. now exists n. }
  destruct (Hfold (elementsOf tree) []) as [Hnd Hin]. split.
  - apply Hnd. constructor.
  - intros h. rewrite Hin. split; [intros [[] | H]; exact H | now right].
Qed.

(* ------------------------------------------------------------------ *)
(** ** The refresh parser on structured input *)

Lemma length_append (a b : string) :
  String.length (a ++ b) = String.length a + String.length b.
Proof. induction a as [|c a IH]; simpl; [reflexivity | now rewrite IH]. Qed.

Lemma append_assoc (a b c : string) : (a ++ b) ++ c = a ++ b ++ c.
Proof. induction a as [|x a IH]; simpl; [reflexivity | now rewrite IH]. Qed.

Lemma append_empty (a : string) : a ++ "" = a.
Proof. induction a as [|x a IH]; simpl; [reflexivity | now rewrite IH]. Qed.

Lemma charCodeAt_append (a b : string) (i : nat) :
  charCodeAt (a ++ b) (String.length a + i) = charCodeAt b i.
Proof.
  unfold charCodeAt. induction a as [|x a IH]; simpl; [reflexivity|exact IH].
Qed.

Lemma slice_append (a b : string) (i : nat) :
  slice (a ++ b) (String.length a + i) = slice b i.
Proof. induction a as [|x a IH]; simpl; [reflexivity|exact IH]. Qed.

Lemma charCodeAt_head (a b : string) (i : nat) :
  i < String.length a -> charCodeAt (a ++ b) i = charCodeAt a i.
Proof.
  unfold charCodeAt. revert i. induction a as [|x a IH]; intros i Hi; simpl in *.
  - lia.
  - destruct i as [|i]; [reflexivity|]. apply IH. lia.
Qed.

Lemma everyCode_at (test : option nat -> bool) (s : string) (i : nat) :
  everyCode test s = true -> i < String.length s ->
  test (charCodeAt s i) = true.
Proof.
  unfold charCodeAt. revert i.
  induction s as [|c s IH]; intros i Hall Hi; simpl in *; [lia|].
  apply andb_true_iff in Hall. destruct Hall as [Hc Hrest].
  destruct i as [|i]; [exact Hc|]. apply IH; [exact Hrest|lia].
Qed.

(** The loop, started inside a run of code units that pass the test and
    that ends at [e], stops at [e]. *)
Lemma skip_rounds_to (test : option nat -> bool) (input : string) (e : nat) :
  e <= String.length input ->
  (e < String.length input -> test (charCodeAt input e) = false) ->
  forall rounds q,
    q <= e ->
    (forall i, q <= i < e -> test (charCodeAt input i) = true) ->
    e - q <= rounds ->
    skip_rounds test input rounds q = e.
Proof.
  intros He Hstop. induction rounds as [|rounds IH]; intros q Hq Hrun Hfuel.
  - simpl. lia.
  - simpl. destruct (Nat.eq_dec q e) as [-> | Hne].
    + destruct (Nat.ltb e (String.length input)) eqn:El; [|reflexivity].
      apply Nat.ltb_lt in El. now rewrite (Hstop El).
    + replace (Nat.ltb q (String.length input)) with true
        by (symmetry; apply Nat.ltb_lt; lia).
      rewrite (Hrun q) by lia. cbn [andb].
      apply IH; [lia | intros i Hi; apply Hrun; lia | lia].
Qed.

Lemma skip_while_to (test : option nat -> bool) (input : string) (q e : nat) :
  q <= e <= String.length input ->
  (forall i, q <= i < e -> test (charCodeAt input i) = true) ->
  (e < String.length input -> test (charCodeAt input e) = false) ->
  skip_while test input q = e.
Proof.
  intros [Hq He] Hrun Hstop. unfold skip_while.
  apply skip_rounds_to; try assumption. lia.
Qed.

(** The loop over a run [b] that sits between [a] and [c]. *)
Lemma skip_while_span (test : option nat -> bool) (a b c : string) :
  everyCode test b = true ->
  test (charCodeAt c 0) = false ->
  skip_while test (a ++ b ++ c) (String.length a)
  = String.length a + String.length b.
Proof.
  intros Hb Hc. apply skip_while_to.
  - rewrite !length_append. lia.
  - intros i Hi.
    replace i with (String.length a + (i - String.length a)) by lia.
    rewrite charCodeAt_append, charCodeAt_head by lia.
    apply everyCode_at; [exact Hb|lia].
  - intros _. rewrite charCodeAt_append.
    rewrite <- (Nat.add_0_r (String.length b)), charCodeAt_append. exact Hc.
Qed.

(** The loop never passes a position at which the test fails. *)
Lemma skip_rounds_within (test : option nat -> bool) (input : string)
    (e : nat) :
  (e < String.length input -> test (charCodeAt input e) = false) ->
  forall rounds q,
    q <= e -> q <= skip_rounds test input rounds q <= Nat.max e q.
Proof.
  intros Hstop. induction rounds as [|rounds IH]; intros q Hq; simpl; [lia|].
  destruct (Nat.ltb q (String.length input) && test (charCodeAt input q))
    eqn:E; [|lia].
  apply andb_true_iff in E. destruct E as [El Et]. apply Nat.ltb_lt in El.
  assert (q <> e) by (intros ->; rewrite (Hstop El) in Et; discriminate).
  specialize (IH (S q)). lia.
Qed.

(** The loop on a suffix: positions shift by the length of what is in
    front. *)
Lemma skip_rounds_suffix (test : option nat -> bool) (pre t : string) :
  forall r r' i,
    String.length t - i <= r ->
    String.length t - i <= r' ->
    skip_rounds test (pre ++ t) r (String.length pre + i)
    = String.length pre + skip_rounds test t r' i.
Proof.
  induction r as [|r IH]; intros r' i Hr Hr'.
  - simpl. destruct r' as [|r']; simpl; [reflexivity|].
    replace (Nat.ltb i (String.length t)) with false
      by (symmetry; apply Nat.ltb_ge; lia).
    reflexivity.
  - simpl. rewrite length_append, charCodeAt_append.
    replace (Nat.ltb (String.length pre + i)
               (String.length pre + String.length t))
      with (Nat.ltb i (String.length t))
      by (destruct (Nat.ltb_spec i (String.length t));
          symmetry; [apply Nat.ltb_lt | apply Nat.ltb_ge]; lia).
    destruct (Nat.ltb i (String.length t) && test (charCodeAt t i)) eqn:E.
    + apply andb_true_iff in E. destruct E as [El Et].
      apply Nat.ltb_lt in El.
      destruct r' as [|r']; [lia|]. simpl. rewrite Et.
      replace (Nat.ltb i (String.length t)) with true
        by (symmetry; apply Nat.ltb_lt; exact El).
      cbn [andb].
      replace (S (String.length pre + i)) with (String.length pre + S i)
        by lia.
      apply IH; lia.
    + destruct r' as [|r']; simpl; [reflexivity|]. now rewrite E.
Qed.

Lemma skip_while_suffix (test : option nat -> bool) (pre t : string)
    (i : nat) :
  skip_while test (pre ++ t) (String.length pre + i)
  = String.length pre + skip_while test t i.
Proof.
  unfold skip_while. apply skip_rounds_suffix; rewrite ?length_append; lia.
Qed.

Lemma skipQuotes_suffix (pre t : string) (i quote : nat) :
  skipQuotes (pre ++ t) (String.length pre + i) quote = skipQuotes t i quote.
Proof.
  unfold skipQuotes. rewrite charCodeAt_append.
  destruct (code_is (charCodeAt t i) 34 || code_is (charCodeAt t i) 39).
  - replace (S (String.length pre + i)) with (String.length pre + S i) by lia.
    now rewrite slice_append.
  - now rewrite slice_append.
Qed.

Lemma charCodeAt_append_0 (a b : string) :
  charCodeAt (a ++ b) (String.length a) = charCodeAt b 0.
Proof. now rewrite <- (charCodeAt_append a b 0), Nat.add_0_r. Qed.

Lemma slice_append_0 (a b : string) : slice (a ++ b) (String.length a) = b.
Proof.
  rewrite <- (Nat.add_0_r (String.length a)), slice_append.
  destruct b; reflexivity.
Qed.

Lemma skipQuotes_suffix_0 (pre t : string) (quote : nat) :
  skipQuotes (pre ++ t) (String.length pre) quote = skipQuotes t 0 quote.
Proof. now rewrite <- (skipQuotes_suffix pre t 0), Nat.add_0_r. Qed.

(** From the target on, the parser only looks at the target: two inputs
    with the same text from their target positions on give the same URL
    text. *)
Lemma urlString_suffix (pre pre' t : string) :
  targetPosition (pre ++ t) = Some (String.length pre) ->
  targetPosition (pre' ++ t) = Some (String.length pre') ->
  urlString (pre ++ t) = urlString (pre' ++ t).
Proof.
  intros Hp Hp'. unfold urlString. rewrite Hp, Hp'. cbv zeta.
  unfold skipAsciiWhitespace.
  assert (Hshape : forall p : string,
            (S (String.length p) = String.length p + 1)
            /\ (S (S (String.length p)) = String.length p + 2)
            /\ (S (S (S (String.length p))) = String.length p + 3))
    by (intros p; lia).
  destruct (Hshape pre) as [E1 [E2 E3]].
  destruct (Hshape pre') as [E1' [E2' E3']].
  rewrite E3, E3', E2, E2', E1, E1'.
  rewrite !skipQuotes_suffix_0, !charCodeAt_append_0, !slice_append_0.
  rewrite !skip_while_suffix, !charCodeAt_append.
  replace (S (String.length pre + skip_while asciiWhitespace t 3))
    with (String.length pre + S (skip_while asciiWhitespace t 3)) by lia.
  replace (S (String.length pre' + skip_while asciiWhitespace t 3))
    with (String.length pre' + S (skip_while asciiWhitespace t 3)) by lia.
  rewrite !skip_while_suffix, !skipQuotes_suffix. reflexivity.
Qed.

(** The classes of code units the parser tests for are disjoint. *)
Lemma code_classes (code : option nat) :
  (asciiWhitespace code = true ->
   asciiDigit code = false /\ asciiDigitOrDot code = false
   /\ commaOrSemicolon code = false)
  /\ (asciiDigitOrDot code = true ->
      asciiWhitespace code = false /\ commaOrSemicolon code = false)
  /\ (commaOrSemicolon code = true ->
      asciiWhitespace code = false /\ asciiDigitOrDot code = false)
  /\ (asciiDigitOrDot code = true -> asciiDigit code = false ->
      dot code = true).
Proof.
  destruct code as [c|]; [|cbn; intuition discriminate].
  unfold asciiWhitespace, asciiDigitOrDot, asciiDigit, commaOrSemicolon, dot,
    code_is.
  destruct (Nat.eqb_spec c 9); [subst; cbn; intuition discriminate|].
  destruct (Nat.eqb_spec c 10); [subst; cbn; intuition discriminate|].
  destruct (Nat.eqb_spec c 12); [subst; cbn; intuition discriminate|].
  destruct (Nat.eqb_spec c 13); [subst; cbn; intuition discriminate|].
  destruct (Nat.eqb_spec c 32); [subst; cbn; intuition discriminate|].
  destruct (Nat.eqb_spec c 44); [subst; cbn; intuition discriminate|].
  destruct (Nat.eqb_spec c 59); [subst; cbn; intuition discriminate|].
  destruct (Nat.eqb_spec c 46); [subst; cbn; intuition discriminate|].
  cbn [orb]. rewrite !orb_false_r.
  destruct (Nat.leb 48 c && Nat.leb c 57); intuition discriminate.
Qed.

Lemma first_of (test : option nat -> bool) (b c : string) :
  b <> "" -> everyCode test b = true ->
  test (charCodeAt (b ++ c) 0) = true.
Proof.
  intros Hb Hall. destruct b as [|x b]; [congruence|].
  apply andb_true_iff in Hall. exact (proj1 Hall).
Qed.

Lemma length_nonempty (s : string) : s <> "" <-> 0 < String.length s.
Proof. destruct s; simpl; split; intros H; try congruence; lia. Qed.

Lemma skip_while_span_at (test : option nat -> bool)
    (input a b c : string) (p : nat) :
  input = a ++ b ++ c -> p = String.length a ->
  everyCode test b = true ->
  test (charCodeAt c 0) = false ->
  skip_while test input p = p + String.length b.
Proof. intros -> ->. apply skip_while_span. Qed.

Lemma charCodeAt_at (input a c : string) (p : nat) :
  input = a ++ c -> p = String.length a ->
  charCodeAt input p = charCodeAt c 0.
Proof. intros -> ->. apply charCodeAt_append_0. Qed.

(** Steps 2 to 10 on an input that is whitespace, a delay of digits and
    dots, whitespace, an optional separator, whitespace, and a rest. *)
Lemma targetPosition_shape (ws0 delay ws1 sep ws2 target : string) :
  everyCode asciiWhitespace ws0 = true ->
  delay <> "" ->
  everyCode asciiDigitOrDot delay = true ->
  everyCode asciiWhitespace ws1 = true ->
  separator sep ->
  everyCode asciiWhitespace ws2 = true ->
  (sep = "" -> ws2 = "" /\ commaOrSemicolon (charCodeAt target 0) = false) ->
  asciiWhitespace (charCodeAt target 0) = false ->
  asciiDigitOrDot (charCodeAt (ws1 ++ sep ++ ws2 ++ target) 0) = false ->
  targetPosition (ws0 ++ delay ++ ws1 ++ sep ++ ws2 ++ target)
  = if Nat.eqb (String.length (ws1 ++ sep ++ ws2)) 0
       || Nat.eqb (String.length target) 0
    then None
    else Some (String.length (ws0 ++ delay ++ ws1 ++ sep ++ ws2)).
Proof.
  intros Hws0 Hdelay Hdd Hws1 Hsep Hws2 Hnone Htarget Hafter.
  set (input := ws0 ++ delay ++ ws1 ++ sep ++ ws2 ++ target).
  set (p0 := String.length ws0).
  set (e := p0 + String.length delay).
  assert (Hlen : String.length input
                 = e + String.length ws1 + String.length sep
                   + String.length ws2 + String.length target)
    by (unfold input, e, p0; rewrite !length_append; lia).
  assert (Hd0 : 0 < String.length delay) by now apply length_nonempty.
  (* the code units of the delay *)
  assert (Hin : forall i, p0 <= i < e ->
                asciiDigitOrDot (charCodeAt input i) = true).
  { intros i Hi. unfold input, p0 in *.
    replace i with (String.length ws0 + (i - String.length ws0)) by lia.
    rewrite charCodeAt_append, charCodeAt_head by (unfold e in Hi; lia).
    apply everyCode_at; [exact Hdd | unfold e in Hi; lia]. }
  (* the code unit after the delay *)
  assert (He : charCodeAt input e
               = charCodeAt (ws1 ++ sep ++ ws2 ++ target) 0).
  { apply (charCodeAt_at input (ws0 ++ delay)).
    - unfold input. now rewrite !append_assoc.
    - unfold e, p0. now rewrite length_append. }
  (* the code unit after the first run of whitespace *)
  assert (Hsep0 : asciiWhitespace (charCodeAt (sep ++ ws2 ++ target) 0)
                  = false
                  /\ (if commaOrSemicolon
                           (charCodeAt (sep ++ ws2 ++ target) 0)
                      then 1 else 0) = String.length sep).
  { destruct Hsep as [-> | [-> | ->]].
    - destruct (Hnone eq_refl) as [-> Hc]. cbn [append]. now rewrite Hc.
    - split; reflexivity.
    - split; reflexivity. }
  unfold targetPosition. cbv zeta. fold input.
  (* 3. *)
  assert (E3 : skipAsciiWhitespace input 0 = p0).
  { unfold skipAsciiWhitespace, input.
    apply (skip_while_span asciiWhitespace "" ws0); [exact Hws0|].
    apply (proj1 (proj2 (code_classes _))), (first_of asciiDigitOrDot);
      assumption. }
  rewrite E3.
  (* 5. *)
  assert (E5 : p0 <= skip_while asciiDigit input p0 <= e).
  { unfold skip_while.
    pose proof (skip_rounds_within asciiDigit input e) as Hw.
    assert (Hstop : e < String.length input ->
                    asciiDigit (charCodeAt input e) = false).
    { intros _. rewrite He. unfold asciiDigitOrDot in Hafter.
      now apply orb_false_iff in Hafter. }
    specialize (Hw Hstop (String.length input) p0). unfold e in *. lia. }
  pose proof (skip_while_stops asciiDigit input p0) as S5. cbv zeta in S5.
  set (q1 := skip_while asciiDigit input p0) in *.
  (* 6. *)
  assert (E6 : Nat.eqb q1 p0 && negb (dot (charCodeAt input q1)) = false).
  { destruct (Nat.eqb_spec q1 p0) as [Eq|]; [|reflexivity]. cbn [andb].
    rewrite Eq in S5 |- *.
    replace (Nat.ltb p0 (String.length input)) with true in S5
      by (symmetry; apply Nat.ltb_lt; lia).
    cbn [andb] in S5.
    assert (Hp0 : asciiDigitOrDot (charCodeAt input p0) = true)
      by (apply Hin; unfold e; lia).
    now rewrite (proj2 (proj2 (proj2 (code_classes _))) Hp0 S5). }
  rewrite E6.
  (* 8. *)
  assert (E8 : skip_while asciiDigitOrDot input q1 = e).
  { apply skip_while_to.
    - lia.
    - intros i Hi. apply Hin. lia.
    - intros _. now rewrite He. }
  rewrite E8.
  (* 10.2 *)
  assert (E102 : skipAsciiWhitespace input e = e + String.length ws1).
  { apply (skip_while_span_at asciiWhitespace input (ws0 ++ delay) ws1
             (sep ++ ws2 ++ target)).
    - unfold input. now rewrite !append_assoc.
    - unfold e, p0. now rewrite length_append.
    - exact Hws1.
    - exact (proj1 Hsep0). }
  (* 10.3 *)
  assert (E103 : charCodeAt input (e + String.length ws1)
                 = charCodeAt (sep ++ ws2 ++ target) 0).
  { apply (charCodeAt_at input (ws0 ++ delay ++ ws1)).
    - unfold input. now rewrite !append_assoc.
    - unfold e, p0. rewrite !length_append. lia. }
  (* 10.4 *)
  assert (E104 : skipAsciiWhitespace input
                   (e + String.length ws1 + String.length sep)
                 = e + String.length ws1 + String.length sep
                   + String.length ws2).
  { apply (skip_while_span_at asciiWhitespace input
             (ws0 ++ delay ++ ws1 ++ sep) ws2 target).
    - unfold input. now rewrite !append_assoc.
    - unfold e, p0. rewrite !length_append. lia.
    - exact Hws2.
    - exact Htarget. }
  assert (Eprefix : String.length (ws0 ++ delay ++ ws1 ++ sep ++ ws2)
                    = e + String.length ws1 + String.length sep
                      + String.length ws2)
    by (unfold e, p0; rewrite !length_append; lia).
  rewrite Eprefix, !length_append.
  destruct (Nat.ltb_spec e (String.length input)) as [Hlt | Hge].
  - rewrite E102, E103.
    replace (if commaOrSemicolon (charCodeAt (sep ++ ws2 ++ target) 0)
             then S (e + String.length ws1) else e + String.length ws1)
      with (e + String.length ws1 + String.length sep)
      by (rewrite <- (proj2 Hsep0);
          destruct (commaOrSemicolon (charCodeAt (sep ++ ws2 ++ target) 0));
          lia).
    rewrite E104, Hlen.
    destruct (Nat.eqb_spec
                (String.length ws1 + (String.length sep + String.length ws2))
                0) as [Egap | Egap].
    + cbn [orb].
      replace (Nat.eqb e (e + String.length ws1 + String.length sep
                          + String.length ws2)) with true
        by (symmetry; apply Nat.eqb_eq; lia).
      reflexivity.
    + replace (Nat.eqb e (e + String.length ws1 + String.length sep
                          + String.length ws2)) with false
        by (symmetry; apply Nat.eqb_neq; lia).
      cbn [orb].
      destruct (Nat.eqb_spec (String.length target) 0) as [Et | Et].
      * replace (Nat.eqb _ _) with true
          by (symmetry; apply Nat.eqb_eq; lia).
        reflexivity.
      * replace (Nat.eqb _ _) with false
          by (symmetry; apply Nat.eqb_neq; lia).
        reflexivity.
  - rewrite Nat.eqb_refl. cbn [orb].
    replace (Nat.eqb (String.length ws1
                      + (String.length sep + String.length ws2)) 0)
      with true by (symmetry; apply Nat.eqb_eq; lia).
    reflexivity.
Qed.

Lemma nest (ws0 delay ws1 sep ws2 t : string) :
  ws0 ++ delay ++ ws1 ++ sep ++ ws2 ++ t
  = (ws0 ++ delay ++ ws1 ++ sep ++ ws2) ++ t.
Proof. now rewrite !append_assoc. Qed.

Lemma after_delay (ws1 sep ws2 t : string) :
  everyCode asciiWhitespace ws1 = true ->
  separator sep ->
  everyCode asciiWhitespace ws2 = true ->
  (ws1 ++ sep ++ ws2 = "" -> asciiDigitOrDot (charCodeAt t 0) = false) ->
  asciiDigitOrDot (charCodeAt (ws1 ++ sep ++ ws2 ++ t) 0) = false.
Proof.
  intros Hws1 Hsep Hws2 Ht.
  destruct ws1 as [|x ws1].
  - destruct Hsep as [-> | [-> | ->]]; [|reflexivity|reflexivity].
    destruct ws2 as [|y ws2]; [now apply Ht|].
    apply (proj1 (code_classes _)).
    exact (first_of asciiWhitespace (String y ws2) t ltac:(discriminate) Hws2).
  - apply (proj1 (code_classes _)).
    exact (first_of asciiWhitespace (String x ws1) _ ltac:(discriminate) Hws1).
Qed.

(** Steps 2 to 10 stop at the target. *)
Lemma targetPosition_prelude (ws0 delay ws1 sep ws2 target : string) :
  prelude ws0 delay ws1 sep ws2 ->
  startsTarget sep target ->
  targetPosition ((ws0 ++ delay ++ ws1 ++ sep ++ ws2) ++ target)
  = Some (String.length (ws0 ++ delay ++ ws1 ++ sep ++ ws2)).
Proof.
  intros (Hws0 & Hdelay & Hdd & Hws1 & Hsep & Hws2 & Hgap)
         (Htarget & Hfirst & Hnosep).
  rewrite <- nest, targetPosition_shape; try assumption.
  - replace (Nat.eqb (String.length target) 0) with false
      by (symmetry; apply Nat.eqb_neq;
          apply length_nonempty in Htarget; lia).
    replace (Nat.eqb (String.length (ws1 ++ sep ++ ws2)) 0) with false;
      [reflexivity|].
    symmetry. apply Nat.eqb_neq. rewrite !length_append.
    destruct Hsep as [E | [-> | ->]]; [|simpl; lia|simpl; lia].
    destruct (Hgap E) as [Hne _]. apply length_nonempty in Hne. lia.
  - intros E. destruct (Hgap E) as [_ ->]. split; [reflexivity|auto].
  - apply after_delay; try assumption. intros E. exfalso.
    destruct Hsep as [Es | [-> | ->]].
    + destruct (Hgap Es) as [Hne _]. destruct ws1; [congruence|discriminate].
    + destruct ws1; discriminate.
    + destruct ws1; discriminate.
Qed.

Lemma skipQuotes_plain (t : string) :
  code_is (charCodeAt t 0) 34 || code_is (charCodeAt t 0) 39 = false ->
  skipQuotes t 0 0 = t.
Proof. intros H. unfold skipQuotes. rewrite H. now destruct t. Qed.

Lemma indexOf_append (body tail : string) (q : ascii) :
  indexOf body (nat_of_ascii q) = None ->
  indexOf (body ++ String q tail) (nat_of_ascii q)
  = Some (String.length body).
Proof.
  induction body as [|c body IH]; intros H; simpl in *.
  - now rewrite Nat.eqb_refl.
  - destruct (Nat.eqb (nat_of_ascii c) (nat_of_ascii q)); [discriminate|].
    destruct (indexOf body (nat_of_ascii q)); [discriminate|].
    now rewrite IH.
Qed.

Lemma slice_to_append (body tail : string) :
  slice_to (body ++ tail) (String.length body) = body.
Proof. induction body as [|c body IH]; simpl; [reflexivity|now rewrite IH]. Qed.

Lemma skipQuotes_quoted (q : ascii) (body tail : string) :
  quoteMark q ->
  indexOf body (nat_of_ascii q) = None ->
  tail = "" \/ (exists junk, tail = String q junk) ->
  skipQuotes (String q (body ++ tail)) 0 0 = body.
Proof.
  intros Hq Hbody Htail. unfold skipQuotes.
  change (charCodeAt (String q (body ++ tail)) 0) with (Some (nat_of_ascii q)).
  replace (code_is (Some (nat_of_ascii q)) 34
           || code_is (Some (nat_of_ascii q)) 39) with true
    by (destruct Hq as [-> | ->]; reflexivity).
  change (slice (String q (body ++ tail)) 1) with (body ++ tail).
  replace (Nat.eqb (nat_of_ascii q) 0) with false
    by (destruct Hq as [-> | ->]; reflexivity).
  destruct Htail as [-> | [junk ->]].
  - rewrite append_empty, Hbody. reflexivity.
  - rewrite indexOf_append by exact Hbody. apply slice_to_append.
Qed.

(** Step 11 on a target that does not start with [U]. *)
Lemma urlString_plain (pre t : string) :
  targetPosition (pre ++ t) = Some (String.length pre) ->
  letter t 0 85 117 = false ->
  urlString (pre ++ t) = Some (skipQuotes t 0 0).
Proof.
  intros Hp Hu. unfold urlString. rewrite Hp. cbv zeta.
  rewrite charCodeAt_append_0, letter_split, Hu. cbn [negb].
  now rewrite skipQuotes_suffix_0.
Qed.

Lemma skipQuotes_at (input a c : string) (p quote : nat) :
  input = a ++ c -> p = String.length a ->
  skipQuotes input p quote = skipQuotes c 0 quote.
Proof. intros -> ->. apply skipQuotes_suffix_0. Qed.

(** Step 11 on a target that starts with the keyword and [=]. *)
Lemma urlString_keyword (pre k wsa wsb value : string) :
  targetPosition (pre ++ k ++ wsa ++ "=" ++ wsb ++ value)
  = Some (String.length pre) ->
  keywordUrl k ->
  everyCode asciiWhitespace wsa = true ->
  everyCode asciiWhitespace wsb = true ->
  asciiWhitespace (charCodeAt value 0) = false ->
  urlString (pre ++ k ++ wsa ++ "=" ++ wsb ++ value)
  = Some (skipQuotes value 0 0).
Proof.
  intros Hp (Hk & Hu & Hr & Hl) Hwsa Hwsb Hvalue.
  unfold urlString. rewrite Hp. cbv zeta.
  set (input := pre ++ k ++ wsa ++ "=" ++ wsb ++ value).
  set (p := String.length pre).
  assert (Hchar : forall i, i < 3 ->
            charCodeAt input (p + i) = charCodeAt k i).
  { intros i Hi. unfold input, p.
    rewrite charCodeAt_append, charCodeAt_head by lia. reflexivity. }
  assert (E0 : charCodeAt input p = charCodeAt k 0)
    by (rewrite <- (Hchar 0) by lia; now rewrite Nat.add_0_r).
  assert (E1 : charCodeAt input (S p) = charCodeAt k 1)
    by (rewrite <- (Hchar 1) by lia; f_equal; lia).
  assert (E2 : charCodeAt input (S (S p)) = charCodeAt k 2)
    by (rewrite <- (Hchar 2) by lia; f_equal; lia).
  assert (E5 : skipAsciiWhitespace input (S (S (S p)))
               = S (S (S p)) + String.length wsa).
  { apply (skip_while_span_at asciiWhitespace input (pre ++ k) wsa
             ("=" ++ wsb ++ value)).
    - unfold input. now rewrite !append_assoc.
    - unfold p. rewrite length_append. lia.
    - exact Hwsa.
    - reflexivity. }
  assert (E6 : charCodeAt input (S (S (S p)) + String.length wsa) = Some 61).
  { rewrite (charCodeAt_at input (pre ++ k ++ wsa) ("=" ++ wsb ++ value)).
    - reflexivity.
    - unfold input. now rewrite !append_assoc.
    - unfold p. rewrite !length_append. lia. }
  assert (E7 : skipAsciiWhitespace input
                 (S (S (S (S p)) + String.length wsa))
               = S (S (S (S p)) + String.length wsa) + String.length wsb).
  { apply (skip_while_span_at asciiWhitespace input
             (pre ++ k ++ wsa ++ "=") wsb value).
    - unfold input. now rewrite !append_assoc.
    - unfold p. rewrite !length_append. simpl. lia.
    - exact Hwsb.
    - exact Hvalue. }
  rewrite E0, E1, E2, !letter_split, Hu, Hr, Hl. cbn [negb andb].
  rewrite E5, E6. cbn [code_is Nat.eqb negb]. rewrite E7.
  f_equal.
  apply (skipQuotes_at input (pre ++ k ++ wsa ++ "=" ++ wsb) value).
  - unfold input. now rewrite !append_assoc.
  - unfold p. rewrite !length_append. simpl. lia.
Qed.

Lemma keyword_starts (sep k rest : string) :
  keywordUrl k -> startsTarget sep (k ++ rest).
Proof.
  intros (Hk & Hu & _).
  destruct k as [|u k]; [discriminate|].
  unfold letter, charCodeAt, code_is in Hu. cbn in Hu.
  assert (Hcode : nat_of_ascii u = 85 \/ nat_of_ascii u = 117).
  { apply orb_true_iff in Hu. destruct Hu as [E | E];
      apply Nat.eqb_eq in E; auto. }
  split; [discriminate|].
  unfold charCodeAt, asciiWhitespace, commaOrSemicolon, code_is. cbn.
  destruct Hcode as [-> | ->]; split; reflexivity.
Qed.

(** X20: a refresh value with no delay gives no URL, and no message. *)
Theorem refresh_without_delay_is_absent (P : Platform) (from : URL)
    (ws rest : string) :
  everyCode asciiWhitespace ws = true ->
  asciiWhitespace (charCodeAt rest 0) = false ->
  asciiDigitOrDot (charCodeAt rest 0) = false ->
  sharedDeclarativeRefresh P (ws ++ rest) from = Normal None.
Proof.
  intros Hws Hnot Hdd. unfold sharedDeclarativeRefresh, urlString.
  replace (targetPosition (ws ++ rest)) with (@None nat); [reflexivity|].
  symmetry. unfold targetPosition. cbv zeta.
  assert (E3 : skipAsciiWhitespace (ws ++ rest) 0 = String.length ws)
    by (apply (skip_while_span asciiWhitespace "" ws rest); assumption).
  rewrite E3.
  assert (E5 : skip_while asciiDigit (ws ++ rest) (String.length ws)
               = String.length ws).
  { rewrite (skip_while_span_at asciiDigit (ws ++ rest) ws "" rest);
      [simpl; lia | reflexivity | reflexivity | reflexivity |].
    unfold asciiDigitOrDot in Hdd. now apply orb_false_iff in Hdd. }
  rewrite E5, Nat.eqb_refl, charCodeAt_append_0.
  unfold asciiDigitOrDot in Hdd. apply orb_false_iff in Hdd.
  now rewrite (proj2 Hdd).
Qed.

Lemma refresh_without_delay_is_absent_witness :
  sharedDeclarativeRefresh Example.platform " /to" Example.from
  = Normal None.
Proof.
  apply (refresh_without_delay_is_absent Example.platform Example.from
           " " "/to"); reflexivity.
Defined.

Lemma everyCode_append (test : option nat -> bool) (a b : string) :
  everyCode test a = true -> everyCode test b = true ->
  everyCode test (a ++ b) = true.
Proof.
  intros Ha Hb. induction a as [|c a IH]; simpl in *; [exact Hb|].
  apply andb_true_iff in Ha. destruct Ha as [Hc Ha].
  now rewrite Hc, IH.
Qed.

(** X21: a delay with nothing but whitespace and at most one separator
    after it gives no URL, and no message. *)
Theorem refresh_without_target_is_absent (P : Platform) (from : URL)
    (ws0 delay ws1 sep ws2 : string) :
  everyCode asciiWhitespace ws0 = true ->
  delay <> "" ->
  everyCode asciiDigitOrDot delay = true ->
  everyCode asciiWhitespace ws1 = true ->
  separator sep ->
  everyCode asciiWhitespace ws2 = true ->
  sharedDeclarativeRefresh P (ws0 ++ delay ++ ws1 ++ sep ++ ws2) from
  = Normal None.
Proof.
  intros Hws0 Hdelay Hdd Hws1 Hsep Hws2.
  unfold sharedDeclarativeRefresh, urlString.
  assert (Hshape : forall a s b,
            everyCode asciiWhitespace a = true -> separator s ->
            everyCode asciiWhitespace b = true -> (s = "" -> b = "") ->
            targetPosition (ws0 ++ delay ++ a ++ s ++ b) = None).
  { intros a s b Ha Hs Hb Hsb.
    rewrite <- (append_empty b), targetPosition_shape; try assumption.
    - cbn [String.length Nat.eqb]. now rewrite orb_true_r.
    - intros E. split; [auto|reflexivity].
    - reflexivity.
    - apply after_delay; try assumption. reflexivity. }
  destruct Hsep as [-> | Hsep].
  - cbn [append].
    replace (ws1 ++ ws2) with ((ws1 ++ ws2) ++ "" ++ "")
      by (cbn [append]; apply append_empty).
    rewrite Hshape;
      [reflexivity | now apply everyCode_append | now left | reflexivity
      | reflexivity].
  - rewrite Hshape; try assumption; [reflexivity | now right |].
    intros ->. destruct Hsep; discriminate.
Qed.

Lemma refresh_without_target_is_absent_witness :
  sharedDeclarativeRefresh Example.platform " 1.5 ; " Example.from
  = Normal None.
Proof.
  apply (refresh_without_target_is_absent Example.platform Example.from
           " " "1.5" " " ";" " ");
    [reflexivity | discriminate | reflexivity | reflexivity
    | right; right; reflexivity | reflexivity].
Defined.

(** X22: a delay that is followed by something else than whitespace, a
    comma or a semicolon gives no URL, and no message. *)
Theorem refresh_without_separator_is_absent (P : Platform) (from : URL)
    (ws0 delay rest : string) :
  everyCode asciiWhitespace ws0 = true ->
  delay <> "" ->
  everyCode asciiDigitOrDot delay = true ->
  asciiWhitespace (charCodeAt rest 0) = false ->
  commaOrSemicolon (charCodeAt rest 0) = false ->
  asciiDigitOrDot (charCodeAt rest 0) = false ->
  sharedDeclarativeRefresh P (ws0 ++ delay ++ rest) from = Normal None.
Proof.
  intros Hws0 Hdelay Hdd Hws Hsep Hrest.
  unfold sharedDeclarativeRefresh, urlString.
  change (ws0 ++ delay ++ rest) with (ws0 ++ delay ++ "" ++ "" ++ "" ++ rest).
  rewrite targetPosition_shape; try assumption; try reflexivity.
  - now left.
  - intros _. split; [reflexivity|exact Hsep].
Qed.

Lemma refresh_without_separator_is_absent_witness :
  sharedDeclarativeRefresh Example.platform "0?/to" Example.from
  = Normal None.
Proof.
  apply (refresh_without_separator_is_absent Example.platform Example.from
           "" "0" "?/to"); try reflexivity. discriminate.
Defined.

(** X23: of a refresh value with a delay, a separator and a target, only the
    target matters: the result is that of [0;] followed by the target. *)
Theorem refresh_target_is_all_that_matters (P : Platform) (from : URL)
    (ws0 delay ws1 sep ws2 target : string) :
  prelude ws0 delay ws1 sep ws2 ->
  startsTarget sep target ->
  sharedDeclarativeRefresh P
    (ws0 ++ delay ++ ws1 ++ sep ++ ws2 ++ target) from
  = sharedDeclarativeRefresh P ("0;" ++ target) from.
Proof.
  intros Hpre Htarget. unfold sharedDeclarativeRefresh.
  rewrite nest.
  rewrite (urlString_suffix (ws0 ++ delay ++ ws1 ++ sep ++ ws2) "0;" target);
    [reflexivity | now apply targetPosition_prelude |].
  apply (targetPosition_prelude "" "0" "" ";" "" target).
  - repeat split; try reflexivity; try discriminate.
    right; right; reflexivity.
  - destruct Htarget as (H1 & H2 & _). repeat split; try assumption.
    discriminate.
Qed.

Lemma refresh_target_is_all_that_matters_witness :
  sharedDeclarativeRefresh Example.platform " 12.5 , url = '/to' x"
    Example.from
  = sharedDeclarativeRefresh Example.platform "0;url = '/to' x"
      Example.from.
Proof.
  apply (refresh_target_is_all_that_matters Example.platform Example.from
           " " "12.5" " " "," " " "url = '/to' x").
  - unfold prelude.
    split; [reflexivity|]. split; [discriminate|]. split; [reflexivity|].
    split; [reflexivity|]. split; [right; left; reflexivity|].
    split; [reflexivity|discriminate].
  - unfold startsTarget.
    split; [discriminate|]. split; [reflexivity|discriminate].
Defined.

(** X24: a target that starts with neither [U] nor a quote is resolved as
    it stands, to its end. *)
Theorem refresh_unquoted_target (P : Platform) (from : URL)
    (ws0 delay ws1 sep ws2 target : string) :
  prelude ws0 delay ws1 sep ws2 ->
  startsTarget sep target ->
  letter target 0 85 117 = false ->
  letter target 0 34 39 = false ->
  sharedDeclarativeRefresh P
    (ws0 ++ delay ++ ws1 ++ sep ++ ws2 ++ target) from
  = parse P target from.
Proof.
  intros Hpre Htarget Hu Hq. unfold sharedDeclarativeRefresh.
  rewrite nest, urlString_plain;
    [| now apply targetPosition_prelude | exact Hu].
  now rewrite skipQuotes_plain.
Qed.

Lemma refresh_unquoted_target_witness :
  sharedDeclarativeRefresh Example.platform "5; /to here" Example.from
  = parse Example.platform "/to here" Example.from.
Proof.
  apply (refresh_unquoted_target Example.platform Example.from
           "" "5" "" ";" " " "/to here"); try reflexivity.
  - unfold prelude.
    split; [reflexivity|]. split; [discriminate|]. split; [reflexivity|].
    split; [reflexivity|]. split; [right; right; reflexivity|].
    split; [reflexivity|discriminate].
  - unfold startsTarget.
    split; [discriminate|]. split; [reflexivity|discriminate].
Defined.

(** X25: a target in quotes is resolved without the quotes, up to the first
    closing quote of the kind that opened it, or to the end when there is
    none; what follows the closing quote is dropped. *)
Theorem refresh_quoted_target (P : Platform) (from : URL)
    (ws0 delay ws1 sep ws2 : string) (q : ascii) (body tail : string) :
  prelude ws0 delay ws1 sep ws2 ->
  quoteMark q ->
  indexOf body (nat_of_ascii q) = None ->
  tail = "" \/ (exists junk, tail = String q junk) ->
  sharedDeclarativeRefresh P
    (ws0 ++ delay ++ ws1 ++ sep ++ ws2 ++ String q (body ++ tail)) from
  = parse P body from.
Proof.
  intros Hpre Hq Hbody Htail. unfold sharedDeclarativeRefresh.
  assert (Hfirst : charCodeAt (String q (body ++ tail)) 0
                   = Some 34
                   \/ charCodeAt (String q (body ++ tail)) 0 = Some 39)
    by (unfold charCodeAt; cbn; destruct Hq as [-> | ->]; auto).
  rewrite nest, urlString_plain.
  - now rewrite skipQuotes_quoted.
  - apply targetPosition_prelude; [exact Hpre|].
    split; [discriminate|].
    destruct Hfirst as [-> | ->]; split; reflexivity.
  - unfold letter. destruct Hfirst as [-> | ->]; reflexivity.
Qed.

Lemma refresh_quoted_target_witness :
  sharedDeclarativeRefresh Example.platform "0;'/to' and more" Example.from
  = parse Example.platform "/to" Example.from.
Proof.
  apply (refresh_quoted_target Example.platform Example.from
           "" "0" "" ";" "" "'"%char "/to" "' and more").
  - unfold prelude.
    split; [reflexivity|]. split; [discriminate|]. split; [reflexivity|].
    split; [reflexivity|]. split; [right; right; reflexivity|].
    split; [reflexivity|discriminate].
  - right; reflexivity.
  - reflexivity.
  - right. exists " and more". reflexivity.
Defined.

(** X26: the keyword [URL], in any case, with [=] and whitespace around it,
    changes nothing: the result is that of the value alone. *)
Theorem refresh_keyword_is_optional (P : Platform) (from : URL)
    (ws0 delay ws1 sep ws2 k wsa wsb value : string) :
  prelude ws0 delay ws1 sep ws2 ->
  keywordUrl k ->
  everyCode asciiWhitespace wsa = true ->
  everyCode asciiWhitespace wsb = true ->
  startsTarget sep value ->
  letter value 0 85 117 = false ->
  sharedDeclarativeRefresh P
    (ws0 ++ delay ++ ws1 ++ sep ++ ws2 ++ k ++ wsa ++ "=" ++ wsb ++ value)
    from
  = sharedDeclarativeRefresh P
      (ws0 ++ delay ++ ws1 ++ sep ++ ws2 ++ value) from.
Proof.
  intros Hpre Hk Hwsa Hwsb Hvalue Hu. unfold sharedDeclarativeRefresh.
  rewrite (nest ws0 delay ws1 sep ws2 value),
    (nest ws0 delay ws1 sep ws2 (k ++ wsa ++ "=" ++ wsb ++ value)).
  rewrite urlString_keyword; try assumption;
    [| apply targetPosition_prelude;
       [exact Hpre | now apply keyword_starts]
     | exact (proj1 (proj2 Hvalue))].
  rewrite urlString_plain;
    [reflexivity | now apply targetPosition_prelude | exact Hu].
Qed.

Lemma refresh_keyword_is_optional_witness :
  sharedDeclarativeRefresh Example.platform "1; uRl = /to" Example.from
  = sharedDeclarativeRefresh Example.platform "1; /to" Example.from.
Proof.
  apply (refresh_keyword_is_optional Example.platform Example.from
           "" "1" "" ";" " " "uRl" " " " " "/to"); try reflexivity.
  - unfold prelude.
    split; [reflexivity|]. split; [discriminate|]. split; [reflexivity|].
    split; [reflexivity|]. split; [right; right; reflexivity|].
    split; [reflexivity|discriminate].
  - unfold keywordUrl. repeat split.
  - unfold startsTarget.
    split; [discriminate|]. split; [reflexivity|discriminate].
Defined.

(** X27: the keyword and [=] with nothing after them give the empty text
    to resolve, not an absent result. *)
Theorem refresh_keyword_without_value (P : Platform) (from : URL)
    (ws0 delay ws1 sep ws2 k wsa wsb : string) :
  prelude ws0 delay ws1 sep ws2 ->
  keywordUrl k ->
  everyCode asciiWhitespace wsa = true ->
  everyCode asciiWhitespace wsb = true ->
  sharedDeclarativeRefresh P
    (ws0 ++ delay ++ ws1 ++ sep ++ ws2 ++ k ++ wsa ++ "=" ++ wsb) from
  = parse P "" from.
Proof.
  intros Hpre Hk Hwsa Hwsb. unfold sharedDeclarativeRefresh.
  rewrite <- (append_empty wsb),
    (nest ws0 delay ws1 sep ws2 (k ++ wsa ++ "=" ++ wsb ++ "")).
  rewrite urlString_keyword; try assumption; try reflexivity.
  apply targetPosition_prelude; [exact Hpre | now apply keyword_starts].
Qed.

Lemma refresh_keyword_without_value_witness :
  sharedDeclarativeRefresh Example.platform "0;url=" Example.from
  = parse Example.platform "" Example.from.
Proof.
  apply (refresh_keyword_without_value Example.platform Example.from
           "" "0" "" ";" "" "url" "" ""); try reflexivity.
  - unfold prelude.
    split; [reflexivity|]. split; [discriminate|]. split; [reflexivity|].
    split; [reflexivity|]. split; [right; right; reflexivity|].
    split; [reflexivity|discriminate].
  - unfold keywordUrl. repeat split.
Defined.

(* ------------------------------------------------------------------ *)
(** ** The package's tests, replayed on the model

    The runs of [test.js] with a mocked network, on the stand-in
    platform.  A mocked reply is used up by one request; a request without
    a reply left is a network error. *)

Example test_404 :
  fst (deadOrAlive Example.platform
         (Example.script [inr (Example.reply 404 "https://example.com/")])
         5 (inl "https://example.com") None)
  = Some (Result.mk
            [Message (VFileMessage.mk
               "Unexpected not ok response `404` (`Not Found`) on `https://example.com/`"
               "dead" "dead-or-alive"
               (Some "https://github.com/wooorm/dead-or-alive#dead")
               (Some true) None)]
            None dead None None).
Proof. vm_compute. reflexivity. Qed.

Example test_retries :
  fst (deadOrAlive Example.platform
         (Example.script
            [inl "refused"; inr (Example.reply 200 "https://example.com/")])
         5 (inl "https://example.com") None)
  = Some (Result.mk [] None alive (Some "https://example.com/") None).
Proof. vm_compute. reflexivity. Qed.

(** The single mocked 500 is retried; the retry finds no reply. *)
Example test_500 :
  fst (deadOrAlive Example.platform
         (Example.script [inr (Example.reply 500 "https://example.com/")])
         5 (inl "https://example.com") None)
  = Some (Result.mk
            [Message (VFileMessage.mk
               "Unexpected error fetching `https://example.com/`"
               "fetch" "dead-or-alive"
               (Some "https://github.com/wooorm/dead-or-alive#fetch")
               (Some true) (Some "connection refused"))]
            None dead None None).
Proof. vm_compute. reflexivity. Qed.

Example test_5_redirects :
  fst (deadOrAlive Example.platform
         (Example.script
            (List.map
               (fun n => inr (Example.redirect 301 "" ("/" ++ string_of_nat (S n))))
               (seq 0 5)
             ++ [inr (Example.html "https://example.com/5" "ok")])%list)
         9 (inl "https://example.com/0") None)
  = Some (Result.mk [] (Some true) alive (Some "https://example.com/5")
            (Some [])).
Proof. vm_compute. reflexivity. Qed.

Example test_6_redirects :
  fst (deadOrAlive Example.platform
         (Example.script
            (List.map
               (fun n => inr (Example.redirect 301 "" ("/" ++ string_of_nat (S n))))
               (seq 0 6)
             ++ [inr (Example.html "https://example.com/6" "ok")])%list)
         9 (inl "https://example.com/0") None)
  = Some (Result.mk
            [Message (maxRedirectDiagnostic (Example.page 6))]
            (Some true) dead None None).
Proof. vm_compute. reflexivity. Qed.

Example test_html_redirect :
  fst (deadOrAlive Example.platform
         (Example.script
            [inr (Example.html "https://example.com/0"
                    "<meta http-equiv=refresh content=0;/1>");
             inr (Example.html "https://example.com/1" "ok")])
         5 (inl "https://example.com/0") None)
  = Some (Result.mk [] (Some false) alive (Some "https://example.com/1")
            (Some [])).
Proof. vm_compute. reflexivity. Qed.

Example test_anchor_by_id :
  fst (deadOrAlive Example.platform
         (Example.script [inr (Example.html "https://example.com/" "<h1 id=hi>")])
         5 (inl "https://example.com#hi") None)
  = Some (Result.mk [] None alive (Some "https://example.com/#hi") (Some [])).
Proof. vm_compute. reflexivity. Qed.

Example test_similar_anchors :
  fst (deadOrAlive Example.platform
         (Example.script
            [inr (Example.html "https://example.com/" Example.similarAnchors)])
         5 (inl "https://example.com#aaaa") None)
  = Some (Result.mk
            [Message (VFileMessage.mk
               "Unexpected missing anchor element on `https://example.com/` for fragment `aaaa`, remove if unneeded or refer to an existing element such as `aaab`, `aaac`, `aaad`, or `aaae`"
               "missing-anchor" "dead-or-alive"
               (Some "https://github.com/wooorm/dead-or-alive#missing-anchor")
               (Some true) None)]
            None dead None (Some [])).
Proof. vm_compute. reflexivity. Qed.

Example test_propose :
  propose Example.platform "woolwork" ["woolworker"; "woolworking"; "woolwinder"]
  = ["woolworker"; "woolworking"]
  /\ propose Example.platform "woolworkir"
       ["woolworker"; "woolworking"; "woolwinder"]
     = ["woolworker"; "woolworking"; "woolwinder"]
  /\ propose Example.platform "woolwork" [] = [].
Proof. vm_compute. repeat split. Qed.

Example test_refresh :
  List.map urlString
    ["0;/to"; " 0;/to"; "1.234;/to"; ".;/to"; ";/to"; "0?/to"; "0;"; "0;to";
     "0,to"; "0 ,to"; "0, to"; "0;'to'"; "0;'to'c"; "0;'to"; "0;url=to";
     "0;URL=to"; "0;uRl=to"; "0;us"; "0;ura"; "0;urlang"; "0;url =to";
     "0;url= to"]
  = [Some "/to"; Some "/to"; Some "/to"; Some "/to"; None; None; None;
     Some "to"; Some "to"; Some "to"; Some "to"; Some "to"; Some "to";
     Some "to"; Some "to"; Some "to"; Some "to"; Some "us"; Some "ura";
     Some "urlang"; Some "to"; Some "to"].
Proof. vm_compute. reflexivity. Qed.
